(** * mido.messages: MIDI message specifications, messages, wire encoding
      and the text codec.

    A shallow embedding of [mido/messages.py].  Python exceptions are the
    [Raise] branch of a result type, [__dict__] and [_spec_lookup] are finite
    maps, keyword arguments are association lists in iteration order, and
    the generator [text_parse_stream] is the list of the items it yields
    together with the exception, if any, that ends it.

    The source is Python 2 code (it reads [exception.message]): strings
    are byte strings, and an integer is an [int] or, past [sys.maxint], a
    [long], which [isinstance(v, int)] does not hold of.  [VInt] is an [int]
    and [VLong] a [long]; [int(text)] decides between them by [maxint].  The
    values [True] and [False] are not among the values of the model. *)

From Stdlib Require Import ZArith Lia Bool Ascii String List.
From stdpp Require Import base option list gmap strings.

Set Warnings "-register-all".

Local Open Scope string_scope.
Local Open Scope Z_scope.

(** ** Exceptions *)

Inductive exception : Type :=
| ValueError (message : string)
| TypeError (message : string)
| AttributeError (message : string)
| NameError (message : string).

Inductive result (A : Type) : Type :=
| Return (a : A)
| Raise (e : exception).

Arguments Return {A} a.
Arguments Raise {A} e.

#[global] Instance result_ret : MRet result := fun A a => Return a.

#[global] Instance result_bind : MBind result := fun A B k r =>
  match r with
  | Return a => k a
  | Raise e => Raise e
  end.

Definition exception_message (e : exception) : string :=
  match e with
  | ValueError m | TypeError m | AttributeError m | NameError m => m
  end.

Definition is_Return {A : Type} (r : result A) : bool :=
  match r with Return _ => true | Raise _ => false end.

(** ** Built-in string operations *)

Module Str.

(** [str.isspace] on one byte: space, \t, \n, \v, \f, \r. *)
Definition is_space (c : ascii) : bool :=
  let n := nat_of_ascii c in
  (Nat.eqb n 32 || (Nat.leb 9 n && Nat.leb n 13))%bool.

Definition is_digit (c : ascii) : bool :=
  let n := nat_of_ascii c in (Nat.leb 48 n && Nat.leb n 57)%bool.

(** [text.split()]: the maximal runs of non-space bytes. *)
Fixpoint split (s : string) : list string :=
  match s with
  | EmptyString => []
  | String a s' =>
      if is_space a then split s'
      else match s' with
           | EmptyString => [String a EmptyString]
           | String b _ =>
               if is_space b then String a EmptyString :: split s'
               else match split s' with
                    | w :: ws => String a w :: ws
                    | [] => [String a EmptyString]
                    end
           end
  end.

(** [text.split(sep)] for a one-byte separator: never empty. *)
Fixpoint split_on (sep : ascii) (s : string) : list string :=
  match s with
  | EmptyString => [EmptyString]
  | String a s' =>
      if Ascii.eqb a sep then EmptyString :: split_on sep s'
      else match split_on sep s' with
           | w :: ws => String a w :: ws
           | [] => [String a EmptyString]
           end
  end.

Fixpoint lstrip (s : string) : string :=
  match s with
  | EmptyString => EmptyString
  | String a s' => if is_space a then lstrip s' else s
  end.

Fixpoint rstrip (s : string) : string :=
  match s with
  | EmptyString => EmptyString
  | String a s' =>
      match rstrip s' with
      | EmptyString => if is_space a then EmptyString
                       else String a EmptyString
      | r => String a r
      end
  end.

Definition strip (s : string) : string := rstrip (lstrip s).

Definition startswith (c : ascii) (s : string) : bool :=
  match s with
  | String a _ => Ascii.eqb a c
  | EmptyString => false
  end.

Fixpoint endswith (c : ascii) (s : string) : bool :=
  match s with
  | EmptyString => false
  | String a EmptyString => Ascii.eqb a c
  | String _ s' => endswith c s'
  end.

(** [s[:-1]] *)
Fixpoint drop_last (s : string) : string :=
  match s with
  | EmptyString => EmptyString
  | String _ EmptyString => EmptyString
  | String a s' => String a (drop_last s')
  end.

(** [s[1:-1]] *)
Definition slice_1_m1 (s : string) : string :=
  match s with
  | EmptyString => EmptyString
  | String _ s' => drop_last s'
  end.

(** [sep.join(parts)] *)
Fixpoint join (sep : string) (parts : list string) : string :=
  match parts with
  | [] => EmptyString
  | [p] => p
  | p :: ps => p ++ sep ++ join sep ps
  end.

Definition digit_value (c : ascii) : Z := Z.of_nat (nat_of_ascii c) - 48.

Fixpoint digits_value (acc : Z) (s : string) : option Z :=
  match s with
  | EmptyString => Some acc
  | String c s' =>
      if is_digit c then digits_value (10 * acc + digit_value c) s'
      else None
  end.

Definition unsigned_of_text (s : string) : option Z :=
  match s with
  | EmptyString => None
  | _ => digits_value 0 s
  end.

(** [int(text)] in base 10, [None] for its [ValueError]: surrounding
    white space, one optional sign, at least one digit. *)
Definition int_of_text (text : string) : option Z :=
  match strip text with
  | String "-" s => Z.opp <$> unsigned_of_text s
  | String "+" s => unsigned_of_text s
  | s => unsigned_of_text s
  end.

Definition digit_char (d : Z) : ascii := ascii_of_nat (Z.to_nat (48 + d)).

Fixpoint pos_digits (fuel : nat) (n : Z) (acc : string) : string :=
  match fuel with
  | O => acc
  | S fuel' =>
      let acc' := String (digit_char (n mod 10)) acc in
      if n <? 10 then acc' else pos_digits fuel' (n / 10) acc'
  end.

(** [str(n)] for an integer. *)
Definition of_int (n : Z) : string :=
  if n <? 0 then String "-" (pos_digits (Z.to_nat (Z.log2 (- n)) + 1) (- n) "")
  else pos_digits (Z.to_nat (Z.log2 n) + 1) n "".

Definition hex_char (d : nat) : ascii :=
  ascii_of_nat (if Nat.ltb d 10 then 48 + d else 87 + d).

Definition repr_char (quote c : ascii) : string :=
  let n := nat_of_ascii c in
  if (Ascii.eqb c quote || Ascii.eqb c "\")%bool
  then String "\" (String c EmptyString)
  else if Nat.eqb n 9 then "\t"
  else if Nat.eqb n 10 then "\n"
  else if Nat.eqb n 13 then "\r"
  else if (Nat.ltb n 32 || Nat.leb 127 n)%bool
  then String "\" (String "x" (String (hex_char (Nat.div n 16))
                    (String (hex_char (Nat.modulo n 16)) EmptyString)))
  else String c EmptyString.

Fixpoint contains (c : ascii) (s : string) : bool :=
  match s with
  | EmptyString => false
  | String a s' => (Ascii.eqb a c || contains c s')%bool
  end.

(** Every byte of [s] satisfies [P]. *)
Fixpoint all_chars (P : ascii -> bool) (s : string) : bool :=
  match s with
  | EmptyString => true
  | String c s' => (P c && all_chars P s')%bool
  end.

Fixpoint escape (quote : ascii) (s : string) : string :=
  match s with
  | EmptyString => EmptyString
  | String c s' => repr_char quote c ++ escape quote s'
  end.

Definition hex_upper (d : Z) : ascii :=
  ascii_of_nat (Z.to_nat (if d <? 10 then 48 + d else 55 + d)).

Fixpoint hex_digits (fuel : nat) (n : Z) (acc : string) : string :=
  match fuel with
  | O => acc
  | S fuel' =>
      let acc' := String (hex_upper (n mod 16)) acc in
      if n <? 16 then acc' else hex_digits fuel' (n / 16) acc'
  end.

(** ['{:02X}'.format(n)] for an integer: upper-case hexadecimal, filled
    with a zero up to two characters, the sign included. *)
Definition format_02X (n : Z) : string :=
  let digits := hex_digits (Z.to_nat (Z.log2 (Z.abs n)) + 1) (Z.abs n) "" in
  if n <? 0 then String "-" digits
  else if Nat.ltb (String.length digits) 2 then String "0" digits
  else digits.

(** [repr(s)] for a byte string. *)
Definition repr (s : string) : string :=
  let double : ascii := ascii_of_nat 34 in
  let quote : ascii :=
    if (contains "'" s && negb (contains double s))%bool then double
    else "'"%char in
  String quote (escape quote s ++ String quote EmptyString).

End Str.

(** ** Python values *)

(** The interpreter's floating-point numbers.  The source converts text to
    them ([float(text)]), tests them for truth ([if time:]), prints them and
    compares them; it never computes with them. *)
Class PyFloat : Type := {
  float : Type;
  float_of_text : string -> option float;
  float_bool : float -> bool;
  float_str : float -> string;
  float_repr : float -> string;
  float_eq : float -> float -> bool;
  float_eq_int : float -> Z -> bool;
}.

(** The interpreter's machine integers: [sys.maxint], which is at least
    [2^31 - 1].  A number in [-maxint - 1 .. maxint] is an [int]; [int(text)]
    returns a [long] for any other. *)
Class PyInt : Type := {
  maxint : Z;
  maxint_min : 2 ^ 31 - 1 <= maxint;
}.

Section Messages.

Context `{FP : PyFloat} `{PI : PyInt}.

Inductive pyval : Type :=
| VInt (n : Z)
| VLong (n : Z)
| VFloat (x : float)
| VStr (s : string)
| VNone
| VTuple (items : list pyval)
| VList (items : list pyval).

Definition type_name (v : pyval) : string :=
  match v with
  | VInt _ => "int"
  | VLong _ => "long"
  | VFloat _ => "float"
  | VStr _ => "str"
  | VNone => "NoneType"
  | VTuple _ => "tuple"
  | VList _ => "list"
  end.

(** [repr(v)] *)
Fixpoint py_repr (v : pyval) : string :=
  match v with
  | VInt n => Str.of_int n
  | VLong n => Str.of_int n ++ "L"
  | VFloat x => float_repr x
  | VStr s => Str.repr s
  | VNone => "None"
  | VTuple items =>
      match items with
      | [x] => "(" ++ py_repr x ++ ",)"
      | _ => "(" ++ Str.join ", " (map py_repr items) ++ ")"
      end
  | VList items => "[" ++ Str.join ", " (map py_repr items) ++ "]"
  end.

(** [str(v)] *)
Definition py_str (v : pyval) : string :=
  match v with
  | VStr s => s
  | VFloat x => float_str x
  | VLong n => Str.of_int n
  | _ => py_repr v
  end.

(** [int(text)] for the number that the text denotes. *)
Definition py_int (n : Z) : pyval :=
  if (- maxint - 1 <=? n) && (n <=? maxint) then VInt n else VLong n.

(** [a == b] *)
Fixpoint py_eq (a b : pyval) : bool :=
  let fix all_eq (xs ys : list pyval) : bool :=
    match xs, ys with
    | [], [] => true
    | x :: xs', y :: ys' => py_eq x y && all_eq xs' ys'
    | _, _ => false
    end in
  match a, b with
  | VInt m, VInt n | VInt m, VLong n | VLong m, VInt n | VLong m, VLong n =>
      Z.eqb m n
  | VFloat x, VFloat y => float_eq x y
  | VFloat x, VInt n | VInt n, VFloat x
  | VFloat x, VLong n | VLong n, VFloat x => float_eq_int x n
  | VStr s, VStr t => String.eqb s t
  | VNone, VNone => true
  | VTuple xs, VTuple ys => all_eq xs ys
  | VList xs, VList ys => all_eq xs ys
  | _, _ => false
  end.

Fixpoint py_list_eq (xs ys : list pyval) : bool :=
  match xs, ys with
  | [], [] => true
  | x :: xs', y :: ys' => py_eq x y && py_list_eq xs' ys'
  | _, _ => false
  end.

(** [bool(v)] *)
Definition py_bool (v : pyval) : bool :=
  match v with
  | VInt n | VLong n => negb (Z.eqb n 0)
  | VFloat x => float_bool x
  | VStr s => negb (String.eqb s "")
  | VNone => false
  | VTuple items | VList items =>
      match items with [] => false | _ => true end
  end.

(** The items of [v] when it is iterated ([tuple(v)], [list(v)],
    [for x in v]). *)
Definition py_iter (v : pyval) : result (list pyval) :=
  match v with
  | VTuple items | VList items => Return items
  | VStr s => Return ((fun c => VStr (String c EmptyString)) <$> list_ascii_of_string s)
  | _ => Raise (TypeError ("'" ++ type_name v ++ "' object is not iterable"))
  end.

(** ** Message specifications *)

(* Pitchwheel is a 14 bit signed integer *)
Definition MIN_PITCHWHEEL : Z := -8192.
Definition MAX_PITCHWHEEL : Z := 8191.

(* Song pos is a 14 bit unsigned integer *)
Definition MIN_SONGPOS : Z := 0.
Definition MAX_SONGPOS : Z := 16383.

(** The [size] of a specification: a number of bytes, or [float('inf')]. *)
Inductive spec_size : Type :=
| Bytes (n : nat)
| Inf.

Record MessageSpec : Type := mkMessageSpec {
  status_byte : Z;
  type_ : string;
  arguments : list string;
  size_ : spec_size;
}.

#[global] Instance spec_size_eq_dec : EqDecision spec_size.
Proof. solve_decision. Defined.

#[global] Instance MessageSpec_eq_dec : EqDecision MessageSpec.
Proof. solve_decision. Defined.

(* Attributes that can be set on the object *)
Definition valid_attributes (spec : MessageSpec) : gset string :=
  list_to_set (arguments spec) ∪ {["time"]}.

Definition get_message_specs : list MessageSpec := [
  (* Channel messages *)
  mkMessageSpec 0x80 "note_off" ["channel"; "note"; "velocity"] (Bytes 3);
  mkMessageSpec 0x90 "note_on" ["channel"; "note"; "velocity"] (Bytes 3);
  mkMessageSpec 0xa0 "polytouch" ["channel"; "note"; "value"] (Bytes 3);
  mkMessageSpec 0xb0 "control_change" ["channel"; "control"; "value"] (Bytes 3);
  mkMessageSpec 0xc0 "program_change" ["channel"; "program"] (Bytes 3);
  mkMessageSpec 0xd0 "aftertouch" ["channel"; "value"] (Bytes 3);
  mkMessageSpec 0xe0 "pitchwheel" ["channel"; "pitch"] (Bytes 3);
  (* System common messages *)
  mkMessageSpec 0xf0 "sysex" ["data"] Inf;
  mkMessageSpec 0xf1 "undefined_f1" [] (Bytes 1);
  mkMessageSpec 0xf2 "songpos" ["pos"] (Bytes 3);
  mkMessageSpec 0xf3 "song" ["song"] (Bytes 2);
  mkMessageSpec 0xf4 "undefined_f4" [] (Bytes 1);
  mkMessageSpec 0xf5 "undefined_f5" [] (Bytes 1);
  mkMessageSpec 0xf6 "tune_request" [] (Bytes 1);
  mkMessageSpec 0xf7 "sysex_end" [] (Bytes 1);
  (* System realtime messages *)
  mkMessageSpec 0xf8 "clock" [] (Bytes 1);
  mkMessageSpec 0xf9 "undefined_f9" [] (Bytes 1);
  mkMessageSpec 0xfa "start" [] (Bytes 1);
  mkMessageSpec 0xfb "continue" [] (Bytes 1);
  mkMessageSpec 0xfc "stop" [] (Bytes 1);
  mkMessageSpec 0xfd "undefined_fd" [] (Bytes 1);
  mkMessageSpec 0xfe "active_sensing" [] (Bytes 1);
  mkMessageSpec 0xff "reset" [] (Bytes 1)
].

(* Return call signature for Message constructor for this type.  The
   signature is returned as a string. *)
Definition signature (self : MessageSpec) : string :=
  let parts := [Str.repr (type_ self)] in
  let parts :=
    foldl (fun (parts : list string) name =>
             if String.eqb name "data" then (parts ++ ["data=()"])%list
             else (parts ++ [(name ++ "=0")%string])%list)
          parts (arguments self) in
  let parts := (parts ++ ["time=0"])%list in
  "(" ++ Str.join ", " parts ++ ")".

(** ** Validation of attribute values *)

Definition check_time (time : pyval) : result pyval :=
  match time with
  | VInt _ | VFloat _ => Return VNone
  | _ => Raise (TypeError "time must be an integer or float")
  end.

Definition check_channel (channel : pyval) : result pyval :=
  match channel with
  | VInt c =>
      if negb ((0 <=? c) && (c <=? 15))
      then Raise (ValueError "channel must be in range 0 .. 15")
      else Return VNone
  | _ => Raise (TypeError "channel must be an integer")
  end.

Definition check_pos (pos : pyval) : result pyval :=
  match pos with
  | VInt p =>
      if negb ((MIN_SONGPOS <=? p) && (p <=? MAX_SONGPOS))
      then Raise (ValueError ("song pos must be in range "
                    ++ Str.of_int MIN_SONGPOS ++ " .. " ++ Str.of_int MAX_SONGPOS))
      else Return VNone
  | _ => Raise (TypeError "song pos must be and integer")
  end.

Definition check_pitch (pitch : pyval) : result pyval :=
  match pitch with
  | VInt p =>
      if negb ((MIN_PITCHWHEEL <=? p) && (p <=? MAX_PITCHWHEEL))
      then Raise (ValueError ("pitchwheel value must be in range "
                    ++ Str.of_int MIN_PITCHWHEEL ++ " .. "
                    ++ Str.of_int MAX_PITCHWHEEL))
      else Return VNone
  | _ => Raise (TypeError "pichwheel value must be an integer")
  end.

Definition check_databyte (value : pyval) : result pyval :=
  match value with
  | VInt b =>
      if negb ((0 <=? b) && (b <=? 127))
      then Raise (ValueError "data byte must be in range 0 .. 127")
      else Return VNone
  | _ => Raise (TypeError "data byte must be an integer")
  end.

(** [for x in xs: f(x)], stopping at the first exception. *)
Fixpoint for_each {A : Type} (f : A -> result pyval) (xs : list A)
  : result unit :=
  match xs with
  | [] => Return tt
  | x :: xs' => _ ← f x; for_each f xs'
  end.

Definition check_data (data_bytes : pyval) : result pyval :=
  (* Make the sequence immutable. *)
  data_bytes ← py_iter data_bytes;
  _ ← for_each check_databyte data_bytes;
  Return (VTuple data_bytes).

(** ** Encoding of attribute values *)

Definition encode_channel (channel : pyval) : result pyval :=
  Return (VTuple []).

Definition encode_data (data : pyval) : result pyval :=
  items ← py_iter data;
  Return (VList (items ++ [VInt 0xf7])%list).

Definition encode_pitch (pitch : pyval) : result pyval :=
  match pitch with
  | VInt pitch =>
      let pitch := pitch - MIN_PITCHWHEEL in
      Return (VList [VInt (Z.land pitch 0x7f); VInt (Z.shiftr pitch 7)])
  | VLong pitch =>
      let pitch := pitch - MIN_PITCHWHEEL in
      Return (VList [VLong (Z.land pitch 0x7f); VLong (Z.shiftr pitch 7)])
  | _ => Raise (TypeError ("unsupported operand type(s) for &: '"
                  ++ type_name pitch ++ "' and 'int'"))
  end.

Definition encode_pos (pos : pyval) : result pyval :=
  match pos with
  | VInt pos => Return (VList [VInt (Z.land pos 0x7f); VInt (Z.shiftr pos 7)])
  | VLong pos =>
      Return (VList [VLong (Z.land pos 0x7f); VLong (Z.shiftr pos 7)])
  | _ => Raise (TypeError ("unsupported operand type(s) for &: '"
                  ++ type_name pos ++ "' and 'int'"))
  end.

(** [globals()[name]] for the functions that [Message] looks up by name:
    [None] is its [KeyError]. *)
Definition globals (name : string) : option (pyval -> result pyval) :=
  if String.eqb name "check_time" then Some check_time
  else if String.eqb name "check_channel" then Some check_channel
  else if String.eqb name "check_pos" then Some check_pos
  else if String.eqb name "check_pitch" then Some check_pitch
  else if String.eqb name "check_data" then Some check_data
  else if String.eqb name "check_databyte" then Some check_databyte
  else if String.eqb name "encode_channel" then Some encode_channel
  else if String.eqb name "encode_data" then Some encode_data
  else if String.eqb name "encode_pitch" then Some encode_pitch
  else if String.eqb name "encode_pos" then Some encode_pos
  else None.

(** ** Messages *)

Definition range (n : nat) : list Z := Z.of_nat <$> seq 0 n.

(* Quick lookup of specs by name or status_byte. *)
Definition _spec_lookup : gmap (Z + string) MessageSpec :=
  foldl (fun lookup spec =>
    let lookup :=
      if status_byte spec <? 0xf0 then
        (* Channel message.  The upper 4 bits are message type, and the
           lower 4 are MIDI channel.  We need lookup for all 16 MIDI
           channels. *)
        foldl (fun lookup channel =>
                 <[inl (Z.lor (status_byte spec) channel) := spec]> lookup)
              lookup (range 16)
      else <[inl (status_byte spec) := spec]> lookup in
    <[inr (type_ spec) := spec]> lookup) ∅ get_message_specs.

(** A message object: its [__dict__] holds [_spec], [type] and the
    attributes of the message. *)
Record Message : Type := mkMessage {
  _spec : MessageSpec;
  type : string;
  __dict__ : gmap string pyval;
}.

(** [name in self.__dict__] *)
Definition in_dict (self : Message) (name : string) : bool :=
  String.eqb name "_spec" || String.eqb name "type"
  || bool_decide (is_Some (__dict__ self !! name)).

(** [getattr(self, name)] for the attributes of the message. *)
Definition getattr (self : Message) (name : string) : result pyval :=
  match __dict__ self !! name with
  | Some value => Return value
  | None => Raise (AttributeError ("'Message' object has no attribute "
                     ++ Str.repr name))
  end.

(* Sets an attribute directly, bypassing all type and value checks *)
Definition _set (self : Message) (name : string) (value : pyval) : Message :=
  mkMessage (_spec self) (type self) (<[name := value]> (__dict__ self)).

(** The check for attribute [name]: [globals()['check_' + name]], or
    [check_databyte] when that raises [KeyError]. *)
Definition check_of (name : string) : pyval -> result pyval :=
  match globals ("check_" ++ name) with
  | Some check => check
  | None => check_databyte
  end.

(* Set an attribute.  The object is mutated in place: the result is the
   object afterwards, and the exception raised, if one is. *)
Definition __setattr__ (self : Message) (name : string) (value : pyval)
  : Message * option exception :=
  if bool_decide (name ∈ valid_attributes (_spec self)) then
    let check := check_of name in
    match check value with
    | Raise e => (self, Some e)
    | Return ret =>
        let value := if String.eqb name "data" then ret else value in
        (_set self name value, None)
    end
  else if in_dict self name then
    (self, Some (AttributeError (name ++ " attribute is read only")))
  else
    (self, Some (AttributeError
                   (type self ++ " message has no attribute " ++ name))).

(** [setattr(self, name, value)] where [self] is not used again once an
    exception leaves the caller. *)
Definition setattr (self : Message) (name : string) (value : pyval)
  : result Message :=
  match __setattr__ self name value with
  | (self, None) => Return self
  | (_, Some e) => Raise e
  end.

Definition __delattr__ (self : Message) (name : string)
  : Message * option exception :=
  (self, Some (AttributeError "attribute can not be deleted")).

(** Keyword arguments: the entries of a dict in the order it is iterated. *)
Definition kwargs : Type := list (string * pyval).

Fixpoint kw_lookup (name : string) (kw : kwargs) : option pyval :=
  match kw with
  | [] => None
  | (n, v) :: kw' => if String.eqb name n then Some v else kw_lookup name kw'
  end.

(** [d[name] = value] *)
Fixpoint kw_set (name : string) (value : pyval) (kw : kwargs) : kwargs :=
  match kw with
  | [] => [(name, value)]
  | (n, v) :: kw' =>
      if String.eqb name n then (n, value) :: kw'
      else (n, v) :: kw_set name value kw'
  end.

Definition repr_key (key : Z + string) : string :=
  match key with
  | inl n => Str.of_int n
  | inr s => Str.repr s
  end.

(** [for x in xs: self = f(self, x)], stopping at the first exception. *)
Fixpoint for_fold {A S : Type} (f : S -> A -> result S) (xs : list A) (s : S)
  : result S :=
  match xs with
  | [] => Return s
  | x :: xs' => s' ← f s x; for_fold f xs' s'
  end.

(** The round of the first loop of [__init__] for attribute [name]. *)
Definition init_default (type_0 : Z + string) (self : Message)
    (name : string) : result Message :=
  if String.eqb name "data" then setattr self "data" (VTuple [])
  else if String.eqb name "channel" then
    (* This is a channel message, so if the first argument to this function
       was a status_byte, the lower 4 bits will contain the channel. *)
    match type_0 with
    | inl n => setattr self "channel" (VInt (Z.land n 0x0f))
    | inr _ => setattr self "channel" (VInt 0)
    end
  else setattr self name (VInt 0).

(** The round of the second loop of [__init__] for one keyword argument. *)
Definition init_keyword (self : Message) (item : string * pyval)
  : result Message :=
  let '(name, value) := item in
  match setattr self name value with
  | Raise (AttributeError _) =>
      Raise (ValueError (Str.repr name
        ++ " is an invalid keyword argument for this message type"))
  | r => r
  end.

(* Create a new message. *)
Definition __init__ (type_0 : Z + string) (arguments_0 : kwargs)
  : result Message :=
  match _spec_lookup !! type_0 with
  | None =>
      Raise (ValueError (repr_key type_0
                           ++ " is an invalid type name or status byte"))
  | Some spec =>
      let self := mkMessage spec (type_ spec) ∅ in
      (* Set default values for attributes *)
      self ← for_fold (init_default type_0) (arguments spec) self;
      let self := _set self "time" (VInt 0) in
      (* Override attibutes with keyword arguments *)
      for_fold init_keyword arguments_0 self
  end.

(* Return a copy of the message.  Attributes will be overriden by the passed
   keyword arguments.  Only message specific attributes can be overriden.
   The message type can not be changed. *)
Definition copy (self : Message) (overrides : kwargs) : result Message :=
  (* Get values from this object *)
  arguments_0 ← for_fold (fun arguments_0 name =>
    match kw_lookup name overrides with
    | Some value => Return (kw_set name value arguments_0)
    | None => value ← getattr self name; Return (kw_set name value arguments_0)
    end) (arguments (_spec self) ++ ["time"])%list [];
  __init__ (inr (type self)) arguments_0.

(* Compute and return status byte.  For channel messages, the returned
   status byte will contain the channel in its lower 4 bits. *)
Definition _get_status_byte (self : Message) : result pyval :=
  let byte := status_byte (_spec self) in
  if byte <? 0xf0 then
    (* Add channel (lower 4 bits) to status byte.  Those bits in
       spec.status_byte are always 0. *)
    channel ← getattr self "channel";
    match channel with
    | VInt channel => Return (VInt (Z.lor byte channel))
    | VLong channel => Return (VLong (Z.lor byte channel))
    | _ => Raise (TypeError ("unsupported operand type(s) for |=: 'int' and '"
                    ++ type_name channel ++ "'"))
    end
  else Return (VInt byte).

(* Encode message and return as a list of integers. *)
Definition bytes (self : Message) : result (list pyval) :=
  status ← _get_status_byte self;
  for_fold (fun (message_bytes : list pyval) name =>
    value ← getattr self name;
    match globals ("encode_" ++ name) with
    | Some encode =>
        encoded ← encode value;
        items ← py_iter encoded;
        Return (message_bytes ++ items)%list
    | None => Return (message_bytes ++ [value])%list
    end) (arguments (_spec self)) [status].

(* Compare message to another for equality. *)
Definition __eq__ (self other : Message) : result bool :=
  let key (msg : Message) : result (list pyval) :=
    values ← for_fold (fun (values : list pyval) arg =>
      value ← getattr msg arg; Return (values ++ [value])%list)
      (arguments (_spec msg)) [];
    Return (VStr (type msg) :: values) in
  k1 ← key self;
  k2 ← key other;
  Return (py_list_eq k1 k2).

(** [bytearray(items)]: the bytes of a list of integers in range(256). *)
Definition py_bytearray (items : list pyval) : result (list Z) :=
  for_fold (fun (array : list Z) item =>
    match item with
    | VInt n | VLong n =>
        if (0 <=? n) && (n <? 256) then Return (array ++ [n])%list
        else Raise (ValueError "byte must be in range(0, 256)")
    | _ => Raise (TypeError "an integer is required")
    end) items [].

(* Encode message and return as a bytearray. *)
Definition bytearray (self : Message) : result (list Z) :=
  message_bytes ← bytes self;
  py_bytearray message_bytes.

(** ['{:02X}'.format(byte)] *)
Definition format_02X (byte : pyval) : result string :=
  match byte with
  | VInt n | VLong n => Return (Str.format_02X n)
  | _ => Raise (ValueError ("Unknown format code 'X' for object of type '"
                  ++ (match byte with VFloat _ => "float" | _ => "str" end)
                  ++ "'"))
  end.

(* Encode message and return as a string of hex numbers.  Each number is
   separated by the string sep. *)
Definition hex (self : Message) (sep : string) : result string :=
  message_bytes ← bytes self;
  numbers ← for_fold (fun (numbers : list string) byte =>
    number ← format_02X byte; Return (numbers ++ [number])%list)
    message_bytes [];
  Return (Str.join sep numbers).

Definition __repr__ (self : Message) : result string :=
  parts ← for_fold (fun (parts : list string) name =>
    value ← getattr self name;
    Return (parts ++ [(name ++ "=" ++ py_repr value)%string])%list)
    (arguments (_spec self) ++ ["time"])%list [type self];
  Return ("mido.Message(" ++ Str.join ", " parts ++ ")").

(** ** Text codec *)

(* Parse text as a number.  Return number or None if text is not a number. *)
Definition text_parse_number (text : string) : option pyval :=
  match Str.int_of_text text with
  | Some n => Some (py_int n)
  | None =>
      match float_of_text text with
      | Some x => Some (VFloat x)
      | None => None
      end
  end.

(** One round of the loop of [text_parse] over the arguments. *)
Definition text_parse_argument (state : Message * gset string)
    (argument : string) : result (Message * gset string) :=
  let '(message, names_seen) := state in
  match Str.split_on "=" argument with
  | [name; value] =>
      if bool_decide (name ∈ names_seen) then
        Raise (ValueError "argument passed more than once")
      else
        let names_seen := names_seen ∪ {[name]} in
        if String.eqb name "data" then
          if negb (Str.startswith "(" value) && Str.endswith ")" value then
            Raise (ValueError "missing parentheses in data message")
          else
            match mapM Str.int_of_text
                       (Str.split_on "," (Str.slice_1_m1 value)) with
            | None => Raise (ValueError "unable to parse data bytes")
            | Some data_bytes =>
                message ← setattr message "data"
                            (VList (py_int <$> data_bytes));
                Return (message, names_seen)
            end
        else
          match Str.int_of_text value with
          | None =>
              Raise (ValueError ("invalid literal for int() with base 10: "
                                   ++ Str.repr value))
          | Some n =>
              match setattr message name (py_int n) with
              | Raise (AttributeError message_0) =>
                  Raise (ValueError message_0)
              | Raise e => Raise e
              | Return message => Return (message, names_seen)
              end
          end
  | _ => Raise (ValueError "missing or extraneous equals sign")
  end.

(* Parse a string of text and return a message.  Raises ValueError if the
   string could not be parsed. *)
Definition text_parse (text : string) : result Message :=
  match Str.split text with
  | [] => Raise (ValueError "string is empty")
  | first :: rest =>
      let time := text_parse_number first in
      words ← match time, rest with
              | Some _, [] => Raise (ValueError "no message found after number")
              | Some _, word :: words => Return (word, words)
              | None, _ => Return (first, rest)
              end;
      let '(word, arguments_0) := words in
      message ← __init__ (inr word) [];
      message ← match time with
                | Some time =>
                    if py_bool time then setattr message "time" time
                    else Return message
                | None => Return message
                end;
      state ← for_fold text_parse_argument arguments_0 (message, ∅);
      Return state.1
  end.

(** What a generator does when it is run to its end: the items it yields,
    and the exception that ends it, if one does. *)
Record generated (A : Type) : Type := mkGenerated {
  yielded : list A;
  raised : option exception;
}.

Arguments mkGenerated {A} yielded raised.
Arguments yielded {A} g.
Arguments raised {A} g.

Definition yield {A : Type} (item : A) (g : generated A) : generated A :=
  mkGenerated (item :: yielded g) (raised g).

(** What evaluating a global name that the module does not bind gives: a
    [NameError], whatever the value is then called with. *)
Definition unbound {A B : Type} (name : string) : A -> result B :=
  fun _ => Raise (NameError ("global name '" ++ name ++ "' is not defined")).

(* Parse a stream of messages and yield (message, error_message).  The body
   calls the global name [parse], and the argument [parse] is what that name
   evaluates to: the function bound to it, or [unbound "parse"] for the module
   as it is, which binds no such name. *)
Fixpoint text_parse_stream_from (parse : string -> result Message)
    (line_number : Z) (stream : list string)
  : generated (option Message * option string) :=
  match stream with
  | [] => mkGenerated [] None
  | line :: stream' =>
      let next := text_parse_stream_from parse (line_number + 1) stream' in
      let line := Str.strip (hd "" (Str.split_on "#" line)) in
      if String.eqb line "" then next
      else match parse line with
           | Return message => yield (Some message, None) next
           | Raise (ValueError message) =>
               let error_message :=
                 "line " ++ Str.of_int line_number ++ ": " ++ message in
               yield (None, Some error_message) next
           | Raise e => mkGenerated [] (Some e)
           end
  end.

Definition text_parse_stream (parse : string -> result Message)
    (stream : list string) : generated (option Message * option string) :=
  text_parse_stream_from parse 1 stream.

(* Format a message and return as a string. *)
Definition text_format (message : Message) (include_time : bool)
  : result string :=
  words ← (if include_time then
             time ← getattr message "time"; Return [py_str time]
           else Return []);
  let words : list string := (words ++ [type message])%list in
  words ← for_fold (fun (words : list string) name =>
    value ← getattr message name;
    value ← (if String.eqb name "data" then
               items ← py_iter value;
               Return (VStr ("(" ++ Str.join "," (py_str <$> items) ++ ")"))
             else Return value);
    Return (words ++ [(name ++ "=" ++ py_str value)%string])%list)
    (arguments (_spec message)) words;
  Return (Str.join " " words).

Definition __str__ (self : Message) : result string :=
  text_format self false.

(** ** Valid messages *)

(** The rule for a value written to attribute [name], in the words of the
    specification: [channel] is an integer in 0-15, [pos] an integer in
    0-16383, [pitch] an integer in -8192-8191, [data] a sequence of integers
    in 0-127, [time] an integer or a real, and every other attribute an
    integer in 0-127. *)
Definition int_between (lo hi : Z) (value : pyval) : bool :=
  match value with
  | VInt n => (lo <=? n) && (n <=? hi)
  | _ => false
  end.

Definition field_rule (name : string) (value : pyval) : bool :=
  if String.eqb name "channel" then int_between 0 15 value
  else if String.eqb name "pos" then int_between 0 16383 value
  else if String.eqb name "pitch" then int_between (-8192) 8191 value
  else if String.eqb name "data" then
    match py_iter value with
    | Return items => forallb (int_between 0 127) items
    | Raise _ => false
    end
  else if String.eqb name "time" then
    match value with
    | VInt _ | VFloat _ => true
    | _ => false
    end
  else int_between 0 127 value.

(** What a valid write stores: [data] as a tuple, anything else as it is. *)
Definition stored_value (name : string) (value : pyval) : pyval :=
  if String.eqb name "data" then
    match py_iter value with
    | Return items => VTuple items
    | Raise _ => value
    end
  else value.

Definition stored_ok (name : string) (value : pyval) : bool :=
  field_rule name value
  && (if String.eqb name "data"
      then match value with VTuple _ => true | _ => false end
      else true).

(** A message as the constructor and the validated writes leave it: bound to
    a registered specification, holding exactly the attributes of the
    specification and [time], each with a value its rule accepts. *)
Definition valid_message (m : Message) : bool :=
  bool_decide (_spec_lookup !! inr (type m) = Some (_spec m))
  && bool_decide (dom (__dict__ m) = valid_attributes (_spec m))
  && forallb (fun name =>
                match __dict__ m !! name with
                | Some value => stored_ok name value
                | None => false
                end) (arguments (_spec m) ++ ["time"])%list.

(** The keys under which the registry is expected to hold an entry. *)
Definition known_key (key : Z + string) : bool :=
  match key with
  | inl n => (0x80 <=? n) && (n <=? 0xff)
  | inr s => bool_decide (s ∈ type_ <$> get_message_specs)
  end.

End Messages.

Arguments mkGenerated {A} yielded raised.
Arguments yielded {A} g.
Arguments raised {A} g.

(** ** Decimal floats

    An instance of [PyFloat] on which the definitions above can be run: a
    float is the exact value of a decimal literal, or an infinity or a NaN
    (rounding to 53 bits is not modelled). *)

Module DecimalFloat.

Inductive t : Type :=
| Nan
| Infinity (negative : bool)
| Finite (negative : bool) (mantissa : Z) (exponent : Z).

Definition lower (c : ascii) : ascii :=
  let n := nat_of_ascii c in
  if (Nat.leb 65 n && Nat.leb n 90)%bool then ascii_of_nat (n + 32) else c.

Fixpoint lower_string (s : string) : string :=
  match s with
  | EmptyString => EmptyString
  | String c s' => String (lower c) (lower_string s')
  end.

Fixpoint take_digits (s : string) : string * string :=
  match s with
  | EmptyString => (EmptyString, EmptyString)
  | String c s' =>
      if Str.is_digit c then
        let '(digits, rest) := take_digits s' in (String c digits, rest)
      else (EmptyString, s)
  end.

Definition exponent_of_text (s : string) : option Z :=
  match s with
  | EmptyString => Some 0
  | String c s' =>
      if Ascii.eqb (lower c) "e" then
        match s' with
        | String "-" digits => Z.opp <$> Str.unsigned_of_text digits
        | String "+" digits => Str.unsigned_of_text digits
        | digits => Str.unsigned_of_text digits
        end
      else None
  end.

Definition number_of_text (negative : bool) (s : string) : option t :=
  let '(int_part, rest) := take_digits s in
  let '(frac_part, rest) :=
    match rest with
    | String "." rest' => take_digits rest'
    | _ => (EmptyString, rest)
    end in
  if (String.eqb int_part "" && String.eqb frac_part "")%bool then None
  else
    e ← exponent_of_text rest;
    m ← Str.digits_value 0 (int_part ++ frac_part);
    Some (Finite negative m (e - Z.of_nat (String.length frac_part))).

(** [float(text)] *)
Definition of_text (text : string) : option t :=
  let '(negative, body) :=
    match Str.strip text with
    | String "-" body => (true, body)
    | String "+" body => (false, body)
    | body => (false, body)
    end in
  let word := lower_string body in
  if (String.eqb word "inf" || String.eqb word "infinity")%bool
  then Some (Infinity negative)
  else if String.eqb word "nan" then Some Nan
  else number_of_text negative body.

Definition to_bool (x : t) : bool :=
  match x with
  | Finite _ m _ => negb (Z.eqb m 0)
  | _ => true
  end.

Fixpoint strip_zeros (fuel : nat) (m e : Z) : Z * Z :=
  match fuel with
  | O => (m, e)
  | S fuel' =>
      if (negb (Z.eqb m 0) && Z.eqb (m mod 10) 0)%bool
      then strip_zeros fuel' (m / 10) (e + 1)
      else (m, e)
  end.

Definition normal (m e : Z) : Z * Z :=
  if Z.eqb m 0 then (0, 0)
  else strip_zeros (Z.to_nat (Z.log2 m) + 1) m e.

Fixpoint zeros (n : nat) : string :=
  match n with
  | O => EmptyString
  | S n' => String "0" (zeros n')
  end.

Definition two_digits (n : Z) : string :=
  if n <? 10 then String "0" (Str.of_int n) else Str.of_int n.

(** [repr(x)]: positional notation, or an exponent when the decimal point
    is far from the digits. *)
Definition to_text (x : t) : string :=
  match x with
  | Nan => "nan"
  | Infinity negative => if negative then "-inf" else "inf"
  | Finite negative m e =>
      let sign := if negative then "-" else "" in
      let '(m, e) := normal m e in
      let digits := Str.of_int m in
      let len := Z.of_nat (String.length digits) in
      let decpt := len + e in
      if Z.eqb m 0 then sign ++ "0.0"
      else if ((-4 <? decpt) && (decpt <=? 16))%bool then
        if decpt <=? 0 then
          sign ++ "0." ++ zeros (Z.to_nat (- decpt)) ++ digits
        else if len <=? decpt then
          sign ++ digits ++ zeros (Z.to_nat (decpt - len)) ++ ".0"
        else
          sign ++ substring 0 (Z.to_nat decpt) digits ++ "."
               ++ substring (Z.to_nat decpt) (Z.to_nat (len - decpt)) digits
      else
        let x := decpt - 1 in
        sign ++ substring 0 1 digits
             ++ (if 1 <? len
                 then "." ++ substring 1 (Z.to_nat (len - 1)) digits
                 else "")
             ++ "e" ++ (if x <? 0 then "-" else "+") ++ two_digits (Z.abs x)
  end.

Definition signed (negative : bool) (m : Z) : Z :=
  if negative then - m else m.

(** [x == y] *)
Definition eqb (x y : t) : bool :=
  match x, y with
  | Infinity a, Infinity b => Bool.eqb a b
  | Finite a m e, Finite b n f =>
      let low := Z.min e f in
      Z.eqb (signed a m * 10 ^ (e - low)) (signed b n * 10 ^ (f - low))
  | _, _ => false
  end.

Definition eqb_int (x : t) (n : Z) : bool := eqb x (Finite false n 0).

Definition decimal_float : PyFloat := {|
  float := t;
  float_of_text := of_text;
  float_bool := to_bool;
  float_str := to_text;
  float_repr := to_text;
  float_eq := eqb;
  float_eq_int := eqb_int;
|}.

End DecimalFloat.

(** A 64-bit interpreter: [sys.maxint] is [2^63 - 1]. *)
Definition int64 : PyInt := {|
  maxint := 2 ^ 63 - 1;
  maxint_min := proj1 (Z.leb_le (2 ^ 31 - 1) (2 ^ 63 - 1)) eq_refl;
|}.

(** The attributes of a message before [__init__] applies the keyword
    arguments. *)
Definition default_value `{FP : PyFloat} (type_0 : Z + string) (name : string)
  : pyval :=
  if String.eqb name "data" then VTuple []
  else if String.eqb name "channel" then
    match type_0 with
    | inl n => VInt (Z.land n 0x0f)
    | inr _ => VInt 0
    end
  else VInt 0.

Definition set_all `{FP : PyFloat} (entries : kwargs) (self : Message)
  : Message :=
  foldl (fun self entry => _set self entry.1 (stored_value entry.1 entry.2))
        self entries.

Definition default_message `{FP : PyFloat} (spec : MessageSpec)
    (type_0 : Z + string) : Message :=
  _set (set_all ((fun name => (name, default_value type_0 name))
                   <$> arguments spec)
                (mkMessage spec (type_ spec) ∅))
       "time" (VInt 0).

(** A keyword argument that [__init__] accepts for [spec]. *)
Definition valid_keyword `{FP : PyFloat} (spec : MessageSpec)
    (entry : string * pyval) : bool :=
  bool_decide (entry.1 ∈ valid_attributes spec)
  && field_rule entry.1 entry.2.

(** The encoding of a message in the words of the specification: the
    status byte, with the channel in its low four bits for a channel type,
    and then for each attribute in the order of the specification: nothing
    for [channel]; the data bytes and the terminator 0xF7 for [data]; the low
    seven bits and then the high seven bits of [pitch + 8192] for [pitch], and
    of [pos] for [pos]; the value itself for any other attribute. *)
Definition attribute `{FP : PyFloat} (m : Message) (name : string) : pyval :=
  default VNone (__dict__ m !! name).

Definition field_bytes `{FP : PyFloat} (name : string) (value : pyval)
  : list pyval :=
  if String.eqb name "channel" then []
  else if String.eqb name "data" then
    match value with
    | VTuple items => items ++ [VInt 0xf7]
    | _ => []
    end
  else if String.eqb name "pitch" then
    match value with
    | VInt pitch =>
        [VInt (Z.land (pitch + 8192) 0x7f); VInt (Z.shiftr (pitch + 8192) 7)]
    | _ => []
    end
  else if String.eqb name "pos" then
    match value with
    | VInt pos => [VInt (Z.land pos 0x7f); VInt (Z.shiftr pos 7)]
    | _ => []
    end
  else [value].

Definition wire_status `{FP : PyFloat} (m : Message) : Z :=
  if status_byte (_spec m) <? 0xf0 then
    match attribute m "channel" with
    | VInt channel => Z.lor (status_byte (_spec m)) channel
    | _ => status_byte (_spec m)
    end
  else status_byte (_spec m).

Definition wire_bytes `{FP : PyFloat} (m : Message) : list pyval :=
  VInt (wire_status m)
  :: flat_map (fun name => field_bytes name (attribute m name))
              (arguments (_spec m)).

(** The name that [text_parse] reads in an argument [name=value]. *)
Definition argument_name (argument : string) : string :=
  hd "" (Str.split_on "=" argument).

(** What [text_parse] does once it has the leading number, if there is
    one, the name of the type and the arguments. *)
Definition text_parse_words `{FP : PyFloat} `{PI : PyInt}
    (time : option pyval)
    (word : string) (arguments_0 : list string) : result Message :=
  message ← __init__ (inr word) [];
  message ← match time with
            | Some time =>
                if py_bool time then setattr message "time" time
                else Return message
            | None => Return message
            end;
  state ← for_fold text_parse_argument arguments_0 (message, ∅);
  Return state.1.

(** The arguments of a line of text: its words after the leading number,
    if there is one, and the name of the type. *)
Definition line_arguments `{FP : PyFloat} `{PI : PyInt} (text : string)
  : list string :=
  match Str.split text with
  | [] => []
  | first :: rest =>
      match text_parse_number first with
      | Some _ => tail rest
      | None => rest
      end
  end.

(** The integers that [text_parse] reads with [int] in the words of a
    line: the leading number, the values of the arguments and the bytes of a
    [data] argument. *)
Definition argument_integers (argument : string) : list Z :=
  match Str.split_on "=" argument with
  | [name; value] =>
      if String.eqb name "data" then
        default [] (mapM Str.int_of_text
                         (Str.split_on "," (Str.slice_1_m1 value)))
      else option_list (Str.int_of_text value)
  | _ => []
  end.

Definition line_integers `{FP : PyFloat} `{PI : PyInt} (text : string)
  : list Z :=
  (option_list (Str.int_of_text (hd "" (Str.split text)))
   ++ flat_map argument_integers (line_arguments text))%list.

(** A line of a stream without its comment and the white space around it,
    and what the stream yields for the line with the given number when
    parsing it raises nothing but [ValueError]. *)
Definition clean_line (line : string) : string :=
  Str.strip (hd "" (Str.split_on "#" line)).

Definition stream_item `{FP : PyFloat} (parse : string -> result Message)
    (line_number : Z) (line : string)
  : list (option Message * option string) :=
  if String.eqb (clean_line line) "" then []
  else match parse (clean_line line) with
       | Return message => [(Some message, None)]
       | Raise e =>
           [(None, Some ("line " ++ Str.of_int line_number ++ ": "
                           ++ exception_message e))]
       end.

Fixpoint stream_items `{FP : PyFloat} (parse : string -> result Message)
    (line_number : Z) (stream : list string)
  : list (option Message * option string) :=
  match stream with
  | [] => []
  | line :: stream' =>
      (stream_item parse line_number line
       ++ stream_items parse (line_number + 1) stream')%list
  end.

(** Bytes that are not white space, and the bytes of a printed integer:
    digits and the minus sign. *)
Definition not_space (c : ascii) : bool := negb (Str.is_space c).

Definition int_char (c : ascii) : bool :=
  Str.is_digit c || Ascii.eqb c "-".

(** The bytes of a name or of a value in a line of text. *)
Definition value_char_ok (c : ascii) : bool :=
  not_space c && negb (Ascii.eqb c "=").

(** The text of the value of an attribute in a line of text. *)
Definition render_value `{FP : PyFloat} (name : string) (value : pyval)
  : string :=
  if String.eqb name "data" then
    match value with
    | VTuple items => "(" ++ Str.join "," (py_str <$> items) ++ ")"
    | _ => ""
    end
  else py_str value.

Definition render_argument `{FP : PyFloat} (m : Message) (name : string)
  : string :=
  name ++ "=" ++ render_value name (attribute m name).

(** The specifications of channel messages, and those of the system
    messages with status bytes 0xF1-0xFF. *)
Definition channel_specs : list MessageSpec :=
  filter (fun spec => status_byte spec < 0xf0) get_message_specs.

Definition system_specs : list MessageSpec :=
  filter (fun spec => 0xf1 <= status_byte spec <= 0xff) get_message_specs.

Definition unbounded_specs : list MessageSpec :=
  filter (fun spec => size_ spec = Inf) get_message_specs.

(** * Properties *)

(** ** The registry *)

Lemma registry_forall (P : Z + string -> MessageSpec -> bool) :
  forallb (fun entry => P entry.1 entry.2) (map_to_list _spec_lookup) = true ->
  forall key spec, _spec_lookup !! key = Some spec -> P key spec = true.
Proof.
  intros HP key spec Hlookup.
  apply elem_of_map_to_list, list_elem_of_In in Hlookup.
  rewrite forallb_forall in HP.
  exact (HP (key, spec) Hlookup).
Qed.

Lemma elem_of_range (n : nat) (c : Z) : c ∈ range n <-> 0 <= c < Z.of_nat n.
Proof.
  unfold range. rewrite list_elem_of_fmap. split.
  - intros (i & -> & Hi). apply list_elem_of_In, in_seq in Hi. lia.
  - intros Hc. exists (Z.to_nat c). split; [lia |].
    apply list_elem_of_In, in_seq. lia.
Qed.

Lemma forallb_elem_of {A : Type} (P : A -> bool) (xs : list A) (x : A) :
  forallb P xs = true -> x ∈ xs -> P x = true.
Proof.
  rewrite forallb_forall. intros HP Hx. apply HP, list_elem_of_In, Hx.
Qed.

Ltac by_computation := vm_compute; reflexivity.

Lemma registry_lookup_name (s : string) (spec : MessageSpec) :
  _spec_lookup !! (inr s : Z + string) = Some spec <->
  spec ∈ get_message_specs /\ s = type_ spec.
Proof.
  split.
  - intros Hlookup.
    set (P := fun (key : Z + string) spec =>
         match key with
         | inr s => bool_decide (spec ∈ get_message_specs /\ s = type_ spec)
         | inl _ => true
         end).
    assert (forallb (fun entry => P entry.1 entry.2)
              (map_to_list _spec_lookup) = true) as HP by by_computation.
    exact (bool_decide_eq_true_1 _ (registry_forall P HP _ _ Hlookup)).
  - intros [Hin ->].
    set (P := fun spec => bool_decide
         (_spec_lookup !! (inr (type_ spec) : Z + string) = Some spec)).
    assert (forallb P get_message_specs = true) as HP by by_computation.
    exact (bool_decide_eq_true_1 _ (forallb_elem_of P _ _ HP Hin)).
Qed.

Lemma registry_lookup_byte (n : Z) (spec : MessageSpec) :
  _spec_lookup !! (inl n : Z + string) = Some spec <->
  spec ∈ get_message_specs /\
  (if status_byte spec <? 0xf0
   then exists channel, 0 <= channel <= 15 /\ n = Z.lor (status_byte spec) channel
   else n = status_byte spec).
Proof.
  split.
  - intros Hlookup.
    set (P := fun (key : Z + string) spec =>
         match key with
         | inl n =>
             bool_decide (spec ∈ get_message_specs)
             && (if status_byte spec <? 0xf0
                 then bool_decide (n ∈ Z.lor (status_byte spec) <$> range 16)
                 else bool_decide (n = status_byte spec))
         | inr _ => true
         end).
    assert (forallb (fun entry => P entry.1 entry.2)
              (map_to_list _spec_lookup) = true) as HP by by_computation.
    pose proof (registry_forall P HP _ _ Hlookup) as Hp.
    subst P. cbv beta iota in Hp. apply andb_true_iff in Hp as [Hin Hn].
    split; [exact (bool_decide_eq_true_1 _ Hin) |].
    destruct (status_byte spec <? 0xf0).
    + apply bool_decide_eq_true_1, list_elem_of_fmap in Hn as (c & -> & Hc).
      apply elem_of_range in Hc. exists c. split; [lia | reflexivity].
    + exact (bool_decide_eq_true_1 _ Hn).
  - intros [Hin Hn].
    set (P := fun spec =>
         if status_byte spec <? 0xf0
         then forallb (fun channel => bool_decide
                (_spec_lookup !! (inl (Z.lor (status_byte spec) channel)
                                    : Z + string) = Some spec)) (range 16)
         else bool_decide
                (_spec_lookup !! (inl (status_byte spec) : Z + string)
                 = Some spec)).
    assert (forallb P get_message_specs = true) as HP by by_computation.
    pose proof (forallb_elem_of P _ _ HP Hin) as Hp.
    subst P. cbv beta in Hp. destruct (status_byte spec <? 0xf0).
    + destruct Hn as (c & Hc & ->).
      assert (c ∈ range 16) as Hr by (apply elem_of_range; lia).
      exact (bool_decide_eq_true_1 _ (forallb_elem_of _ _ _ Hp Hr)).
    + subst n. exact (bool_decide_eq_true_1 _ Hp).
Qed.

Lemma registry_known (key : Z + string) :
  is_Some (_spec_lookup !! key) <-> known_key key = true.
Proof.
  split.
  - intros [spec Hlookup].
    set (P := fun (key : Z + string) (_ : MessageSpec) => known_key key).
    assert (forallb (fun entry => P entry.1 entry.2)
              (map_to_list _spec_lookup) = true) as HP by by_computation.
    exact (registry_forall P HP _ _ Hlookup).
  - destruct key as [n | s]; unfold known_key.
    + intros Hn. apply andb_true_iff in Hn as [Hlo Hhi].
      assert (n - 128 ∈ range 128) as Hr by (apply elem_of_range; lia).
      set (P := fun i => bool_decide
           (is_Some (_spec_lookup !! (inl (i + 128) : Z + string)))).
      assert (forallb P (range 128) = true) as HP by by_computation.
      pose proof (forallb_elem_of P _ _ HP Hr) as Hp.
      subst P. cbv beta in Hp. apply bool_decide_eq_true_1 in Hp.
      replace (n - 128 + 128) with n in Hp by lia. exact Hp.
    + intros Hs. apply bool_decide_eq_true_1, list_elem_of_fmap in Hs
        as (spec & -> & Hin).
      exists spec. apply registry_lookup_name. auto.
Qed.

(** C5 (as the specification counts them): the registry does not hold 21
    types of which 14 are system types with status bytes 0xF1-0xFF. *)
Lemma registry_not_21_types :
  ~ (length get_message_specs = 21%nat /\ length system_specs = 14%nat).
Proof. intros [H21 _]. vm_compute in H21. discriminate. Qed.

(** C5 (amended): the registry holds exactly 23 types: 7 channel types, each
    found under the 16 status bytes made of its base byte and a channel, 15
    system types with status bytes 0xF1-0xFF, and the one unbounded type,
    sysex, at 0xF0; every type is found under its name; and resolving a key
    fails exactly when the key is an integer outside 0x80-0xFF or a string
    that is not the name of a type. *)
Theorem registry_contents :
  length get_message_specs = 23%nat /\
  length channel_specs = 7%nat /\
  length system_specs = 15%nat /\
  unbounded_specs = [mkMessageSpec 0xf0 "sysex" ["data"] Inf] /\
  NoDup (type_ <$> get_message_specs) /\
  (forall (n : Z) (spec : MessageSpec),
     _spec_lookup !! (inl n : Z + string) = Some spec <->
     spec ∈ get_message_specs /\
     (if status_byte spec <? 0xf0
      then exists channel,
             0 <= channel <= 15 /\ n = Z.lor (status_byte spec) channel
      else n = status_byte spec)) /\
  (forall (s : string) (spec : MessageSpec),
     _spec_lookup !! (inr s : Z + string) = Some spec <->
     spec ∈ get_message_specs /\ s = type_ spec) /\
  (forall key : Z + string,
     _spec_lookup !! key = None <->
     match key with
     | inl n => n < 0x80 \/ 0xff < n
     | inr s => s ∉ type_ <$> get_message_specs
     end).
Proof.
  split; [reflexivity |].
  split; [by_computation |].
  split; [by_computation |].
  split; [by_computation |].
  split; [apply (bool_decide_eq_true_1 _); by_computation |].
  split; [exact registry_lookup_byte |].
  split; [exact registry_lookup_name |].
  intros key. rewrite eq_None_not_Some, registry_known.
  destruct key as [n | s]; unfold known_key.
  - rewrite andb_true_iff, !Z.leb_le. lia.
  - rewrite bool_decide_eq_true. reflexivity.
Qed.

(** ** Validated writes *)

#[global] Opaque _spec_lookup.

Section MessageProperties.

Context `{FP : PyFloat} `{PI : PyInt}.

Lemma check_of_cases (name : string) :
  (name = "time" /\ check_of name = check_time) \/
  (name = "channel" /\ check_of name = check_channel) \/
  (name = "pos" /\ check_of name = check_pos) \/
  (name = "pitch" /\ check_of name = check_pitch) \/
  (name = "data" /\ check_of name = check_data) \/
  (name <> "time" /\ name <> "channel" /\ name <> "pos" /\ name <> "pitch"
   /\ name <> "data" /\ check_of name = check_databyte).
Proof.
  destruct (String.eqb_spec name "time") as [-> | Htime]; [auto |].
  destruct (String.eqb_spec name "channel") as [-> | Hchannel]; [auto 10 |].
  destruct (String.eqb_spec name "pos") as [-> | Hpos]; [auto 10 |].
  destruct (String.eqb_spec name "pitch") as [-> | Hpitch]; [auto 10 |].
  destruct (String.eqb_spec name "data") as [-> | Hdata]; [auto 10 |].
  do 5 right. repeat (split; [assumption |]).
  unfold check_of, globals. simpl.
  change (String.append "" name) with name.
  apply String.eqb_neq in Htime, Hchannel, Hpos, Hpitch, Hdata.
  rewrite Htime, Hchannel, Hpos, Hpitch, Hdata.
  destruct (name =? "databyte")%string; reflexivity.
Qed.

Ltac unfold_checks :=
  cbv [check_time check_channel check_pos check_pitch check_databyte
       int_between MIN_SONGPOS MAX_SONGPOS MIN_PITCHWHEEL MAX_PITCHWHEEL].

Lemma for_each_databyte (items : list pyval) :
  for_each check_databyte items =
  if forallb (int_between 0 127) items then Return tt
  else for_each check_databyte items.
Proof. destruct (forallb _ items) eqn:E; [| reflexivity].
  induction items as [| x items IH]; [reflexivity |].
  simpl in E. apply andb_true_iff in E as [Hx Hrest].
  destruct x; try discriminate. simpl in *. rewrite Hx. simpl. auto.
Qed.

Lemma for_each_databyte_fails (items : list pyval) :
  forallb (int_between 0 127) items = false ->
  exists message,
    for_each check_databyte items = Raise (ValueError message) \/
    for_each check_databyte items = Raise (TypeError message).
Proof.
  induction items as [| x items IH]; [discriminate |].
  simpl. destruct (int_between 0 127 x) eqn:Hx; simpl.
  - intros Hrest. destruct x; try discriminate. simpl in *. rewrite Hx.
    simpl. auto.
  - intros _. destruct x; simpl in *; [rewrite Hx |..]; simpl; eauto.
Qed.

(** The check that [__setattr__] selects by name decides the rule of the
    attribute: it returns when the rule accepts the value, returning the
    tuple to store for [data], and raises a [ValueError] or a [TypeError]
    when it does not. *)
Lemma check_of_accepts (name : string) (value : pyval) :
  field_rule name value = true ->
  exists ret,
    check_of name value = Return ret /\
    (if String.eqb name "data" then ret else value) = stored_value name value.
Proof.
  unfold field_rule, stored_value.
  destruct (check_of_cases name)
    as [[-> ->] | [[-> ->] | [[-> ->] | [[-> ->] | [[-> ->] | H]]]]]; simpl.
  - destruct value; try discriminate; eauto.
  - destruct value; try discriminate; unfold_checks; intros ->; simpl; eauto.
  - destruct value; try discriminate; unfold_checks; intros ->; simpl; eauto.
  - destruct value; try discriminate; unfold_checks; intros ->; simpl; eauto.
  - unfold check_data. destruct (py_iter value) as [items | e];
      [| discriminate].
    intros Hitems. simpl. rewrite for_each_databyte, Hitems. simpl. eauto.
  - destruct H as (Ht & Hc & Hpo & Hpi & Hd & ->).
    apply String.eqb_neq in Ht, Hc, Hpo, Hpi, Hd.
    rewrite Ht, Hc, Hpo, Hpi, Hd.
    destruct value; try discriminate; unfold_checks; intros ->; simpl; eauto.
Qed.

Lemma check_of_rejects (name : string) (value : pyval) :
  field_rule name value = false ->
  exists message,
    check_of name value = Raise (ValueError message) \/
    check_of name value = Raise (TypeError message).
Proof.
  unfold field_rule.
  destruct (check_of_cases name)
    as [[-> ->] | [[-> ->] | [[-> ->] | [[-> ->] | [[-> ->] | H]]]]]; simpl.
  - destruct value; try discriminate; eauto.
  - destruct value; unfold_checks; try intros ->; simpl; eauto.
  - destruct value; unfold_checks; try intros ->; simpl; eauto.
  - destruct value; unfold_checks; try intros ->; simpl; eauto.
  - unfold check_data. destruct (py_iter value) as [items | e] eqn:Hiter.
    + intros Hitems. simpl.
      destruct (for_each_databyte_fails items Hitems) as (msg & [-> | ->]);
        simpl; eauto.
    + intros _. simpl. destruct value; try discriminate;
        injection Hiter as <-; eauto.
  - destruct H as (Ht & Hc & Hpo & Hpi & Hd & ->).
    apply String.eqb_neq in Ht, Hc, Hpo, Hpi, Hd.
    rewrite Ht, Hc, Hpo, Hpi, Hd.
    destruct value; unfold_checks; try intros ->; simpl; eauto.
Qed.

Lemma setattr_accepts (self : Message) (name : string) (value : pyval) :
  name ∈ valid_attributes (_spec self) ->
  field_rule name value = true ->
  __setattr__ self name value =
  (_set self name (stored_value name value), None).
Proof.
  intros Hname Hrule. unfold __setattr__.
  rewrite (bool_decide_eq_true_2 _ Hname).
  destruct (check_of_accepts name value Hrule) as (ret & -> & ->).
  reflexivity.
Qed.

Lemma setattr_rejects_value (self : Message) (name : string) (value : pyval) :
  name ∈ valid_attributes (_spec self) ->
  field_rule name value = false ->
  exists message,
    __setattr__ self name value = (self, Some (ValueError message)) \/
    __setattr__ self name value = (self, Some (TypeError message)).
Proof.
  intros Hname Hrule. unfold __setattr__.
  rewrite (bool_decide_eq_true_2 _ Hname).
  destruct (check_of_rejects name value Hrule) as (msg & [-> | ->]); eauto.
Qed.

Lemma setattr_rejects_name (self : Message) (name : string) (value : pyval) :
  name ∉ valid_attributes (_spec self) ->
  exists message,
    __setattr__ self name value = (self, Some (AttributeError message)).
Proof.
  intros Hname. unfold __setattr__.
  rewrite (bool_decide_eq_false_2 _ Hname).
  destruct (in_dict self name); eauto.
Qed.

(** ** Construction *)

Lemma set_spec (self : Message) (name : string) (value : pyval) :
  _spec (_set self name value) = _spec self.
Proof. reflexivity. Qed.

Lemma set_all_spec (entries : kwargs) (self : Message) :
  _spec (set_all entries self) = _spec self
  /\ type (set_all entries self) = type self.
Proof.
  revert self. induction entries as [| entry entries IH]; intros self;
    [split; reflexivity |].
  apply (IH (_set self entry.1 (stored_value entry.1 entry.2))).
Qed.

Lemma land_channel (n : Z) : 0 <= Z.land n 0x0f <= 15.
Proof.
  pose proof (Z.land_ones n 4) as Hland.
  change (Z.ones 4) with 15 in Hland. change (2 ^ 4) with 16 in Hland.
  rewrite Hland by lia. pose proof (Z.mod_pos_bound n 16). lia.
Qed.

Lemma default_value_rule (type_0 : Z + string) (name : string) :
  field_rule name (default_value type_0 name) = true
  /\ stored_value name (default_value type_0 name) = default_value type_0 name.
Proof.
  unfold field_rule, stored_value, default_value.
  destruct (String.eqb_spec name "data") as [-> | Hdata]; [split; reflexivity |].
  destruct (String.eqb_spec name "channel") as [-> | Hchannel].
  - split; [| reflexivity]. destruct type_0 as [n | s]; [| reflexivity].
    simpl. pose proof (land_channel n).
    apply andb_true_iff. rewrite !Z.leb_le. lia.
  - split; [| reflexivity].
    repeat match goal with |- context [if ?b then _ else _] => destruct b end;
      reflexivity.
Qed.

Lemma init_default_setattr (type_0 : Z + string) (self : Message)
    (name : string) :
  init_default type_0 self name = setattr self name (default_value type_0 name).
Proof.
  unfold init_default, default_value.
  destruct (String.eqb_spec name "data") as [-> | _]; [reflexivity |].
  destruct (String.eqb_spec name "channel") as [-> | _]; [| reflexivity].
  destruct type_0; reflexivity.
Qed.

Lemma init_defaults (type_0 : Z + string) (names : list string)
    (self : Message) :
  (forall name, name ∈ names -> name ∈ valid_attributes (_spec self)) ->
  for_fold (init_default type_0) names self =
  Return (set_all ((fun name => (name, default_value type_0 name)) <$> names)
                  self).
Proof.
  revert self. induction names as [| name names IH]; intros self Hnames;
    [reflexivity |].
  simpl. rewrite init_default_setattr. unfold setattr.
  destruct (default_value_rule type_0 name) as [Hrule Hstored].
  rewrite setattr_accepts by (auto using list_elem_of_here).
  simpl. rewrite IH; [reflexivity |].
  intros name' Hin. rewrite set_spec. apply Hnames. now right.
Qed.

Lemma elem_of_valid_attributes (spec : MessageSpec) (name : string) :
  name ∈ valid_attributes spec <-> name ∈ arguments spec \/ name = "time".
Proof. unfold valid_attributes. set_solver. Qed.

(** [__init__] resolves the key, sets the defaults, and then applies the
    keyword arguments to the message that has them. *)
Lemma init_unfold (type_0 : Z + string) (arguments_0 : kwargs) :
  __init__ type_0 arguments_0 =
  match _spec_lookup !! type_0 with
  | None => Raise (ValueError (repr_key type_0
                     ++ " is an invalid type name or status byte"))
  | Some spec => for_fold init_keyword arguments_0 (default_message spec type_0)
  end.
Proof.
  unfold __init__. destruct (_spec_lookup !! type_0) as [spec |];
    [| reflexivity].
  rewrite init_defaults; [reflexivity |].
  intros name Hname. apply elem_of_valid_attributes. now left.
Qed.

Lemma init_keyword_accepts (self : Message) (entry : string * pyval) :
  valid_keyword (_spec self) entry = true ->
  init_keyword self entry =
  Return (_set self entry.1 (stored_value entry.1 entry.2)).
Proof.
  destruct entry as [name value]. unfold valid_keyword. simpl.
  intros [Hname Hrule]%andb_true_iff. apply bool_decide_eq_true_1 in Hname.
  unfold setattr. rewrite setattr_accepts by assumption. reflexivity.
Qed.

Lemma init_keyword_rejects (self : Message) (entry : string * pyval) :
  valid_keyword (_spec self) entry = false ->
  exists message,
    init_keyword self entry = Raise (ValueError message) \/
    init_keyword self entry = Raise (TypeError message).
Proof.
  destruct entry as [name value]. unfold valid_keyword. simpl.
  intros Hentry. unfold setattr.
  destruct (decide (name ∈ valid_attributes (_spec self))) as [Hname | Hname].
  - rewrite (bool_decide_eq_true_2 _ Hname) in Hentry. simpl in Hentry.
    destruct (setattr_rejects_value self name value Hname Hentry)
      as (msg & [-> | ->]); eauto.
  - destruct (setattr_rejects_name self name value Hname) as (msg & ->).
    eauto.
Qed.

(** The keyword arguments are applied in order, and the first one that is
    not valid for the type ends the construction with an exception. *)
Lemma init_keywords (entries : kwargs) (self : Message) :
  if forallb (valid_keyword (_spec self)) entries
  then for_fold init_keyword entries self = Return (set_all entries self)
  else exists message,
         for_fold init_keyword entries self = Raise (ValueError message) \/
         for_fold init_keyword entries self = Raise (TypeError message).
Proof.
  revert self. induction entries as [| entry entries IH]; intros self;
    [reflexivity |].
  simpl. destruct (valid_keyword (_spec self) entry) eqn:Hentry; simpl.
  - rewrite init_keyword_accepts by assumption. simpl.
    specialize (IH (_set self entry.1 (stored_value entry.1 entry.2))).
    rewrite set_spec in IH. exact IH.
  - destruct (init_keyword_rejects self entry Hentry) as (msg & [-> | ->]);
      simpl; eauto.
Qed.

(** ** Valid messages *)

Lemma valid_message_iff (m : Message) :
  valid_message m = true <->
  _spec_lookup !! (inr (type m) : Z + string) = Some (_spec m) /\
  dom (__dict__ m) = valid_attributes (_spec m) /\
  map_Forall (fun name value => stored_ok name value = true) (__dict__ m).
Proof.
  unfold valid_message.
  rewrite !andb_true_iff, !bool_decide_eq_true, forallb_forall.
  split.
  - intros [[Hspec Hdom] Hvalues]. repeat split; [assumption.. |].
    intros name value Hlookup.
    assert (name ∈ valid_attributes (_spec m)) as Hname.
    { rewrite <- Hdom. apply elem_of_dom. eauto. }
    apply elem_of_valid_attributes in Hname.
    specialize (Hvalues name). rewrite Hlookup in Hvalues. apply Hvalues.
    apply in_or_app. destruct Hname as [Hname | ->].
    + left. apply list_elem_of_In, Hname.
    + right. now left.
  - intros (Hspec & Hdom & Hvalues). repeat split; [assumption.. |].
    intros name Hname.
    assert (name ∈ dom (__dict__ m)) as [value Hlookup]%elem_of_dom.
    { rewrite Hdom. apply elem_of_valid_attributes.
      apply in_app_or in Hname as [Hname | [<- | []]]; [left | now right].
      apply list_elem_of_In, Hname. }
    rewrite Hlookup. exact (Hvalues name value Hlookup).
Qed.

Lemma valid_getattr (m : Message) (name : string) :
  valid_message m = true ->
  name ∈ valid_attributes (_spec m) ->
  exists value,
    __dict__ m !! name = Some value /\ getattr m name = Return value
    /\ stored_ok name value = true.
Proof.
  intros (_ & Hdom & Hvalues)%valid_message_iff Hname.
  rewrite <- Hdom in Hname. apply elem_of_dom in Hname as [value Hlookup].
  exists value. unfold getattr. rewrite Hlookup. eauto.
Qed.

Lemma valid_spec (m : Message) :
  valid_message m = true ->
  _spec m ∈ get_message_specs /\ type m = type_ (_spec m).
Proof.
  intros (Hspec & _)%valid_message_iff.
  apply registry_lookup_name in Hspec. exact Hspec.
Qed.

Lemma stored_value_ok (name : string) (value : pyval) :
  field_rule name value = true ->
  stored_ok name (stored_value name value) = true.
Proof.
  unfold stored_ok, stored_value, field_rule.
  destruct (String.eqb_spec name "data") as [-> | Hdata]; simpl.
  - destruct (py_iter value) as [items |]; [| discriminate].
    simpl. intros ->. reflexivity.
  - intros ->. reflexivity.
Qed.

Lemma set_valid (m : Message) (name : string) (value : pyval) :
  valid_message m = true ->
  name ∈ valid_attributes (_spec m) ->
  stored_ok name value = true ->
  valid_message (_set m name value) = true.
Proof.
  intros (Hspec & Hdom & Hvalues)%valid_message_iff Hname Hvalue.
  apply valid_message_iff. unfold _set. cbn [_spec type __dict__].
  repeat split.
  - assumption.
  - rewrite dom_insert_L, Hdom.
    apply subseteq_union_1_L, singleton_subseteq_l, Hname.
  - apply map_Forall_insert_2; assumption.
Qed.

(** A write leaves a valid message valid, whether it raises or not. *)
Lemma setattr_valid (self : Message) (name : string) (value : pyval) :
  valid_message self = true ->
  valid_message (__setattr__ self name value).1 = true.
Proof.
  intros Hvalid.
  destruct (decide (name ∈ valid_attributes (_spec self))) as [Hname | Hname].
  - destruct (field_rule name value) eqn:Hrule.
    + rewrite setattr_accepts by assumption. simpl.
      auto using set_valid, stored_value_ok.
    + destruct (setattr_rejects_value self name value Hname Hrule)
        as (msg & [-> | ->]); assumption.
  - destruct (setattr_rejects_name self name value Hname) as (msg & ->).
    assumption.
Qed.

Lemma set_all_valid (entries : kwargs) (m : Message) :
  valid_message m = true ->
  forallb (valid_keyword (_spec m)) entries = true ->
  valid_message (set_all entries m) = true.
Proof.
  revert m. induction entries as [| [name value] entries IH]; intros m Hm;
    [auto |].
  simpl. intros [[Hname Hrule]%andb_true_iff Hrest]%andb_true_iff.
  apply bool_decide_eq_true_1 in Hname. simpl in *.
  apply IH; [auto using set_valid, stored_value_ok | exact Hrest].
Qed.

Lemma set_all_dict (entries : kwargs) (m : Message) :
  dom (__dict__ (set_all entries m))
  = dom (__dict__ m) ∪ list_to_set entries.*1
  /\ (map_Forall (fun name value => stored_ok name value = true) (__dict__ m) ->
      forallb (fun entry => field_rule entry.1 entry.2) entries = true ->
      map_Forall (fun name value => stored_ok name value = true)
                 (__dict__ (set_all entries m))).
Proof.
  revert m. induction entries as [| [name value] entries IH]; intros m.
  - simpl. split; [by rewrite union_empty_r_L | auto].
  - simpl. destruct (IH (_set m name (stored_value name value)))
      as [Hdom Hvalues]. split.
    + rewrite Hdom. simpl. rewrite dom_insert_L.
      rewrite (comm_L union {[name]}), (assoc_L union). reflexivity.
    + intros Hm [Hrule Hrest]%andb_true_iff. apply Hvalues; [| exact Hrest].
      simpl. apply map_Forall_insert_2; auto using stored_value_ok.
Qed.

Lemma registry_lookup_spec (key : Z + string) (spec : MessageSpec) :
  _spec_lookup !! key = Some spec ->
  _spec_lookup !! (inr (type_ spec) : Z + string) = Some spec.
Proof.
  intros Hlookup. apply registry_lookup_name. split; [| reflexivity].
  destruct key as [n | s].
  - apply registry_lookup_byte in Hlookup. tauto.
  - apply registry_lookup_name in Hlookup. tauto.
Qed.

Lemma default_message_valid (key : Z + string) (spec : MessageSpec) :
  _spec_lookup !! key = Some spec ->
  valid_message (default_message spec key) = true.
Proof.
  intros Hlookup. unfold default_message.
  set (entries := (fun name => (name, default_value key name))
                    <$> arguments spec).
  set (self := mkMessage spec (type_ spec) ∅).
  destruct (set_all_spec entries self) as [Hspec Htype].
  destruct (set_all_dict entries self) as [Hdom Hvalues].
  apply valid_message_iff. unfold _set. cbn [_spec type __dict__].
  rewrite Hspec, Htype. repeat split.
  - exact (registry_lookup_spec key spec Hlookup).
  - rewrite dom_insert_L, Hdom. unfold self. cbn [_spec __dict__].
    rewrite dom_empty_L.
    assert (entries.*1 = arguments spec) as ->.
    { unfold entries. clear. induction (arguments spec) as [| name names IH];
        [reflexivity | csimpl; congruence]. }
    unfold valid_attributes. rewrite union_empty_l_L. apply (comm_L union).
  - apply map_Forall_insert_2; [reflexivity |].
    apply Hvalues; [apply map_Forall_empty |].
    unfold entries. apply forallb_forall. intros entry Hin.
    apply in_map_iff in Hin as (name & <- & _). simpl.
    apply default_value_rule.
Qed.

(** Every message that [__init__] returns is valid. *)
Lemma init_valid (key : Z + string) (entries : kwargs) (m : Message) :
  __init__ key entries = Return m -> valid_message m = true.
Proof.
  rewrite init_unfold.
  destruct (_spec_lookup !! key) as [spec |] eqn:Hlookup; [| discriminate].
  pose proof (default_message_valid key spec Hlookup) as Hdefault.
  pose proof (init_keywords entries (default_message spec key)) as Hinit.
  destruct (forallb _ entries) eqn:Hentries.
  - rewrite Hinit. intros [= <-]. auto using set_all_valid.
  - destruct Hinit as (msg & [-> | ->]); discriminate.
Qed.

(** C6: every write through [__setattr__] is checked against the rule of
    the attribute before anything is stored: a value that the rule accepts is
    stored (data as a tuple), a value that it rejects raises and leaves the
    message as it was, a name outside [valid_attributes] raises an
    [AttributeError] and leaves the message as it was, and [__init__] given
    a keyword argument that is not valid for the type raises instead of
    returning a message. *)
Theorem validated_writes (self : Message) (name : string) (value : pyval) :
  (name ∈ valid_attributes (_spec self) ->
   field_rule name value = true ->
   __setattr__ self name value
   = (_set self name (stored_value name value), None)) /\
  (name ∈ valid_attributes (_spec self) ->
   field_rule name value = false ->
   exists message,
     __setattr__ self name value = (self, Some (ValueError message)) \/
     __setattr__ self name value = (self, Some (TypeError message))) /\
  (name ∉ valid_attributes (_spec self) ->
   exists message,
     __setattr__ self name value = (self, Some (AttributeError message))) /\
  (forall (key : Z + string) (entries : kwargs),
     (name, value) ∈ entries ->
     (forall spec, _spec_lookup !! key = Some spec ->
                   valid_keyword spec (name, value) = false) ->
     exists message,
       __init__ key entries = Raise (ValueError message) \/
       __init__ key entries = Raise (TypeError message)).
Proof.
  split; [apply setattr_accepts |].
  split; [apply setattr_rejects_value |].
  split; [apply setattr_rejects_name |].
  intros key entries Hin Hinvalid. rewrite init_unfold.
  destruct (_spec_lookup !! key) as [spec |] eqn:Hlookup; [| eauto].
  pose proof (init_keywords entries (default_message spec key)) as Hinit.
  destruct (forallb _ entries) eqn:Hentries; [| exact Hinit].
  apply (forallb_elem_of _ _ _ Hentries) in Hin.
  assert (_spec (default_message spec key) = spec) as Hspec.
  { unfold default_message. rewrite set_spec. apply set_all_spec. }
  rewrite Hspec, (Hinvalid spec eq_refl) in Hin. discriminate.
Qed.

(** ** Attributes after construction *)

Lemma kw_lookup_app (name : string) (xs ys : kwargs) :
  kw_lookup name (xs ++ ys)%list =
  match kw_lookup name xs with
  | Some value => Some value
  | None => kw_lookup name ys
  end.
Proof.
  induction xs as [| [n v] xs IH]; [reflexivity |].
  simpl. destruct (String.eqb name n); [reflexivity | exact IH].
Qed.

Lemma kw_lookup_None (name : string) (entries : kwargs) :
  kw_lookup name entries = None <-> name ∉ entries.*1.
Proof.
  induction entries as [| [n v] entries IH]; simpl.
  - split; [intros _; apply not_elem_of_nil | reflexivity].
  - rewrite not_elem_of_cons, <- IH.
    destruct (String.eqb_spec name n) as [-> | Hne]; split;
      try discriminate; tauto.
Qed.

(** After a run of writes, an attribute holds the value of the last write
    to it, or what it held before. *)
Lemma set_all_lookup (entries : kwargs) (m : Message) (name : string) :
  __dict__ (set_all entries m) !! name =
  match kw_lookup name (rev entries) with
  | Some value => Some (stored_value name value)
  | None => __dict__ m !! name
  end.
Proof.
  revert m. induction entries as [| [n v] entries IH]; intros m;
    [reflexivity |].
  change (set_all ((n, v) :: entries) m)
    with (set_all entries (_set m n (stored_value n v))).
  rewrite IH. simpl rev. rewrite kw_lookup_app.
  destruct (kw_lookup name (rev entries)); [reflexivity |].
  simpl. destruct (String.eqb_spec name n) as [-> | Hne].
  - apply lookup_insert_eq.
  - apply lookup_insert_ne. congruence.
Qed.

Lemma kw_lookup_defaults (f : string -> pyval) (names : list string)
    (name : string) :
  kw_lookup name (rev ((fun name => (name, f name)) <$> names)) =
  if bool_decide (name ∈ names) then Some (f name) else None.
Proof.
  induction names as [| n names IH]; [reflexivity |].
  csimpl. rewrite kw_lookup_app, IH. simpl.
  destruct (decide (name ∈ names)) as [Hin | Hin].
  - rewrite (bool_decide_eq_true_2 _ Hin).
    rewrite bool_decide_eq_true_2 by (now right). reflexivity.
  - rewrite (bool_decide_eq_false_2 _ Hin).
    destruct (String.eqb_spec name n) as [-> | Hne].
    + rewrite bool_decide_eq_true_2 by (now left). reflexivity.
    + rewrite bool_decide_eq_false_2; [reflexivity |].
      rewrite not_elem_of_cons. tauto.
Qed.

Lemma default_message_lookup (spec : MessageSpec) (key : Z + string)
    (name : string) :
  __dict__ (default_message spec key) !! name =
  if String.eqb name "time" then Some (VInt 0)
  else if bool_decide (name ∈ arguments spec)
       then Some (default_value key name)
       else None.
Proof.
  unfold default_message, _set. cbn [__dict__].
  destruct (String.eqb_spec name "time") as [-> | Hne].
  - apply lookup_insert_eq.
  - rewrite lookup_insert_ne by congruence.
    rewrite set_all_lookup, kw_lookup_defaults. cbn [__dict__].
    destruct (bool_decide (name ∈ arguments spec)); [| apply lookup_empty].
    f_equal. apply default_value_rule.
Qed.

(** What [__init__] returns, when it returns. *)
Lemma init_Return (key : Z + string) (entries : kwargs) (m : Message) :
  __init__ key entries = Return m <->
  exists spec,
    _spec_lookup !! key = Some spec /\
    forallb (valid_keyword spec) entries = true /\
    m = set_all entries (default_message spec key).
Proof.
  rewrite init_unfold.
  destruct (_spec_lookup !! key) as [spec |] eqn:Hlookup.
  - pose proof (init_keywords entries (default_message spec key)) as Hinit.
    assert (_spec (default_message spec key) = spec) as Hspec.
    { unfold default_message. rewrite set_spec. apply set_all_spec. }
    rewrite Hspec in Hinit.
    destruct (forallb (valid_keyword spec) entries) eqn:Hentries.
    + rewrite Hinit. split.
      * intros [= <-]. eauto.
      * intros (spec' & [= <-] & _ & ->). reflexivity.
    + split.
      * destruct Hinit as (msg & [-> | ->]); discriminate.
      * intros (spec' & [= <-] & Hvalid & _). congruence.
  - split; [discriminate |]. intros (spec & Hspec & _). discriminate.
Qed.

Lemma channel_spec (spec : MessageSpec) :
  spec ∈ get_message_specs ->
  (status_byte spec <? 0xf0) = true ->
  Z.land (status_byte spec) 0x0f = 0 /\ 0x80 <= status_byte spec
  /\ "channel" ∈ arguments spec.
Proof.
  intros Hin Hchannel.
  set (P := fun spec =>
       implb (status_byte spec <? 0xf0)
             (bool_decide (Z.land (status_byte spec) 0x0f = 0
                           /\ 0x80 <= status_byte spec
                           /\ "channel" ∈ arguments spec))).
  assert (forallb P get_message_specs = true) as HP by by_computation.
  pose proof (forallb_elem_of P _ _ HP Hin) as Hp. subst P.
  cbv beta in Hp. rewrite Hchannel in Hp.
  exact (bool_decide_eq_true_1 _ Hp).
Qed.

Lemma lor_channel (status channel : Z) :
  Z.land status 0x0f = 0 -> 0 <= channel <= 15 ->
  Z.land (Z.lor status channel) 0x0f = channel.
Proof.
  intros Hstatus Hchannel. rewrite Z.land_lor_distr_l, Hstatus. simpl Z.lor.
  pose proof (Z.land_ones channel 4) as Hland.
  change (Z.ones 4) with 15 in Hland. change (2 ^ 4) with 16 in Hland.
  rewrite Hland by lia. apply Z.mod_small. lia.
Qed.

Lemma lor_land_status (status k : Z) :
  Z.land status 0x0f = 0 ->
  (exists channel, 0 <= channel <= 15 /\ k = Z.lor status channel) ->
  Z.land k 0xf0 = Z.land status 0xf0 /\ Z.lor status (Z.land k 0x0f) = k.
Proof.
  intros Hstatus (c & Hc & ->). split.
  - rewrite Z.land_lor_distr_l.
    assert (Z.land c 0xf0 = 0) as ->; [| apply Z.lor_0_r].
    assert (Hcases : c = 0 \/ c = 1 \/ c = 2 \/ c = 3 \/ c = 4 \/ c = 5
            \/ c = 6 \/ c = 7 \/ c = 8 \/ c = 9 \/ c = 10 \/ c = 11
            \/ c = 12 \/ c = 13 \/ c = 14 \/ c = 15) by lia.
    repeat (destruct Hcases as [-> | Hcases]; [reflexivity |]).
    subst c. reflexivity.
  - rewrite lor_channel by assumption. reflexivity.
Qed.

(** A status byte of a channel message resolves to a channel type. *)
Lemma channel_key_spec (k : Z) :
  0x80 <= k <= 0xef ->
  exists spec,
    _spec_lookup !! (inl k : Z + string) = Some spec /\
    (status_byte spec <? 0xf0) = true /\
    Z.land (status_byte spec) 0x0f = 0 /\
    "channel" ∈ arguments spec /\
    Z.lor (status_byte spec) (Z.land k 0x0f) = k.
Proof.
  intros Hk.
  assert (is_Some (_spec_lookup !! (inl k : Z + string))) as [spec Hlookup].
  { apply registry_known. unfold known_key.
    apply andb_true_iff. rewrite !Z.leb_le. lia. }
  exists spec. split; [assumption |].
  apply registry_lookup_byte in Hlookup as [Hin Hbyte].
  destruct (status_byte spec <? 0xf0) eqn:Hchannel.
  - destruct (channel_spec spec Hin Hchannel) as (Hland & _ & Hargs).
    repeat split; [assumption.. |].
    apply lor_land_status; assumption.
  - apply Z.ltb_ge in Hchannel. lia.
Qed.

Lemma kw_lookup_rev_None (name : string) (entries : kwargs) :
  name ∉ entries.*1 -> kw_lookup name (rev entries) = None.
Proof.
  intros Hnone. apply kw_lookup_None. intros Hin. apply Hnone.
  apply list_elem_of_fmap in Hin as (entry & -> & Hin).
  apply list_elem_of_fmap. exists entry. split; [reflexivity |].
  apply list_elem_of_In, in_rev, list_elem_of_In, Hin.
Qed.

Lemma channel_spec_high (spec : MessageSpec) :
  spec ∈ get_message_specs ->
  (status_byte spec <? 0xf0) = true ->
  Z.land (status_byte spec) 0xf0 = status_byte spec.
Proof.
  intros Hin Hchannel.
  set (P := fun spec =>
       implb (status_byte spec <? 0xf0)
             (Z.land (status_byte spec) 0xf0 =? status_byte spec)).
  assert (forallb P get_message_specs = true) as HP by by_computation.
  pose proof (forallb_elem_of P _ _ HP Hin) as Hp. subst P.
  cbv beta in Hp. rewrite Hchannel in Hp. apply Z.eqb_eq, Hp.
Qed.

(** C8: a message built from a status byte [k] of a channel message, with
    no [channel] among the keyword arguments, has channel [k & 0x0F] and
    status byte [k]; with no keyword arguments the construction succeeds;
    and a [channel] keyword argument replaces the default. *)
Theorem init_channel_of_status_byte (k : Z) :
  0x80 <= k <= 0xef ->
  (exists m, __init__ (inl k) [] = Return m) /\
  (forall (entries : kwargs) (m : Message),
     __init__ (inl k) entries = Return m ->
     "channel" ∉ entries.*1 ->
     getattr m "channel" = Return (VInt (Z.land k 0x0f)) /\
     _get_status_byte m = Return (VInt k)) /\
  (forall channel : Z,
     0 <= channel <= 15 ->
     exists m,
       __init__ (inl k) [("channel", VInt channel)] = Return m /\
       getattr m "channel" = Return (VInt channel) /\
       _get_status_byte m = Return (VInt (Z.lor (Z.land k 0xf0) channel))).
Proof.
  intros Hk.
  destruct (channel_key_spec k Hk)
    as (spec & Hlookup & Hchannel & Hland & Hargs & Hlor).
  assert (forall entries m,
            m = set_all entries (default_message spec (inl k)) ->
            _spec m = spec) as Hspec.
  { intros entries m ->.
    transitivity (_spec (default_message spec (inl k)));
      [apply set_all_spec |].
    unfold default_message. rewrite set_spec. apply set_all_spec. }
  split; [| split].
  - exists (default_message spec (inl k)).
    apply init_Return. exists spec. auto.
  - intros entries m (spec' & Hlookup' & _ & Hm)%init_Return Hnone.
    assert (spec' = spec) as -> by congruence.
    assert (__dict__ m !! "channel" = Some (VInt (Z.land k 0x0f))) as Hdict.
    { rewrite Hm, set_all_lookup.
      assert (kw_lookup "channel" (rev entries) = None) as ->.
      { apply kw_lookup_rev_None, Hnone. }
      rewrite default_message_lookup. simpl.
      rewrite bool_decide_eq_true_2 by assumption. reflexivity. }
    unfold _get_status_byte, getattr.
    rewrite (Hspec entries m Hm), Hchannel, Hdict. simpl.
    rewrite Hlor. auto.
  - intros channel Hrange.
    set (entries := [("channel", VInt channel)] : kwargs).
    exists (set_all entries (default_message spec (inl k))).
    assert (__dict__ (set_all entries (default_message spec (inl k)))
              !! "channel" = Some (VInt channel)) as Hdict.
    { rewrite set_all_lookup. reflexivity. }
    split; [| split].
    + apply init_Return. exists spec. repeat split; [assumption |].
      unfold entries, valid_keyword. simpl.
      rewrite bool_decide_eq_true_2
        by (apply elem_of_valid_attributes; now left).
      unfold field_rule, int_between. simpl.
      rewrite andb_true_r. apply andb_true_iff. rewrite !Z.leb_le. lia.
    + unfold getattr. rewrite Hdict. reflexivity.
    + unfold _get_status_byte, getattr.
      rewrite (Hspec entries _ eq_refl), Hchannel, Hdict. simpl.
      do 3 f_equal.
      destruct (lor_land_status (status_byte spec) k Hland) as [-> _].
      * exists (Z.land k 0x0f). split; [apply land_channel | auto].
      * symmetry. apply channel_spec_high; [| assumption].
        apply registry_lookup_byte in Hlookup. tauto.
Qed.

(** ** Wire encoding *)

Lemma globals_encode (name : string) :
  globals ("encode_" ++ name) =
  if String.eqb name "channel" then Some encode_channel
  else if String.eqb name "data" then Some encode_data
  else if String.eqb name "pitch" then Some encode_pitch
  else if String.eqb name "pos" then Some encode_pos
  else None.
Proof.
  unfold globals. simpl. change (String.append "" name) with name.
  reflexivity.
Qed.

Lemma stored_ok_int (name : string) (value : pyval) :
  stored_ok name value = true -> name <> "data" -> name <> "time" ->
  exists n, value = VInt n.
Proof.
  unfold stored_ok, field_rule, int_between.
  intros Hok Hdata%String.eqb_neq Htime%String.eqb_neq.
  rewrite Hdata, Htime in Hok.
  repeat match type of Hok with
         | context [if ?b then _ else _] => destruct b
         end;
    destruct value; try discriminate; eauto.
Qed.

Lemma stored_ok_data (value : pyval) :
  stored_ok "data" value = true ->
  exists items,
    value = VTuple items /\ forallb (int_between 0 127) items = true.
Proof.
  unfold stored_ok, field_rule. simpl.
  destruct value; simpl; try discriminate; try (now rewrite andb_false_r).
  rewrite andb_true_r. eauto.
Qed.

(** One round of the loop of [bytes] appends the bytes that the
    specification gives for the attribute. *)
Lemma bytes_round (name : string) (value : pyval) (message_bytes : list pyval) :
  stored_ok name value = true -> name <> "time" ->
  match globals ("encode_" ++ name) with
  | Some encode =>
      encoded ← encode value;
      items ← py_iter encoded;
      Return (message_bytes ++ items)%list
  | None => Return (message_bytes ++ [value])%list
  end = Return (message_bytes ++ field_bytes name value)%list.
Proof.
  intros Hok Htime. rewrite globals_encode. unfold field_bytes.
  destruct (String.eqb_spec name "channel") as [-> | Hchannel];
    [reflexivity |].
  destruct (String.eqb_spec name "data") as [-> | Hdata].
  { apply stored_ok_data in Hok as (items & -> & _). reflexivity. }
  destruct (stored_ok_int name value Hok Hdata Htime) as [n ->].
  destruct (String.eqb_spec name "pitch") as [-> | Hpitch]; [reflexivity |].
  destruct (String.eqb_spec name "pos") as [-> | Hpos]; reflexivity.
Qed.

Lemma bytes_rounds (m : Message) (names : list string)
    (message_bytes : list pyval) :
  valid_message m = true ->
  (forall name, name ∈ names -> name ∈ arguments (_spec m)) ->
  "time" ∉ names ->
  for_fold (fun (message_bytes : list pyval) name =>
    value ← getattr m name;
    match globals ("encode_" ++ name) with
    | Some encode =>
        encoded ← encode value;
        items ← py_iter encoded;
        Return (message_bytes ++ items)%list
    | None => Return (message_bytes ++ [value])%list
    end) names message_bytes
  = Return (message_bytes
            ++ flat_map (fun name => field_bytes name (attribute m name))
                        names)%list.
Proof.
  intros Hvalid. revert message_bytes.
  induction names as [| name names IH]; intros message_bytes Hnames Htime.
  - simpl. rewrite app_nil_r. reflexivity.
  - apply not_elem_of_cons in Htime as [Hne Htime].
    destruct (valid_getattr m name Hvalid) as (value & Hdict & Hget & Hok).
    { apply elem_of_valid_attributes. left. apply Hnames. now left. }
    cbn [for_fold]. rewrite Hget. change (Return value ≫= ?k) with (k value).
    cbv beta. rewrite bytes_round by auto.
    change (Return ?x ≫= ?k) with (k x). cbv beta.
    rewrite IH; [| intros; apply Hnames; now right | assumption].
    cbn [flat_map].
    assert (attribute m name = value) as ->
      by (unfold attribute; rewrite Hdict; reflexivity).
    rewrite <- app_assoc. reflexivity.
Qed.

Lemma time_not_argument (spec : MessageSpec) :
  spec ∈ get_message_specs -> "time" ∉ arguments spec.
Proof.
  intros Hin.
  set (P := fun spec => bool_decide ("time" ∉ arguments spec)).
  assert (forallb P get_message_specs = true) as HP by by_computation.
  exact (bool_decide_eq_true_1 _ (forallb_elem_of P _ _ HP Hin)).
Qed.

Lemma valid_status_byte (m : Message) :
  valid_message m = true ->
  _get_status_byte m = Return (VInt (wire_status m)).
Proof.
  intros Hvalid. unfold _get_status_byte, wire_status.
  destruct (status_byte (_spec m) <? 0xf0) eqn:Hchannel; [| reflexivity].
  destruct (valid_spec m Hvalid) as [Hin _].
  destruct (channel_spec _ Hin Hchannel) as (_ & _ & Hargs).
  destruct (valid_getattr m "channel" Hvalid)
    as (value & Hdict & -> & Hok).
  { apply elem_of_valid_attributes. now left. }
  destruct (stored_ok_int "channel" value Hok) as [c ->]; [discriminate.. |].
  unfold attribute. rewrite Hdict. reflexivity.
Qed.

(** The encoder returns, for every valid message, the encoding that the
    specification describes. *)
Lemma bytes_valid (m : Message) :
  valid_message m = true -> bytes m = Return (wire_bytes m).
Proof.
  intros Hvalid. unfold bytes. rewrite valid_status_byte by assumption.
  change (Return ?x ≫= ?k) with (k x). cbv beta.
  rewrite bytes_rounds; [reflexivity | assumption | auto |].
  apply time_not_argument, valid_spec, Hvalid.
Qed.

Lemma valid_attribute (m : Message) (name : string) :
  valid_message m = true ->
  name ∈ arguments (_spec m) ->
  getattr m name = Return (attribute m name)
  /\ stored_ok name (attribute m name) = true.
Proof.
  intros Hvalid Hname.
  destruct (valid_getattr m name Hvalid) as (value & Hdict & Hget & Hok).
  { apply elem_of_valid_attributes. now left. }
  unfold attribute. rewrite Hdict. auto.
Qed.

Lemma valid_spec_of_type (m : Message) (spec : MessageSpec) :
  valid_message m = true ->
  _spec_lookup !! (inr (type m) : Z + string) = Some spec ->
  _spec m = spec.
Proof.
  intros (Hspec & _)%valid_message_iff Hlookup. congruence.
Qed.

Lemma pitchwheel_spec :
  _spec_lookup !! (inr "pitchwheel" : Z + string)
  = Some (mkMessageSpec 0xe0 "pitchwheel" ["channel"; "pitch"] (Bytes 3)).
Proof. by_computation. Qed.

(** C7: a pitchwheel message with pitch [p] is encoded as its status byte
    followed by the low seven bits and then the high seven bits of
    [p + 8192]; this holds of every valid pitchwheel message, and of the
    message constructed with a channel and the pitch. *)
Theorem pitchwheel_bytes (pitch : Z) :
  -8192 <= pitch <= 8191 ->
  (forall m : Message,
     valid_message m = true ->
     type m = "pitchwheel" ->
     getattr m "pitch" = Return (VInt pitch) ->
     exists status,
       _get_status_byte m = Return (VInt status) /\
       bytes m = Return [VInt status;
                         VInt (Z.land (pitch + 8192) 0x7f);
                         VInt (Z.shiftr (pitch + 8192) 7)]) /\
  (forall channel : Z,
     0 <= channel <= 15 ->
     exists m,
       __init__ (inr "pitchwheel")
                [("channel", VInt channel); ("pitch", VInt pitch)]
       = Return m /\
       bytes m = Return [VInt (Z.lor 0xe0 channel);
                         VInt (Z.land (pitch + 8192) 0x7f);
                         VInt (Z.shiftr (pitch + 8192) 7)]).
Proof.
  intros Hpitch.
  assert (forall m : Message,
            valid_message m = true ->
            type m = "pitchwheel" ->
            getattr m "pitch" = Return (VInt pitch) ->
            bytes m = Return [VInt (wire_status m);
                              VInt (Z.land (pitch + 8192) 0x7f);
                              VInt (Z.shiftr (pitch + 8192) 7)]) as Hbytes.
  { intros m Hvalid Htype Hget.
    pose proof pitchwheel_spec as Hspec. rewrite <- Htype in Hspec.
    apply (valid_spec_of_type m _ Hvalid) in Hspec.
    rewrite bytes_valid by assumption. unfold wire_bytes.
    rewrite Hspec. cbn [arguments flat_map].
    destruct (valid_attribute m "pitch" Hvalid) as [Hattr _].
    { rewrite Hspec. cbn [arguments]. apply list_elem_of_In. simpl. tauto. }
    rewrite Hattr in Hget. injection Hget as ->. reflexivity. }
  split.
  - intros m Hvalid Htype Hget. exists (wire_status m).
    auto using valid_status_byte.
  - intros channel Hchannel.
    set (entries := [("channel", VInt channel); ("pitch", VInt pitch)]).
    set (spec := mkMessageSpec 0xe0 "pitchwheel" ["channel"; "pitch"]
                               (Bytes 3)).
    set (m := set_all entries (default_message spec (inr "pitchwheel"))).
    assert (__init__ (inr "pitchwheel") entries = Return m) as Hinit.
    { apply init_Return. exists spec.
      split; [exact pitchwheel_spec |]. split; [| reflexivity].
      unfold entries, valid_keyword, field_rule, int_between. simpl.
      rewrite !andb_true_r.
      rewrite !bool_decide_eq_true_2 by (apply (bool_decide_eq_true_1 _);
                                         by_computation).
      rewrite !andb_true_iff, !Z.leb_le. lia. }
    exists m. split; [exact Hinit |].
    assert (__dict__ m !! "pitch" = Some (VInt pitch)) as Hp
      by (unfold m; rewrite set_all_lookup; reflexivity).
    assert (__dict__ m !! "channel" = Some (VInt channel)) as Hc
      by (unfold m; rewrite set_all_lookup; reflexivity).
    rewrite (Hbytes m).
    + unfold wire_status, attribute. rewrite Hc. reflexivity.
    + exact (init_valid _ _ _ Hinit).
    + reflexivity.
    + unfold getattr. rewrite Hp. reflexivity.
Qed.

(** ** Copies *)

Lemma for_fold_ext {A S : Type} (f g : S -> A -> result S) (xs : list A)
    (s : S) :
  (forall s x, x ∈ xs -> f s x = g s x) ->
  for_fold f xs s = for_fold g xs s.
Proof.
  revert s. induction xs as [| x xs IH]; intros s Hext; [reflexivity |].
  simpl. rewrite Hext by (now left).
  destruct (g s x) as [s' | e]; [| reflexivity].
  simpl. apply IH. intros s0 y Hy. apply Hext. now right.
Qed.

Lemma kw_lookup_filter (P : string -> Prop) `{!forall name, Decision (P name)}
    (name : string) (entries : kwargs) :
  P name ->
  kw_lookup name (filter (fun entry => P entry.1) entries)
  = kw_lookup name entries.
Proof.
  intros Hname. unfold kwargs in *.
  induction entries as [| [n v] entries IH]; [reflexivity |].
  rewrite filter_cons. simpl. destruct (decide (P n)) as [Hn | Hn]; simpl.
  - rewrite IH. reflexivity.
  - rewrite IH. destruct (String.eqb_spec name n) as [-> | _];
      [contradiction | reflexivity].
Qed.

Lemma kw_set_fresh (name : string) (value : pyval) (entries : kwargs) :
  name ∉ entries.*1 ->
  kw_set name value entries = (entries ++ [(name, value)])%list.
Proof.
  induction entries as [| [n v] entries IH]; [reflexivity |].
  csimpl. intros [Hne Hrest]%not_elem_of_cons.
  apply String.eqb_neq in Hne. rewrite Hne, IH by assumption. reflexivity.
Qed.

Lemma stored_ok_rule (name : string) (value : pyval) :
  stored_ok name value = true ->
  field_rule name value = true /\ stored_value name value = value.
Proof.
  unfold stored_ok, stored_value.
  intros [Hrule Hshape]%andb_true_iff. split; [assumption |].
  destruct (String.eqb name "data"); [| reflexivity].
  destruct value; try discriminate. reflexivity.
Qed.

(** The keyword arguments that [copy] passes on when no override is
    recognized: the attributes of the message and its time. *)
Lemma copy_arguments (m : Message) (overrides : kwargs) (names : list string)
    (arguments_0 : kwargs) :
  valid_message m = true ->
  (forall name, name ∈ names ->
     name ∈ valid_attributes (_spec m) /\ kw_lookup name overrides = None) ->
  NoDup (arguments_0.*1 ++ names) ->
  for_fold (fun arguments_0 name =>
    match kw_lookup name overrides with
    | Some value => Return (kw_set name value arguments_0)
    | None => value ← getattr m name; Return (kw_set name value arguments_0)
    end) names arguments_0
  = Return (arguments_0
            ++ ((fun name => (name, attribute m name)) <$> names))%list.
Proof.
  intros Hvalid. revert arguments_0.
  induction names as [| name names IH]; intros arguments_0 Hnames Hdup.
  - simpl. rewrite app_nil_r. reflexivity.
  - destruct (Hnames name) as [Hname Hnone]; [now left |].
    destruct (valid_getattr m name Hvalid Hname)
      as (value & Hdict & Hget & Hok).
    assert (attribute m name = value) as Hattr
      by (unfold attribute; rewrite Hdict; reflexivity).
    cbn [for_fold]. rewrite Hnone, Hget.
    change (Return value ≫= ?k) with (k value). cbv beta.
    change (Return ?x ≫= ?k) with (k x). cbv beta.
    rewrite kw_set_fresh.
    + rewrite IH.
      * csimpl. rewrite Hattr, <- app_assoc. reflexivity.
      * intros name' Hin. apply Hnames. now right.
      * rewrite fmap_app, <- app_assoc. exact Hdup.
    + apply NoDup_app in Hdup as (_ & Hdisjoint & _).
      intros Hin. apply (Hdisjoint name Hin). now left.
Qed.

Lemma spec_names_NoDup (spec : MessageSpec) :
  spec ∈ get_message_specs -> NoDup (arguments spec ++ ["time"]).
Proof.
  intros Hin.
  set (P := fun spec => bool_decide (NoDup (arguments spec ++ ["time"]))).
  assert (forallb P get_message_specs = true) as HP by by_computation.
  exact (bool_decide_eq_true_1 _ (forallb_elem_of P _ _ HP Hin)).
Qed.

Lemma elem_of_spec_names (spec : MessageSpec) (name : string) :
  name ∈ (arguments spec ++ ["time"])%list <-> name ∈ valid_attributes spec.
Proof.
  rewrite elem_of_valid_attributes, elem_of_app, list_elem_of_singleton.
  reflexivity.
Qed.

(** A copy without recognized overrides is the message itself. *)
Lemma copy_valid (m : Message) (overrides : kwargs) :
  valid_message m = true ->
  (forall entry, entry ∈ overrides -> entry.1 ∉ valid_attributes (_spec m)) ->
  copy m overrides = Return m.
Proof.
  intros Hvalid Hunknown. unfold copy.
  destruct (valid_spec m Hvalid) as [Hin Htype].
  pose proof (proj1 (valid_message_iff m) Hvalid) as (Hspec & Hdom & Hvalues).
  set (names := (arguments (_spec m) ++ ["time"])%list).
  rewrite (copy_arguments m overrides names [] Hvalid).
  - change (Return ?x ≫= ?k) with (k x). cbv beta.
    rewrite app_nil_l.
    set (entries := (fun name => (name, attribute m name)) <$> names).
    apply init_Return. exists (_spec m). split; [exact Hspec |]. split.
    + apply forallb_forall. intros entry Hentry.
      apply in_map_iff in Hentry as (name & <- & Hname).
      apply list_elem_of_In, elem_of_spec_names in Hname.
      unfold valid_keyword. cbn [fst snd].
      rewrite (bool_decide_eq_true_2 _ Hname).
      destruct (valid_getattr m name Hvalid Hname)
        as (value & Hdict & _ & Hok).
      unfold attribute. rewrite Hdict. simpl.
      apply stored_ok_rule, Hok.
    + destruct m as [spec ty dict]. cbn [_spec type __dict__] in *.
      subst ty.
      assert (forall name,
                __dict__ (set_all entries
                            (default_message spec (inr (type_ spec))))
                  !! name = dict !! name) as Hlookup.
      { intros name. rewrite set_all_lookup.
        unfold entries. rewrite kw_lookup_defaults.
        destruct (decide (name ∈ names)) as [Hname | Hname].
        - rewrite (bool_decide_eq_true_2 _ Hname).
          apply elem_of_spec_names in Hname.
          destruct (valid_getattr _ name Hvalid Hname)
            as (value & Hdict & _ & Hok).
          cbn [__dict__] in Hdict. unfold attribute. cbn [__dict__].
          rewrite Hdict. simpl. f_equal. apply stored_ok_rule, Hok.
        - rewrite (bool_decide_eq_false_2 _ Hname).
          rewrite default_message_lookup.
          assert (name ∉ valid_attributes spec) as Hout
            by (rewrite <- elem_of_spec_names; exact Hname).
          rewrite elem_of_valid_attributes in Hout.
          destruct (String.eqb_spec name "time") as [-> | _]; [tauto |].
          rewrite bool_decide_eq_false_2 by tauto.
          symmetry. apply not_elem_of_dom. rewrite Hdom.
          rewrite elem_of_valid_attributes. exact Hout. }
      destruct (set_all_spec entries
                  (default_message spec (inr (type_ spec))))
        as [Hs Ht].
      destruct (set_all entries (default_message spec (inr (type_ spec))))
        as [spec' ty' dict'].
      cbn [_spec type __dict__] in *.
      unfold default_message in Hs, Ht. rewrite set_spec in Hs.
      destruct (set_all_spec
                  ((fun name => (name, default_value (inr (type_ spec)) name))
                     <$> arguments spec)
                  (mkMessage spec (type_ spec) ∅)) as [Hs' Ht'].
      unfold _set in Ht. cbn [_spec type] in *.
      rewrite Hs' in Hs. rewrite Ht' in Ht. subst spec' ty'.
      f_equal. apply map_eq. intros name. symmetry. apply Hlookup.
  - intros name Hname. apply elem_of_spec_names in Hname.
    split; [assumption |].
    apply kw_lookup_None. intros Hkey.
    apply list_elem_of_fmap in Hkey as (entry & -> & Hentry).
    exact (Hunknown entry Hentry Hname).
  - simpl. apply spec_names_NoDup, Hin.
Qed.

Lemma init_rejects (key : Z + string) (spec : MessageSpec) (entries : kwargs)
    (entry : string * pyval) :
  _spec_lookup !! key = Some spec ->
  entry ∈ entries ->
  valid_keyword spec entry = false ->
  exists message,
    __init__ key entries = Raise (ValueError message) \/
    __init__ key entries = Raise (TypeError message).
Proof.
  intros Hlookup Hin Hinvalid.
  rewrite init_unfold, Hlookup.
  pose proof (init_keywords entries (default_message spec key)) as Hinit.
  assert (_spec (default_message spec key) = spec) as Hspec.
  { unfold default_message. rewrite set_spec. apply set_all_spec. }
  rewrite Hspec in Hinit.
  destruct (forallb _ entries) eqn:Hentries; [| exact Hinit].
  apply (forallb_elem_of _ _ _ Hentries) in Hin. congruence.
Qed.

(** ** Text parsing *)

Lemma setattr_Return (self self' : Message) (name : string) (value : pyval) :
  setattr self name value = Return self' <->
  name ∈ valid_attributes (_spec self) /\
  field_rule name value = true /\
  self' = _set self name (stored_value name value).
Proof.
  unfold setattr.
  destruct (decide (name ∈ valid_attributes (_spec self))) as [Hname | Hname].
  - destruct (field_rule name value) eqn:Hrule.
    + rewrite setattr_accepts by assumption. split.
      * intros [= <-]. auto.
      * intros (_ & _ & ->). reflexivity.
    + destruct (setattr_rejects_value self name value Hname Hrule)
        as (msg & [-> | ->]); (split; [discriminate |]);
        intros (_ & [=] & _).
  - destruct (setattr_rejects_name self name value Hname) as (msg & ->).
    split; [discriminate | tauto].
Qed.

(** An argument that [text_parse] accepts is one write to the attribute it
    names. *)
Lemma text_parse_argument_Return (message message' : Message)
    (names_seen names_seen' : gset string) (argument : string) :
  text_parse_argument (message, names_seen) argument
  = Return (message', names_seen') ->
  exists value,
    setattr message (argument_name argument) value = Return message' /\
    (argument_name argument ∉ names_seen) /\
    names_seen' = names_seen ∪ {[argument_name argument]}.
Proof.
  unfold text_parse_argument, argument_name.
  destruct (Str.split_on "=" argument) as [| name [| value [| ? ?]]];
    try discriminate.
  cbn [hd]. case_bool_decide as Hseen; [discriminate |].
  destruct (String.eqb_spec name "data") as [-> | Hdata].
  - destruct (andb (negb _) _); [discriminate |].
    destruct (mapM _ _) as [data_bytes |]; [| discriminate].
    destruct (setattr message "data" _) as [m |] eqn:Hset; [| discriminate].
    intros [= <- <-]. eauto.
  - destruct (Str.int_of_text value) as [n |]; [| discriminate].
    destruct (setattr message name (py_int n)) as [m | []] eqn:Hset;
      try discriminate.
    intros [= <- <-]. eauto.
Qed.

Lemma text_parse_arguments_time (arguments_0 : list string)
    (message message' : Message) (names_seen names_seen' : gset string) :
  for_fold text_parse_argument arguments_0 (message, names_seen)
  = Return (message', names_seen') ->
  forallb (fun argument => negb (String.eqb (argument_name argument) "time"))
          arguments_0 = true ->
  __dict__ message' !! "time" = __dict__ message !! "time".
Proof.
  revert message names_seen.
  induction arguments_0 as [| argument arguments_0 IH];
    intros message names_seen.
  - intros [= <- <-] _. reflexivity.
  - cbn [for_fold forallb].
    destruct (text_parse_argument (message, names_seen) argument)
      as [[m seen] |] eqn:Hstep; [| discriminate].
    change (Return ?x ≫= ?k) with (k x). cbv beta.
    intros Hrest [Hname Hnames]%andb_true_iff.
    rewrite (IH _ _ Hrest Hnames).
    apply text_parse_argument_Return in Hstep as (value & Hset & _).
    apply setattr_Return in Hset as (_ & _ & ->).
    apply negb_true_iff, String.eqb_neq in Hname.
    unfold _set. cbn [__dict__]. apply lookup_insert_ne. exact Hname.
Qed.

(** [int(text)] is an [int] up to [sys.maxint] and a [long] past it. *)
Lemma py_int_cases (n : Z) :
  (py_int n = VInt n /\ - maxint - 1 <= n <= maxint) \/
  (py_int n = VLong n /\ (n < - maxint - 1 \/ maxint < n)).
Proof.
  unfold py_int.
  destruct (Z.leb_spec (- maxint - 1) n); [destruct (Z.leb_spec n maxint) |];
    cbn [andb]; [left | right | right]; (split; [reflexivity | lia]).
Qed.

Lemma py_int_small (n : Z) :
  - 2 ^ 31 <= n <= 2 ^ 31 - 1 -> py_int n = VInt n.
Proof.
  intros Hn. pose proof maxint_min.
  destruct (py_int_cases n) as [[-> _] | [_ Hlong]]; [reflexivity | lia].
Qed.

(** No check accepts a [long]. *)
Lemma field_rule_long (name : string) (n : Z) :
  field_rule name (VLong n) = false.
Proof.
  unfold field_rule.
  repeat match goal with
         | |- context [String.eqb ?a ?b] => destruct (String.eqb a b)
         end; reflexivity.
Qed.

Lemma field_rule_py_int (name : string) (n : Z) :
  field_rule name (py_int n) = true -> py_int n = VInt n.
Proof.
  destruct (py_int_cases n) as [[-> _] | [-> _]]; [reflexivity |].
  rewrite field_rule_long. discriminate.
Qed.

Lemma text_parse_number_time (text : string) (time : pyval) :
  text_parse_number text = Some time ->
  field_rule "time" time = true \/
  exists n, time = VLong n /\ (n < - maxint - 1 \/ maxint < n).
Proof.
  unfold text_parse_number.
  destruct (Str.int_of_text text) as [n |].
  - intros [= <-].
    destruct (py_int_cases n) as [[-> _] | [-> Hlong]]; [now left | eauto].
  - destruct (float_of_text text); [intros [= <-]; now left | discriminate].
Qed.

Lemma text_parse_arguments_fresh (arguments_0 : list string)
    (message message' : Message) (names_seen names_seen' : gset string) :
  for_fold text_parse_argument arguments_0 (message, names_seen)
  = Return (message', names_seen') ->
  forall argument, argument ∈ arguments_0 ->
                   argument_name argument ∉ names_seen.
Proof.
  revert message names_seen.
  induction arguments_0 as [| argument arguments_0 IH];
    intros message names_seen Hloop other Hother.
  - apply elem_of_nil in Hother. destruct Hother.
  - cbn [for_fold] in Hloop.
    destruct (text_parse_argument (message, names_seen) argument)
      as [[m seen] |] eqn:Hstep; [| discriminate].
    change (Return ?x ≫= ?k) with (k x) in Hloop. cbv beta in Hloop.
    apply text_parse_argument_Return in Hstep as (value & _ & Hfresh & ->).
    apply elem_of_cons in Hother as [-> | Hother]; [assumption |].
    intros Hseen. apply (IH _ _ Hloop other Hother).
    apply elem_of_union. now left.
Qed.

(** An argument [time=<integer>] of a line that [text_parse] accepts is a
    write of that integer to the time, and the last one. *)
Lemma text_parse_arguments_time_written (arguments_0 : list string)
    (message message' : Message) (names_seen names_seen' : gset string) :
  for_fold text_parse_argument arguments_0 (message, names_seen)
  = Return (message', names_seen') ->
  forall argument,
    argument ∈ arguments_0 -> argument_name argument = "time" ->
    exists value n,
      Str.split_on "=" argument = ["time"; value] /\
      Str.int_of_text value = Some n /\
      - maxint - 1 <= n <= maxint /\
      __dict__ message' !! "time" = Some (VInt n).
Proof.
  revert message names_seen.
  induction arguments_0 as [| argument arguments_0 IH];
    intros message names_seen Hloop other Hother Hname.
  - apply elem_of_nil in Hother. destruct Hother.
  - cbn [for_fold] in Hloop.
    destruct (text_parse_argument (message, names_seen) argument)
      as [[m seen] |] eqn:Hstep; [| discriminate].
    change (Return ?x ≫= ?k) with (k x) in Hloop. cbv beta in Hloop.
    apply elem_of_cons in Hother as [<- | Hother]; [| eauto].
    pose proof (text_parse_arguments_fresh _ _ _ _ _ Hloop) as Hfresh.
    assert (forallb (fun argument =>
                       negb (String.eqb (argument_name argument) "time"))
                    arguments_0 = true) as Hrest.
    { apply forallb_forall. intros later Hlater%list_elem_of_In.
      apply negb_true_iff, String.eqb_neq. intros Hlater_name.
      apply (Hfresh later Hlater).
      apply text_parse_argument_Return in Hstep as (_ & _ & _ & ->).
      rewrite Hlater_name, Hname. apply elem_of_union. right.
      now apply elem_of_singleton. }
    rewrite (text_parse_arguments_time _ _ _ _ _ Hloop Hrest).
    revert Hstep Hname. unfold text_parse_argument, argument_name.
    destruct (Str.split_on "=" other) as [| name [| value [| ? ?]]];
      try discriminate.
    cbn [hd]. intros Hstep ->.
    case_bool_decide as Hseen; [discriminate |].
    change (String.eqb "time" "data") with false in Hstep. cbv iota in Hstep.
    destruct (Str.int_of_text value) as [n |] eqn:Hvalue; [| discriminate].
    destruct (setattr message "time" (py_int n)) as [m1 | e] eqn:Hset;
      [| destruct e; discriminate].
    injection Hstep as <- _.
    apply setattr_Return in Hset as (_ & Hrule & ->).
    destruct (py_int_cases n) as [[Hint Hrange] | [Hlong _]];
      [| rewrite Hlong, field_rule_long in Hrule; discriminate].
    exists value, n. rewrite Hint.
    split; [reflexivity |]. split; [assumption |]. split; [assumption |].
    unfold _set. cbn [__dict__]. apply lookup_insert_eq.
Qed.

(** C9 (amended): when the first word of the line is a number and
    [text_parse] returns a message, the time of the message is that number
    if it is nonzero, and the default time 0 if it is zero, provided that no
    later argument is named [time]; for any argument [time=<integer>] of
    the line the time of the message is that integer, whatever the first
    word is; and the first word is not an integer past [sys.maxint], a
    [long], which the check of the time refuses. *)
Theorem leading_time_applied (line first word : string)
    (arguments_0 : list string) (time : pyval) (message : Message) :
  Str.split line = first :: word :: arguments_0 ->
  text_parse_number first = Some time ->
  text_parse line = Return message ->
  (forallb (fun argument => negb (String.eqb (argument_name argument) "time"))
           arguments_0 = true ->
   getattr message "time" = Return (if py_bool time then time else VInt 0)) /\
  (forall argument,
     argument ∈ arguments_0 -> argument_name argument = "time" ->
     exists value n,
       Str.split_on "=" argument = ["time"; value] /\
       Str.int_of_text value = Some n /\
       getattr message "time" = Return (VInt n)) /\
  (forall n, time <> VLong n).
Proof.
  intros Hsplit Hnumber. unfold text_parse.
  rewrite Hsplit, Hnumber. change (Return ?x ≫= ?k) with (k x). cbv beta iota.
  destruct (__init__ (inr word) []) as [m0 |] eqn:Hinit; [| discriminate].
  change (Return ?x ≫= ?k) with (k x). cbv beta.
  apply init_Return in Hinit as (spec & Hlookup & _ & ->).
  change (set_all [] ?m) with m.
  set (m0 := default_message spec (inr word)).
  assert (__dict__ m0 !! "time" = Some (VInt 0)) as Hdefault
    by (unfold m0; rewrite default_message_lookup; reflexivity).
  destruct (if py_bool time then setattr m0 "time" time else Return m0)
    as [m1 |] eqn:Hwrite; [| discriminate].
  assert (__dict__ m1 !! "time"
          = Some (if py_bool time then time else VInt 0)) as Htime.
  { destruct (py_bool time).
    - apply setattr_Return in Hwrite as (_ & _ & ->).
      unfold _set. cbn [__dict__]. apply lookup_insert_eq.
    - injection Hwrite as <-. exact Hdefault. }
  change (Return ?x ≫= ?k) with (k x). cbv beta.
  destruct (for_fold text_parse_argument arguments_0 (m1, ∅))
    as [[m seen] |] eqn:Hloop; [| discriminate].
  intros [= <-]. cbn [fst]. unfold getattr. split; [| split].
  - intros Hnames.
    rewrite (text_parse_arguments_time _ _ _ _ _ Hloop Hnames), Htime.
    reflexivity.
  - intros argument Hargument Hname.
    destruct (text_parse_arguments_time_written _ _ _ _ _ Hloop
                argument Hargument Hname)
      as (value & n & Hparts & Hvalue & _ & ->).
    eauto.
  - intros n ->.
    destruct (text_parse_number_time _ _ Hnumber)
      as [Hrule | (n' & [= <-] & Hlong)]; [discriminate |].
    pose proof maxint_min.
    assert (py_bool (VLong n) = true) as Htrue
      by (cbn [py_bool]; apply negb_true_iff, Z.eqb_neq; lia).
    rewrite Htrue in Hwrite.
    apply setattr_Return in Hwrite as (_ & Hrule & _).
    rewrite field_rule_long in Hrule. discriminate.
Qed.

(** ** More on the wire encoding *)

Lemma land_127 (v : Z) : 0 <= Z.land v 0x7f <= 127 /\ Z.land v 0x7f = v mod 128.
Proof.
  pose proof (Z.land_ones v 7) as Hland.
  change (Z.ones 7) with 127 in Hland. change (2 ^ 7) with 128 in Hland.
  rewrite Hland by lia. pose proof (Z.mod_pos_bound v 128). lia.
Qed.

Lemma shiftr_7 (v : Z) : Z.shiftr v 7 = v / 128.
Proof. rewrite Z.shiftr_div_pow2 by lia. reflexivity. Qed.

Lemma fourteen_bits (v : Z) :
  0 <= v <= 16383 ->
  0 <= Z.land v 0x7f <= 127 /\ 0 <= Z.shiftr v 7 <= 127 /\
  Z.land v 0x7f + 128 * Z.shiftr v 7 = v.
Proof.
  intros Hv. destruct (land_127 v) as [Hlow ->]. rewrite shiftr_7.
  pose proof (Z.div_mod v 128). pose proof (Z.mod_pos_bound v 128).
  split; [lia |].
  assert (0 <= v / 128 <= 127).
  { split; [apply Z.div_pos; lia |].
    apply Z.lt_succ_r, Z.div_lt_upper_bound; lia. }
  lia.
Qed.

(** X4: the two bytes of a pitch in -8192..8191 are seven-bit values, the
    low one first, and they give the pitch back: low + 128 * high - 8192;
    likewise, without the offset, for a song position in 0..16383. *)
Theorem fourteen_bit_round_trip (value : Z) :
  (-8192 <= value <= 8191 ->
   exists low high,
     encode_pitch (VInt value) = Return (VList [VInt low; VInt high]) /\
     0 <= low <= 127 /\ 0 <= high <= 127 /\
     low + 128 * high - 8192 = value) /\
  (0 <= value <= 16383 ->
   exists low high,
     encode_pos (VInt value) = Return (VList [VInt low; VInt high]) /\
     0 <= low <= 127 /\ 0 <= high <= 127 /\
     low + 128 * high = value).
Proof.
  split; intros Hvalue.
  - destruct (fourteen_bits (value + 8192)) as (Hlow & Hhigh & Hsum);
      [lia |].
    exists (Z.land (value + 8192) 0x7f), (Z.shiftr (value + 8192) 7).
    unfold encode_pitch, MIN_PITCHWHEEL.
    replace (value - -8192) with (value + 8192) by lia.
    repeat split; lia.
  - destruct (fourteen_bits value Hvalue) as (Hlow & Hhigh & Hsum).
    exists (Z.land value 0x7f), (Z.shiftr value 7).
    unfold encode_pos. repeat split; lia.
Qed.

(** The bytes that a stored attribute adds to the encoding are integers:
    seven-bit values, and the terminator 0xF7 after the data. *)
Lemma field_bytes_ints (name : string) (value : pyval) :
  stored_ok name value = true -> name <> "time" ->
  exists data_bytes,
    field_bytes name value = VInt <$> data_bytes /\
    Forall (fun byte => 0 <= byte <= 127 \/ byte = 0xf7) data_bytes.
Proof.
  intros Hok Htime. unfold field_bytes.
  destruct (String.eqb_spec name "channel") as [-> | Hchannel].
  { exists []. split; [reflexivity | constructor]. }
  destruct (String.eqb_spec name "data") as [-> | Hdata].
  { apply stored_ok_data in Hok as (items & -> & Hitems).
    assert (exists data_bytes,
              items = VInt <$> data_bytes /\
              Forall (fun byte => 0 <= byte <= 127 \/ byte = 0xf7)
                     data_bytes) as (data_bytes & -> & Hbytes).
    { induction items as [| item items IH].
      - exists []. split; [reflexivity | constructor].
      - simpl in Hitems. apply andb_true_iff in Hitems as [Hitem Hitems].
        destruct (IH Hitems) as (data_bytes & -> & Hbytes).
        destruct item as [n | | | | | |]; try discriminate.
        simpl in Hitem. apply andb_true_iff in Hitem as [Hlo Hhi].
        exists (n :: data_bytes). split; [reflexivity |].
        constructor; [| assumption]. left. lia. }
    exists (data_bytes ++ [0xf7])%list. rewrite fmap_app. split; [reflexivity |].
    apply Forall_app. split; [assumption |].
    constructor; [now right | constructor]. }
  pose proof Hok as Hrule. unfold stored_ok, field_rule in Hrule.
  apply String.eqb_neq in Hchannel as Hc, Hdata as Hd, Htime as Ht.
  rewrite Hc, Hd, Ht, andb_true_r in Hrule.
  destruct (stored_ok_int name value Hok Hdata Htime) as [n ->].
  unfold int_between in Hrule.
  destruct (String.eqb_spec name "pitch") as [-> | Hpitch].
  { simpl in Hrule. apply andb_true_iff in Hrule as [Hlo Hhi].
    destruct (fourteen_bits (n + 8192)) as (Hlow & Hhigh & _); [lia |].
    exists [Z.land (n + 8192) 0x7f; Z.shiftr (n + 8192) 7].
    split; [reflexivity |]. repeat constructor; lia. }
  destruct (String.eqb_spec name "pos") as [-> | Hpos].
  { simpl in Hrule. apply andb_true_iff in Hrule as [Hlo Hhi].
    destruct (fourteen_bits n) as (Hlow & Hhigh & _); [lia |].
    exists [Z.land n 0x7f; Z.shiftr n 7].
    split; [reflexivity |]. repeat constructor; lia. }
  apply andb_true_iff in Hrule as [Hlo Hhi].
  exists [n]. split; [reflexivity |]. repeat constructor; lia.
Qed.

Lemma spec_status_range (spec : MessageSpec) :
  spec ∈ get_message_specs -> 0x80 <= status_byte spec <= 0xff.
Proof.
  intros Hin.
  set (P := fun spec => (0x80 <=? status_byte spec)
                        && (status_byte spec <=? 0xff)).
  assert (forallb P get_message_specs = true) as HP by by_computation.
  pose proof (forallb_elem_of P _ _ HP Hin) as Hp. subst P. cbv beta in Hp.
  apply andb_true_iff in Hp as [Hlo Hhi]. lia.
Qed.

Lemma lor_disjoint (status channel : Z) :
  Z.land status 0x0f = 0 -> 0 <= channel <= 15 ->
  Z.lor status channel = status + channel.
Proof.
  intros Hstatus Hchannel.
  assert (Z.land status channel = 0) as Hland.
  { replace channel with (Z.land 0x0f channel).
    - rewrite Z.land_assoc, Hstatus. reflexivity.
    - rewrite Z.land_comm.
      pose proof (Z.land_ones channel 4) as Hones.
      change (Z.ones 4) with 15 in Hones. change (2 ^ 4) with 16 in Hones.
      rewrite Hones by lia. apply Z.mod_small. lia. }
  rewrite <- Z.lxor_lor by assumption.
  symmetry. apply Z.add_nocarry_lxor. assumption.
Qed.

(** The status byte of a valid message is in 0x80..0xFF, and its low four
    bits are the channel of a channel message. *)
Lemma valid_status_range (m : Message) :
  valid_message m = true ->
  0x80 <= wire_status m <= 0xff /\
  ((status_byte (_spec m) <? 0xf0) = true ->
   exists channel,
     attribute m "channel" = VInt channel /\ 0 <= channel <= 15 /\
     wire_status m = status_byte (_spec m) + channel).
Proof.
  intros Hvalid. destruct (valid_spec m Hvalid) as [Hin _].
  pose proof (spec_status_range _ Hin) as Hrange.
  unfold wire_status.
  destruct (status_byte (_spec m) <? 0xf0) eqn:Hchannel.
  - destruct (channel_spec _ Hin Hchannel) as (Hland & _ & Hargs).
    destruct (valid_attribute m "channel" Hvalid Hargs) as [_ Hok].
    destruct (stored_ok_int "channel" _ Hok) as [c Hc]; [discriminate.. |].
    rewrite Hc in Hok |- *. unfold stored_ok, field_rule, int_between in Hok.
    simpl in Hok. rewrite andb_true_r in Hok.
    apply andb_true_iff in Hok as [Hlo Hhi].
    apply Z.ltb_lt in Hchannel.
    rewrite lor_disjoint by (assumption || lia).
    split; [lia |]. intros _. exists c. repeat split; lia.
  - split; [lia | discriminate].
Qed.

Lemma wire_bytes_ints (m : Message) (names : list string) :
  valid_message m = true ->
  (forall name, name ∈ names -> name ∈ arguments (_spec m)) ->
  exists data_bytes,
    flat_map (fun name => field_bytes name (attribute m name)) names
    = VInt <$> data_bytes /\
    Forall (fun byte => 0 <= byte <= 127 \/ byte = 0xf7) data_bytes.
Proof.
  intros Hvalid. destruct (valid_spec m Hvalid) as [Hin _].
  induction names as [| name names IH]; intros Hnames.
  - exists []. split; [reflexivity | constructor].
  - destruct IH as (rest & Hrest & Hbytes);
      [intros; apply Hnames; now right |].
    assert (name ∈ arguments (_spec m)) as Hname by (apply Hnames; now left).
    destruct (valid_attribute m name Hvalid Hname) as [_ Hok].
    destruct (field_bytes_ints name _ Hok) as (first & Hfirst & Hfirst_ok).
    { intros ->. exact (time_not_argument _ Hin Hname). }
    exists (first ++ rest)%list. cbn [flat_map].
    rewrite Hfirst, Hrest, fmap_app. split; [reflexivity |].
    apply Forall_app. auto.
Qed.

Lemma py_bytearray_ints (data_bytes : list Z) :
  Forall (fun byte => 0 <= byte <= 255) data_bytes ->
  py_bytearray (VInt <$> data_bytes) = Return data_bytes.
Proof.
  unfold py_bytearray. intros Hbytes.
  assert (forall array : list Z,
            for_fold (fun (array : list Z) (item : pyval) =>
              match item with
              | VInt n | VLong n =>
                  if (0 <=? n) && (n <? 256) then Return (array ++ [n])%list
                  else Raise (ValueError "byte must be in range(0, 256)")
              | _ => Raise (TypeError "an integer is required")
              end) (VInt <$> data_bytes) array
            = Return (array ++ data_bytes)%list) as Hfold.
  { induction Hbytes as [| byte data_bytes Hbyte Hrest IH]; intros array.
    - simpl. rewrite app_nil_r. reflexivity.
    - csimpl.
      assert ((0 <=? byte) && (byte <? 256) = true) as ->
        by (apply andb_true_iff; rewrite Z.leb_le, Z.ltb_lt; lia).
      change (Return ?x ≫= ?k) with (k x). cbv beta.
      rewrite IH, <- app_assoc. reflexivity. }
  apply (Hfold []).
Qed.

Lemma valid_bytes_ints (m : Message) :
  valid_message m = true ->
  exists status data_bytes,
    bytes m = Return (VInt <$> status :: data_bytes) /\
    bytearray m = Return (status :: data_bytes) /\
    0x80 <= status <= 0xff /\
    Forall (fun byte => 0 <= byte <= 127 \/ byte = 0xf7) data_bytes.
Proof.
  intros Hvalid.
  destruct (wire_bytes_ints m (arguments (_spec m)) Hvalid)
    as (data_bytes & Hdata & Hbytes); [auto |].
  destruct (valid_status_range m Hvalid) as [Hstatus _].
  exists (wire_status m), data_bytes.
  assert (bytes m = Return (VInt <$> wire_status m :: data_bytes)) as Heq.
  { rewrite bytes_valid by assumption. unfold wire_bytes.
    rewrite Hdata. reflexivity. }
  repeat split; try assumption; try lia.
  unfold bytearray. rewrite Heq.
  change (Return ?x ≫= ?k) with (k x). cbv beta.
  apply py_bytearray_ints. constructor; [lia |].
  eapply Forall_impl; [exact Hbytes |]. simpl. lia.
Qed.

(** X3: the encoding of a valid message is a status byte in 0x80..0xFF
    followed by seven-bit data bytes, apart from the terminator 0xF7 of a
    sysex message; so [bytearray], which needs integers in range(256),
    returns these bytes. *)
Theorem bytearray_valid (m : Message) :
  valid_message m = true ->
  exists status data_bytes,
    bytes m = Return (VInt <$> status :: data_bytes) /\
    bytearray m = Return (status :: data_bytes) /\
    0x80 <= status <= 0xff /\
    Forall (fun byte => 0 <= byte <= 127 \/ byte = 0xf7) data_bytes.
Proof. exact (valid_bytes_ints m). Qed.

Lemma format_02X_byte (byte : Z) :
  0 <= byte <= 255 -> String.length (Str.format_02X byte) = 2%nat.
Proof.
  intros Hbyte.
  assert (byte ∈ range 256) as Hin by (apply elem_of_range; lia).
  set (P := fun byte => Nat.eqb (String.length (Str.format_02X byte)) 2).
  assert (forallb P (range 256) = true) as HP by by_computation.
  apply Nat.eqb_eq. exact (forallb_elem_of P _ _ HP Hin).
Qed.

Lemma hex_numbers (data_bytes : list Z) (numbers : list string) :
  for_fold (fun (numbers : list string) byte =>
    number ← format_02X byte; Return (numbers ++ [number])%list)
    (VInt <$> data_bytes) numbers
  = Return (numbers ++ (Str.format_02X <$> data_bytes))%list.
Proof.
  revert numbers. induction data_bytes as [| byte data_bytes IH];
    intros numbers.
  - simpl. rewrite app_nil_r. reflexivity.
  - csimpl. change (Return ?x ≫= ?k) with (k x). cbv beta.
    rewrite IH, <- app_assoc. reflexivity.
Qed.

(** X5: [hex] of a valid message is the bytes of its encoding, each as
    two upper-case hexadecimal digits, joined by the separator. *)
Theorem hex_valid (m : Message) (sep : string) :
  valid_message m = true ->
  exists message_bytes,
    bytearray m = Return message_bytes /\
    hex m sep = Return (Str.join sep (Str.format_02X <$> message_bytes)) /\
    Forall (fun byte => String.length (Str.format_02X byte) = 2%nat)
           message_bytes.
Proof.
  intros Hvalid.
  destruct (valid_bytes_ints m Hvalid)
    as (status & data_bytes & Hbytes & Harray & Hstatus & Hrange).
  exists (status :: data_bytes). split; [assumption |]. split.
  - unfold hex. rewrite Hbytes.
    change (Return ?x ≫= ?k) with (k x). cbv beta.
    rewrite hex_numbers. reflexivity.
  - constructor; [apply format_02X_byte; lia |].
    eapply Forall_impl; [exact Hrange |]. simpl.
    intros byte Hbyte. apply format_02X_byte. lia.
Qed.

(** X1: for every valid message the encoder returns the encoding that the
    specification describes: the status byte, with the channel of a channel
    message in its low four bits, and then the bytes of each attribute in the
    order of the message specification. *)
Theorem bytes_wire_encoding (m : Message) :
  valid_message m = true ->
  _get_status_byte m = Return (VInt (wire_status m)) /\
  bytes m = Return (wire_bytes m).
Proof. auto using valid_status_byte, bytes_valid. Qed.

(** X2: the encoding of a valid message has the length that its
    specification declares, with these exceptions: [program_change] and
    [aftertouch] are encoded in two bytes, and a sysex message in the
    number of its data bytes plus two. *)
Theorem encoded_length (m : Message) :
  valid_message m = true ->
  exists message_bytes,
    bytes m = Return message_bytes /\
    length message_bytes =
    match size_ (_spec m) with
    | Inf =>
        match attribute m "data" with
        | VTuple items => (length items + 2)%nat
        | _ => 0%nat
        end
    | Bytes n =>
        if bool_decide (type m ∈ ["program_change"; "aftertouch"])
        then 2%nat else n
    end.
Proof.
  intros Hvalid. exists (wire_bytes m).
  split; [apply bytes_valid, Hvalid |].
  destruct (valid_spec m Hvalid) as [Hin Htype].
  assert (forall name, name ∈ arguments (_spec m) ->
            stored_ok name (attribute m name) = true) as Hok
    by (intros name Hname; apply (valid_attribute m name Hvalid Hname)).
  unfold wire_bytes. rewrite Htype.
  unfold get_message_specs in Hin.
  repeat (apply elem_of_cons in Hin as [Hspec | Hin]);
    [.. | apply elem_of_nil in Hin; destruct Hin];
    rewrite Hspec in Hok |- *; cbn [arguments size_ type_ flat_map];
    try reflexivity.
  - destruct (stored_ok_int "pitch" _ (Hok "pitch" ltac:(set_solver)))
      as [pitch ->]; [discriminate.. |]. reflexivity.
  - destruct (stored_ok_data _ (Hok "data" ltac:(set_solver)))
      as (items & -> & _).
    rewrite app_nil_r. change (field_bytes "data" (VTuple items))
      with (items ++ [VInt 0xf7])%list.
    cbn [length]. rewrite length_app. simpl. lia.
  - destruct (stored_ok_int "pos" _ (Hok "pos" ltac:(set_solver)))
      as [pos ->]; [discriminate.. |]. reflexivity.
Qed.

(** ** More on construction and writes *)

Lemma default_message_spec (spec : MessageSpec) (key : Z + string) :
  _spec (default_message spec key) = spec
  /\ type (default_message spec key) = type_ spec.
Proof.
  unfold default_message, _set. cbn [_spec type].
  apply (set_all_spec _ (mkMessage spec (type_ spec) ∅)).
Qed.

(** X6: [__init__] returns a message exactly when the key resolves to a
    specification and every keyword argument names an attribute of it (or
    [time]) and gives a value that the rule of the attribute accepts; the
    message is then valid, bound to that specification, and each attribute
    holds the value of the keyword argument for it, or else its default: the
    empty tuple for [data], the low four bits of an integer key for
    [channel], and 0 for the rest. *)
Theorem init_attributes (key : Z + string) (entries : kwargs) (m : Message) :
  __init__ key entries = Return m <->
  _spec_lookup !! key = Some (_spec m) /\
  type m = type_ (_spec m) /\
  valid_message m = true /\
  forallb (valid_keyword (_spec m)) entries = true /\
  dom (__dict__ m) = valid_attributes (_spec m) /\
  (forall name,
     name ∈ valid_attributes (_spec m) ->
     __dict__ m !! name =
     Some match kw_lookup name (rev entries) with
          | Some value => stored_value name value
          | None => if String.eqb name "time" then VInt 0
                    else default_value key name
          end).
Proof.
  split.
  - intros Hinit. pose proof (init_valid _ _ _ Hinit) as Hvalid.
    apply init_Return in Hinit as (spec & Hlookup & Hentries & ->).
    destruct (set_all_spec entries (default_message spec key)) as [Hs Ht].
    destruct (default_message_spec spec key) as [Hs' Ht'].
    rewrite Hs, Ht, Hs', Ht'.
    repeat split; try assumption.
    + apply valid_message_iff in Hvalid as (_ & Hdom & _).
      rewrite Hdom, Hs, Hs'. reflexivity.
    + intros name Hname. rewrite set_all_lookup.
      destruct (kw_lookup name (rev entries)); [reflexivity |].
      rewrite default_message_lookup.
      destruct (String.eqb_spec name "time") as [-> | Hne]; [reflexivity |].
      apply elem_of_valid_attributes in Hname as [Hname | ->]; [| tauto].
      rewrite bool_decide_eq_true_2 by assumption. reflexivity.
  - intros (Hlookup & Htype & Hvalid & Hentries & Hdom & Hvalues).
    apply init_Return. exists (_spec m). repeat split; try assumption.
    destruct (set_all_spec entries (default_message (_spec m) key))
      as [Hs Ht].
    destruct (default_message_spec (_spec m) key) as [Hs' Ht'].
    assert (valid_message (set_all entries (default_message (_spec m) key))
            = true) as Hvalid'.
    { apply set_all_valid.
      - eauto using default_message_valid.
      - rewrite Hs'. exact Hentries. }
    apply valid_message_iff in Hvalid' as (_ & Hdom' & _).
    rewrite Hs, Hs' in Hdom'.
    destruct m as [spec ty dict]. cbn [_spec type __dict__] in *.
    destruct (set_all entries (default_message spec key))
      as [spec' ty' dict'] eqn:Hm'.
    cbn [_spec type __dict__] in *.
    rewrite Hs' in Hs. rewrite Ht' in Ht. subst spec' ty' ty.
    f_equal. apply map_eq. intros name.
    destruct (decide (name ∈ valid_attributes spec)) as [Hname | Hname].
    + rewrite (Hvalues name Hname).
      assert (dict' = __dict__ (set_all entries (default_message spec key)))
        as -> by (rewrite Hm'; reflexivity).
      rewrite set_all_lookup.
      destruct (kw_lookup name (rev entries)); [reflexivity |].
      rewrite default_message_lookup.
      destruct (String.eqb_spec name "time") as [-> | Hne]; [reflexivity |].
      apply elem_of_valid_attributes in Hname as [Hname | ->]; [| tauto].
      rewrite bool_decide_eq_true_2 by assumption. reflexivity.
    + rewrite <- Hdom in Hname. apply not_elem_of_dom in Hname.
      rewrite Hname. symmetry. apply not_elem_of_dom.
      rewrite Hdom', <- Hdom. apply not_elem_of_dom, Hname.
Qed.

Lemma setattr_cases (self : Message) (name : string) (value : pyval) :
  (__setattr__ self name value
   = (_set self name (stored_value name value), None)
   /\ name ∈ valid_attributes (_spec self)
   /\ field_rule name value = true) \/
  (exists e, __setattr__ self name value = (self, Some e)).
Proof.
  destruct (decide (name ∈ valid_attributes (_spec self))) as [Hname | Hname].
  - destruct (field_rule name value) eqn:Hrule.
    + left. auto using setattr_accepts.
    + right. destruct (setattr_rejects_value self name value Hname Hrule)
        as (msg & [-> | ->]); eauto.
  - right. destruct (setattr_rejects_name self name value Hname)
      as (msg & ->). eauto.
Qed.

(** X7: a write through [__setattr__] never changes the specification or
    the type of the message, changes no attribute other than the one named,
    keeps a valid message valid, and leaves the message as it was whenever it
    raises. *)
Theorem setattr_frame (self : Message) (name : string) (value : pyval) :
  valid_message self = true ->
  let after := (__setattr__ self name value).1 in
  _spec after = _spec self /\
  type after = type self /\
  valid_message after = true /\
  (forall other, other <> name ->
                 __dict__ after !! other = __dict__ self !! other) /\
  ((__setattr__ self name value).2 <> None -> after = self).
Proof.
  intros Hvalid after. subst after.
  pose proof (setattr_valid self name value Hvalid) as Hafter.
  destruct (setattr_cases self name value) as [(Heq & _) | [e Heq]];
    rewrite Heq in Hafter |- *; cbn [fst snd].
  - repeat split; try assumption.
    + intros other Hother. unfold _set. cbn [__dict__].
      apply lookup_insert_ne. congruence.
    + intros Hnone. congruence.
  - repeat split; assumption || reflexivity.
Qed.

(** ** More on copies and equality *)

(** The keyword arguments that [copy] passes to the constructor: for each
    attribute and for [time], the override when there is one and the value
    of the message otherwise. *)
Lemma copy_arguments_overridden (m : Message) (overrides : kwargs)
    (names : list string) (arguments_0 : kwargs) :
  valid_message m = true ->
  (forall name, name ∈ names -> name ∈ valid_attributes (_spec m)) ->
  NoDup (arguments_0.*1 ++ names) ->
  for_fold (fun arguments_0 name =>
    match kw_lookup name overrides with
    | Some value => Return (kw_set name value arguments_0)
    | None => value ← getattr m name; Return (kw_set name value arguments_0)
    end) names arguments_0
  = Return (arguments_0
            ++ ((fun name =>
                   (name, default (attribute m name)
                                  (kw_lookup name overrides))) <$> names))%list.
Proof.
  intros Hvalid. revert arguments_0.
  induction names as [| name names IH]; intros arguments_0 Hnames Hdup.
  - simpl. rewrite app_nil_r. reflexivity.
  - assert (name ∈ valid_attributes (_spec m)) as Hname
      by (apply Hnames; now left).
    destruct (valid_getattr m name Hvalid Hname)
      as (value & Hdict & Hget & Hok).
    assert (attribute m name = value) as Hattr
      by (unfold attribute; rewrite Hdict; reflexivity).
    assert (name ∉ arguments_0.*1) as Hfresh.
    { apply NoDup_app in Hdup as (_ & Hdisjoint & _).
      intros Hin. apply (Hdisjoint name Hin). now left. }
    assert (NoDup ((arguments_0
                    ++ [(name, default (attribute m name)
                                       (kw_lookup name overrides))])%list.*1
                   ++ names)) as Hdup'
      by (rewrite fmap_app, <- app_assoc; exact Hdup).
    cbn [for_fold]. csimpl.
    destruct (kw_lookup name overrides) as [override |].
    + change (Return ?x ≫= ?k) with (k x). cbv beta.
      rewrite kw_set_fresh by assumption.
      rewrite IH; [| intros; apply Hnames; now right | exact Hdup'].
      rewrite <- app_assoc. reflexivity.
    + rewrite Hget. change (Return ?x ≫= ?k) with (k x). cbv beta.
      change (Return ?x ≫= ?k) with (k x). cbv beta.
      rewrite kw_set_fresh by assumption. rewrite Hattr in *.
      rewrite IH; [| intros; apply Hnames; now right | exact Hdup'].
      rewrite <- app_assoc. reflexivity.
Qed.

(** X8: a copy of a valid message, when [copy] returns one, is a valid
    message of the same specification and type in which each attribute, and
    the time, holds the override given for it, stored as a write would store
    it, or else the value it has in the message. *)
Theorem copy_attributes (m m' : Message) (overrides : kwargs) :
  valid_message m = true ->
  copy m overrides = Return m' ->
  valid_message m' = true /\
  _spec m' = _spec m /\ type m' = type m /\
  (forall name,
     name ∈ valid_attributes (_spec m) ->
     __dict__ m' !! name =
     match kw_lookup name overrides with
     | Some value => Some (stored_value name value)
     | None => __dict__ m !! name
     end).
Proof.
  intros Hvalid. unfold copy.
  destruct (valid_spec m Hvalid) as [Hin Htype].
  pose proof (proj1 (valid_message_iff m) Hvalid) as (Hspec & Hdom & Hvalues).
  set (names := (arguments (_spec m) ++ ["time"])%list).
  rewrite (copy_arguments_overridden m overrides names [] Hvalid).
  - change (Return ?x ≫= ?k) with (k x). cbv beta. rewrite app_nil_l.
    intros Hinit. pose proof (init_valid _ _ _ Hinit) as Hvalid'.
    apply init_Return in Hinit as (spec & Hlookup & Hentries & ->).
    assert (spec = _spec m) as -> by congruence.
    set (entries := (fun name => (name, default (attribute m name)
                                                (kw_lookup name overrides)))
                      <$> names) in *.
    destruct (set_all_spec entries
                (default_message (_spec m) (inr (type m)))) as [Hs Ht].
    destruct (default_message_spec (_spec m) (inr (type m))) as [Hs' Ht'].
    repeat split; try assumption; try congruence.
    intros name Hname. rewrite set_all_lookup. unfold entries.
    rewrite (kw_lookup_defaults
               (fun name => default (attribute m name)
                                    (kw_lookup name overrides))).
    rewrite bool_decide_eq_true_2 by (apply elem_of_spec_names, Hname).
    destruct (kw_lookup name overrides) as [override |]; [reflexivity |].
    destruct (valid_getattr m name Hvalid Hname)
      as (value & Hdict & _ & Hok).
    unfold attribute. rewrite Hdict. simpl. f_equal.
    apply stored_ok_rule, Hok.
  - intros name Hname. apply elem_of_spec_names, Hname.
  - simpl. apply spec_names_NoDup, Hin.
Qed.

(** What [copy] passes to the constructor: for each attribute and for the
    time, the override given for it, or else the value it has in the
    message. *)
Lemma copy_unfold (m : Message) (overrides : kwargs) :
  valid_message m = true ->
  copy m overrides
  = __init__ (inr (type m))
      ((fun name => (name, default (attribute m name)
                                   (kw_lookup name overrides)))
         <$> (arguments (_spec m) ++ ["time"])%list).
Proof.
  intros Hvalid. unfold copy. destruct (valid_spec m Hvalid) as [Hin _].
  rewrite (copy_arguments_overridden m overrides _ [] Hvalid).
  - reflexivity.
  - intros name Hname. apply elem_of_spec_names, Hname.
  - simpl. apply spec_names_NoDup, Hin.
Qed.

(** C10: [copy] looks only at the overrides named after an attribute of
    the message or [time]: any other override, one of the type included, is
    dropped without an error, so that a copy with no recognized override is
    the message itself, while the constructor given the same keyword
    arguments raises.  The copy is built from the recognized overrides: when
    each of them carries a value that its check accepts, [copy] returns a
    valid message of the same type in which every attribute holds the
    override given for it, or else the value it has in the message, whatever
    the other overrides are; and when one of them carries a value that its
    check refuses, [copy] raises the error of the check. *)
Theorem copy_ignores_unknown_overrides (m : Message) (overrides : kwargs) :
  copy m overrides
  = copy m (filter (fun entry => entry.1 ∈ valid_attributes (_spec m))
                   overrides) /\
  (valid_message m = true ->
   (forall entry, entry ∈ overrides ->
                  entry.1 ∉ valid_attributes (_spec m)) ->
   copy m overrides = Return m) /\
  (valid_message m = true ->
   forall entry,
     entry ∈ overrides ->
     entry.1 ∉ valid_attributes (_spec m) ->
     exists message,
       __init__ (inr (type m)) overrides = Raise (ValueError message) \/
       __init__ (inr (type m)) overrides = Raise (TypeError message)) /\
  (valid_message m = true ->
   (forall name value,
      name ∈ valid_attributes (_spec m) ->
      kw_lookup name overrides = Some value ->
      field_rule name value = true) ->
   exists m',
     copy m overrides = Return m' /\
     valid_message m' = true /\
     type m' = type m /\
     forall name,
       name ∈ valid_attributes (_spec m) ->
       getattr m' name
       = Return match kw_lookup name overrides with
                | Some value => stored_value name value
                | None => attribute m name
                end) /\
  (valid_message m = true ->
   forall name value,
     name ∈ valid_attributes (_spec m) ->
     kw_lookup name overrides = Some value ->
     field_rule name value = false ->
     exists message,
       copy m overrides = Raise (ValueError message) \/
       copy m overrides = Raise (TypeError message)).
Proof.
  split; [| split; [| split; [| split]]].
  - unfold copy, kwargs in *. f_equal. apply for_fold_ext.
    intros arguments_0 name Hname.
    apply elem_of_spec_names in Hname.
    assert (kw_lookup name
              (filter (fun entry => entry.1 ∈ valid_attributes (_spec m))
                      overrides)
            = kw_lookup name overrides) as ->; [| reflexivity].
    exact (kw_lookup_filter (fun name => name ∈ valid_attributes (_spec m))
             name overrides Hname).
  - apply copy_valid.
  - intros Hvalid entry Hin Hunknown.
    apply valid_message_iff in Hvalid as (Hspec & _).
    apply (init_rejects _ _ _ entry Hspec Hin).
    unfold valid_keyword. rewrite (bool_decide_eq_false_2 _ Hunknown).
    reflexivity.
  - intros Hvalid Haccepted. rewrite (copy_unfold m overrides Hvalid).
    pose proof (proj1 (valid_message_iff m) Hvalid) as (Hspec & _).
    set (names := (arguments (_spec m) ++ ["time"])%list).
    set (entries := (fun name => (name, default (attribute m name)
                                                (kw_lookup name overrides)))
                      <$> names).
    assert (__init__ (inr (type m)) entries
            = Return (set_all entries
                        (default_message (_spec m) (inr (type m)))))
      as Hinit.
    { apply init_Return. exists (_spec m). split; [exact Hspec |].
      split; [| reflexivity].
      apply forallb_forall. intros entry Hentry.
      apply in_map_iff in Hentry as (name & <- & Hname).
      apply list_elem_of_In, elem_of_spec_names in Hname.
      unfold valid_keyword. cbn [fst snd].
      rewrite (bool_decide_eq_true_2 _ Hname). cbn [andb].
      destruct (kw_lookup name overrides) as [value |] eqn:Hoverride.
      - exact (Haccepted name value Hname Hoverride).
      - destruct (valid_getattr m name Hvalid Hname)
          as (value & Hdict & _ & Hok).
        unfold attribute. rewrite Hdict. simpl.
        apply stored_ok_rule, Hok. }
    eexists. split; [exact Hinit |].
    split; [exact (init_valid _ _ _ Hinit) |].
    destruct (set_all_spec entries
                (default_message (_spec m) (inr (type m)))) as [_ Ht].
    destruct (default_message_spec (_spec m) (inr (type m))) as [_ Ht'].
    destruct (valid_spec m Hvalid) as [_ Htype].
    split; [congruence |].
    intros name Hname. unfold getattr.
    rewrite set_all_lookup. unfold entries.
    rewrite (kw_lookup_defaults
               (fun name => default (attribute m name)
                                    (kw_lookup name overrides))).
    rewrite bool_decide_eq_true_2 by (apply elem_of_spec_names, Hname).
    destruct (kw_lookup name overrides) as [override |]; [reflexivity |].
    destruct (valid_getattr m name Hvalid Hname)
      as (value & Hdict & _ & Hok).
    unfold attribute. rewrite Hdict. simpl. f_equal.
    apply stored_ok_rule, Hok.
  - intros Hvalid name value Hname Hoverride Hrefused.
    rewrite (copy_unfold m overrides Hvalid).
    pose proof (proj1 (valid_message_iff m) Hvalid) as (Hspec & _).
    apply (init_rejects _ _ _ (name, value) Hspec).
    + apply list_elem_of_fmap. exists name.
      rewrite Hoverride. split; [reflexivity |].
      apply elem_of_spec_names, Hname.
    + unfold valid_keyword. cbn [fst snd]. rewrite Hrefused.
      apply andb_false_r.
Qed.

Lemma py_eq_ints (xs ys : list Z) :
  py_eq (VTuple (VInt <$> xs)) (VTuple (VInt <$> ys)) = true <-> xs = ys.
Proof.
  simpl. revert ys. induction xs as [| x xs IH]; intros [| y ys]; csimpl;
    try (split; [discriminate | discriminate || reflexivity]);
    try (split; reflexivity || discriminate).
  rewrite andb_true_iff, IH, Z.eqb_eq. split.
  - intros [-> ->]. reflexivity.
  - intros [= -> ->]. auto.
Qed.

Lemma stored_ok_ints (value : pyval) :
  stored_ok "data" value = true -> exists xs, value = VTuple (VInt <$> xs).
Proof.
  intros (items & -> & Hitems)%stored_ok_data.
  induction items as [| item items IH].
  - exists []. reflexivity.
  - simpl in Hitems. apply andb_true_iff in Hitems as [Hitem Hitems].
    destruct (IH Hitems) as [xs [= ->]].
    destruct item; try discriminate. exists (n :: xs). reflexivity.
Qed.

(** On values stored in an attribute other than the time, [==] holds
    exactly of equal values. *)
Lemma py_eq_stored (name : string) (a b : pyval) :
  stored_ok name a = true -> stored_ok name b = true -> name <> "time" ->
  py_eq a b = true <-> a = b.
Proof.
  intros Ha Hb Htime.
  destruct (String.eqb_spec name "data") as [-> | Hdata].
  - apply stored_ok_ints in Ha as [xs ->].
    apply stored_ok_ints in Hb as [ys ->].
    rewrite py_eq_ints. split; [intros ->; reflexivity |].
    intros [= Heq]. revert ys Heq.
    induction xs as [| x xs IH]; intros [| y ys]; csimpl; try discriminate;
      [reflexivity |].
    intros [= -> Heq]. f_equal. auto.
  - destruct (stored_ok_int name a Ha Hdata Htime) as [x ->].
    destruct (stored_ok_int name b Hb Hdata Htime) as [y ->].
    simpl. rewrite Z.eqb_eq. split; [intros ->; reflexivity |].
    intros [= ->]. reflexivity.
Qed.

Lemma eq_key (m : Message) (names : list string) (values : list pyval) :
  valid_message m = true ->
  (forall name, name ∈ names -> name ∈ arguments (_spec m)) ->
  for_fold (fun (values : list pyval) arg =>
    value ← getattr m arg; Return (values ++ [value])%list) names values
  = Return (values ++ (attribute m <$> names))%list.
Proof.
  intros Hvalid. revert values.
  induction names as [| name names IH]; intros values Hnames.
  - simpl. rewrite app_nil_r. reflexivity.
  - destruct (valid_attribute m name Hvalid) as [Hget _];
      [apply Hnames; now left |].
    cbn [for_fold]. rewrite Hget.
    change (Return ?x ≫= ?k) with (k x). cbv beta.
    change (Return ?x ≫= ?k) with (k x). cbv beta.
    rewrite IH by (intros; apply Hnames; now right).
    csimpl. rewrite <- app_assoc. reflexivity.
Qed.

Lemma py_list_eq_stored (m1 m2 : Message) (names : list string) :
  valid_message m1 = true -> valid_message m2 = true ->
  _spec m1 = _spec m2 ->
  (forall name, name ∈ names -> name ∈ arguments (_spec m1)) ->
  py_list_eq (attribute m1 <$> names) (attribute m2 <$> names) = true <->
  forall name, name ∈ names -> attribute m1 name = attribute m2 name.
Proof.
  intros Hv1 Hv2 Hspec. destruct (valid_spec m1 Hv1) as [Hin _].
  induction names as [| name names IH]; intros Hnames.
  - simpl. split; [| reflexivity]. intros _ name Hname.
    apply elem_of_nil in Hname. destruct Hname.
  - csimpl. rewrite andb_true_iff, IH by (intros; apply Hnames; now right).
    assert (name ∈ arguments (_spec m1)) as Hname by (apply Hnames; now left).
    destruct (valid_attribute m1 name Hv1 Hname) as [_ Hok1].
    destruct (valid_attribute m2 name Hv2) as [_ Hok2];
      [rewrite <- Hspec; exact Hname |].
    rewrite (py_eq_stored name _ _ Hok1 Hok2)
      by (intros ->; exact (time_not_argument _ Hin Hname)).
    split.
    + intros [Hhead Htail] name' [-> | Hname']%elem_of_cons; auto.
    + intros Hall. split; [apply Hall; now left |].
      intros name' Hname'. apply Hall. now right.
Qed.

Lemma messages_eq (m1 m2 : Message) :
  valid_message m1 = true -> valid_message m2 = true ->
  (exists b, __eq__ m1 m2 = Return b) /\
  (__eq__ m1 m2 = Return true <->
   type m1 = type m2 /\
   forall name, name ∈ arguments (_spec m1) ->
                __dict__ m1 !! name = __dict__ m2 !! name).
Proof.
  intros Hv1 Hv2. unfold __eq__.
  rewrite !eq_key by auto.
  repeat (change (Return ?x ≫= ?k) with (k x); cbv beta).
  rewrite !app_nil_l. split; [eauto |].
  cbn [py_list_eq py_eq].
  destruct (String.eqb_spec (type m1) (type m2)) as [Htype | Htype].
  - assert (_spec m1 = _spec m2) as Hspec.
    { apply valid_message_iff in Hv1 as (Hs1 & _).
      apply valid_message_iff in Hv2 as (Hs2 & _). congruence. }
    rewrite andb_true_l. rewrite <- Hspec at 1.
    split.
    + intros [= Heq]. split; [assumption |].
      intros name Hname.
      pose proof (proj1 (py_list_eq_stored m1 m2 _ Hv1 Hv2 Hspec
                           (fun _ H => H)) Heq name Hname) as Hattr.
      destruct (valid_getattr m1 name Hv1) as (v1 & Hd1 & _);
        [apply elem_of_valid_attributes; now left |].
      destruct (valid_getattr m2 name Hv2) as (v2 & Hd2 & _);
        [rewrite <- Hspec; apply elem_of_valid_attributes; now left |].
      unfold attribute in Hattr. rewrite Hd1, Hd2 in Hattr |- *.
      simpl in Hattr. congruence.
    + intros [_ Hall]. f_equal.
      apply (py_list_eq_stored m1 m2 _ Hv1 Hv2 Hspec (fun _ H => H)).
      intros name Hname. unfold attribute. rewrite (Hall name Hname).
      reflexivity.
  - rewrite andb_false_l. split; [discriminate | tauto].
Qed.

(** X9: on valid messages [==] never raises, and it holds exactly when the
    two messages have the same type and the same value in every attribute of
    the type; the time plays no part. *)
Theorem eq_valid (m1 m2 : Message) :
  valid_message m1 = true -> valid_message m2 = true ->
  (exists b, __eq__ m1 m2 = Return b) /\
  (__eq__ m1 m2 = Return true <->
   type m1 = type m2 /\
   forall name, name ∈ arguments (_spec m1) ->
                __dict__ m1 !! name = __dict__ m2 !! name).
Proof. exact (messages_eq m1 m2). Qed.

(** ** Streams of lines *)

Lemma stream_from_unfold (parse : string -> result Message) (line_number : Z)
    (line : string) (stream : list string) :
  text_parse_stream_from parse line_number (line :: stream) =
  let next := text_parse_stream_from parse (line_number + 1) stream in
  if String.eqb (clean_line line) "" then next
  else match parse (clean_line line) with
       | Return message => yield (Some message, None) next
       | Raise (ValueError message) =>
           yield (None, Some ("line " ++ Str.of_int line_number ++ ": "
                                ++ message)) next
       | Raise e => mkGenerated [] (Some e)
       end.
Proof. reflexivity. Qed.

Lemma stream_from_app (parse : string -> result Message)
    (before after : list string) (line_number : Z) :
  (forall line e,
     line ∈ before -> clean_line line <> "" ->
     parse (clean_line line) = Raise e ->
     exists message, e = ValueError message) ->
  text_parse_stream_from parse line_number (before ++ after)
  = mkGenerated
      (stream_items parse line_number before
       ++ yielded (text_parse_stream_from parse
                     (line_number + Z.of_nat (length before)) after))
      (raised (text_parse_stream_from parse
                 (line_number + Z.of_nat (length before)) after)).
Proof.
  revert line_number. induction before as [| line before IH];
    intros line_number Hparse.
  - simpl. rewrite Z.add_0_r.
    destruct (text_parse_stream_from parse line_number after); reflexivity.
  - rewrite <- app_comm_cons, stream_from_unfold. cbv zeta.
    rewrite IH by (intros l e Hl; apply Hparse; now right).
    replace (line_number + 1 + Z.of_nat (length before))
      with (line_number + Z.of_nat (length (line :: before)))
      by (cbn [length]; lia).
    cbn [stream_items]. unfold stream_item.
    destruct (String.eqb_spec (clean_line line) "") as [Hempty | Hline];
      [reflexivity |].
    destruct (parse (clean_line line)) as [message | e] eqn:Hresult;
      [reflexivity |].
    destruct (Hparse line e) as [message ->]; auto using list_elem_of_here.
Qed.

(** X10: the module binds no name [parse], so that [text_parse_stream] as
    the module has it never yields an item: it comes to its end when every
    line is empty once its comment and the white space around it are
    removed, and otherwise the [NameError] of the name ends it at the first
    line that is not. *)
Theorem stream_without_parse (stream : list string) :
  text_parse_stream (unbound "parse") stream
  = mkGenerated []
      (if forallb (fun line => String.eqb (clean_line line) "") stream
       then None
       else Some (NameError "global name 'parse' is not defined")).
Proof.
  unfold text_parse_stream. generalize 1 as line_number.
  induction stream as [| line stream IH]; intros line_number; [reflexivity |].
  rewrite stream_from_unfold. cbv zeta. rewrite IH. cbn [forallb].
  destruct (String.eqb (clean_line line) ""); reflexivity.
Qed.

(** X11: whatever the name [parse] evaluates to, a function bound to it or
    the [NameError] of the module as it is, the stream ends at the first line
    that is not empty and on which [parse(line)] raises an exception that is
    not a [ValueError]: what the lines before it gave has been yielded,
    nothing is yielded for that line or for any line after it, and the
    exception leaves the generator. *)
Theorem stream_ends_at_other_exception (parse : string -> result Message)
    (before after : list string) (line : string) (e : exception) :
  (forall line e,
     line ∈ before -> clean_line line <> "" ->
     parse (clean_line line) = Raise e ->
     exists message, e = ValueError message) ->
  clean_line line <> "" ->
  parse (clean_line line) = Raise e ->
  (forall message, e <> ValueError message) ->
  text_parse_stream parse (before ++ line :: after)
  = mkGenerated (stream_items parse 1 before) (Some e).
Proof.
  intros Hbefore Hline Hraise Hother. unfold text_parse_stream.
  rewrite stream_from_app by assumption.
  rewrite stream_from_unfold. cbv zeta.
  apply String.eqb_neq in Hline. rewrite Hline, Hraise.
  destruct e as [message | message | message | message];
    [destruct (Hother message eq_refl) | | |];
    cbn [yielded raised]; rewrite app_nil_r; reflexivity.
Qed.

(** ** More on text parsing *)

Lemma setattr_Raise (self : Message) (name : string) (value : pyval)
    (e : exception) :
  setattr self name value = Raise e ->
  ((name ∉ valid_attributes (_spec self))
   /\ exists message, e = AttributeError message)
  \/ ((name ∈ valid_attributes (_spec self))
      /\ check_of name value = Raise e).
Proof.
  unfold setattr, __setattr__. case_bool_decide as Hname.
  - destruct (check_of name value) as [ret | e'] eqn:Hcheck;
      [discriminate |].
    intros [= <-]. auto.
  - destruct (in_dict self name); intros [= <-]; eauto.
Qed.

Lemma check_of_int_Raise (name : string) (n : Z) (e : exception) :
  name <> "data" ->
  check_of name (VInt n) = Raise e -> exists message, e = ValueError message.
Proof.
  intros Hdata.
  destruct (check_of_cases name)
    as [[-> ->] | [[-> ->] | [[-> ->] | [[-> ->] | [[-> ->] | H]]]]];
    [| | | | tauto | destruct H as (_ & _ & _ & _ & _ & ->)];
    unfold_checks;
    repeat match goal with
           | |- context [if ?b then _ else _] => destruct b
           end;
    intros [= <-]; eauto.
Qed.

(** Every check refuses a [long] with a [TypeError]. *)
Lemma check_of_long_Raise (name : string) (n : Z) (e : exception) :
  name <> "data" ->
  check_of name (VLong n) = Raise e -> exists message, e = TypeError message.
Proof.
  intros Hdata.
  destruct (check_of_cases name)
    as [[-> ->] | [[-> ->] | [[-> ->] | [[-> ->] | [[-> ->] | H]]]]];
    [| | | | tauto | destruct H as (_ & _ & _ & _ & _ & ->)];
    unfold_checks; intros [= <-]; eauto.
Qed.

Lemma check_of_py_int_Raise (name : string) (n : Z) (e : exception) :
  name <> "data" ->
  check_of name (py_int n) = Raise e ->
  (exists message, e = ValueError message) \/
  ((n < - maxint - 1 \/ maxint < n) /\ exists message, e = TypeError message).
Proof.
  intros Hdata.
  destruct (py_int_cases n) as [[-> _] | [-> Hlong]].
  - left. eauto using check_of_int_Raise.
  - right. eauto using check_of_long_Raise.
Qed.

Lemma check_data_ints_Raise (data_bytes : list Z) (e : exception) :
  check_of "data" (VList (py_int <$> data_bytes)) = Raise e ->
  (exists message, e = ValueError message) \/
  ((exists n, n ∈ data_bytes /\ (n < - maxint - 1 \/ maxint < n))
   /\ exists message, e = TypeError message).
Proof.
  change (check_of "data") with check_data. unfold check_data.
  cbn [py_iter]. change (Return ?x ≫= ?k) with (k x). cbv beta.
  induction data_bytes as [| byte data_bytes IH]; [discriminate |].
  rewrite fmap_cons. cbn [for_each].
  destruct (check_databyte (py_int byte)) as [ret | e'] eqn:Hbyte.
  - change (Return ?x ≫= ?k) with (k x). cbv beta.
    destruct (for_each check_databyte (py_int <$> data_bytes)) as [[] | e'']
      eqn:Hrest; [discriminate |].
    intros [= <-].
    destruct IH as [Hvalue | [(n & Hn & Hlong) Htype]];
      [reflexivity | now left |].
    right. split; [| assumption]. exists n. split; [now right | assumption].
  - intros [= <-].
    assert (check_of "databyte" (py_int byte) = Raise e') as Hcheck
      by exact Hbyte.
    apply check_of_py_int_Raise in Hcheck as [Hvalue | [Hlong Htype]];
      [now left | | discriminate].
    right. split; [| assumption]. exists byte. split; [now left | assumption].
Qed.

(** An argument that [text_parse] refuses raises a [ValueError], unless it
    gives [data] to a message that has no such attribute, or gives an
    attribute an integer past [sys.maxint]. *)
Lemma text_parse_argument_Raise (state : Message * gset string)
    (argument : string) (e : exception) :
  text_parse_argument state argument = Raise e ->
  (exists message, e = ValueError message) \/
  (argument_name argument = "data" /\
   ("data" ∉ valid_attributes (_spec state.1)) /\
   exists message, e = AttributeError message) \/
  ((exists n, n ∈ argument_integers argument
              /\ (n < - maxint - 1 \/ maxint < n)) /\
   exists message, e = TypeError message).
Proof.
  destruct state as [message names_seen].
  unfold text_parse_argument, argument_name, argument_integers.
  destruct (Str.split_on "=" argument) as [| name [| value [| ? ?]]];
    try (intros [= <-]; eauto; fail).
  cbn [hd fst]. case_bool_decide as Hseen; [intros [= <-]; eauto |].
  destruct (String.eqb_spec name "data") as [-> | Hdata].
  - destruct (andb (negb _) _); [intros [= <-]; eauto |].
    destruct (mapM _ _) as [data_bytes |]; [| intros [= <-]; eauto].
    destruct (setattr message "data" _) as [m | e'] eqn:Hset;
      [discriminate |].
    intros [= <-].
    apply setattr_Raise in Hset as [[Hname Hmsg] | [_ Hcheck]].
    + right. left. auto.
    + apply check_data_ints_Raise in Hcheck as [Hvalue | Hlong];
        [now left | right; right; exact Hlong].
  - destruct (Str.int_of_text value) as [n |]; [| intros [= <-]; eauto].
    destruct (setattr message name (py_int n)) as [m | e'] eqn:Hset;
      [discriminate |].
    apply setattr_Raise in Hset as [[_ [msg ->]] | [_ Hcheck]].
    + intros [= <-]. eauto.
    + destruct (check_of_py_int_Raise name n e' Hdata Hcheck)
        as [[msg ->] | [Hlong [msg ->]]]; intros [= <-]; [eauto |].
      right. right. split; [| eauto].
      exists n. split; [now left | assumption].
Qed.

Lemma text_parse_arguments_Raise (arguments_0 : list string)
    (state : Message * gset string) (e : exception) :
  for_fold text_parse_argument arguments_0 state = Raise e ->
  (exists message, e = ValueError message) \/
  (("data" ∈ argument_name <$> arguments_0) /\
   ("data" ∉ valid_attributes (_spec state.1)) /\
   exists message, e = AttributeError message) \/
  ((exists n, n ∈ flat_map argument_integers arguments_0
              /\ (n < - maxint - 1 \/ maxint < n)) /\
   exists message, e = TypeError message).
Proof.
  revert state. induction arguments_0 as [| argument arguments_0 IH];
    intros state; [discriminate |].
  cbn [for_fold flat_map].
  destruct (text_parse_argument state argument) as [state' |] eqn:Hstep.
  - change (Return ?x ≫= ?k) with (k x). cbv beta.
    intros [Hvalue | [(Hin & Hdata & Hmsg) | [(n & Hn & Hlong) Hmsg]]]%IH;
      [now left | |].
    + right. left. split; [csimpl; now right |]. split; [| assumption].
      destruct state as [m seen], state' as [m' seen'].
      apply text_parse_argument_Return in Hstep as (value & Hset & _).
      apply setattr_Return in Hset as (_ & _ & ->). exact Hdata.
    + right. right. split; [| assumption].
      exists n. split; [| assumption]. apply elem_of_app. now right.
  - intros [= <-].
    apply text_parse_argument_Raise in Hstep
      as [Hvalue | [(Hname & Hdata & Hmsg) | [(n & Hn & Hlong) Hmsg]]];
      [now left | |].
    + right. left. split; [csimpl; rewrite Hname; now left | auto].
    + right. right. split; [| assumption].
      exists n. split; [| assumption]. apply elem_of_app. now left.
Qed.

Lemma text_parse_unfold (text : string) :
  text_parse text =
  match Str.split text with
  | [] => Raise (ValueError "string is empty")
  | first :: rest =>
      match text_parse_number first with
      | Some time =>
          match rest with
          | [] => Raise (ValueError "no message found after number")
          | word :: _ => text_parse_words (Some time) word (line_arguments text)
          end
      | None => text_parse_words None first (line_arguments text)
      end
  end.
Proof.
  unfold text_parse, line_arguments.
  destruct (Str.split text) as [| first rest]; [reflexivity |].
  destruct (text_parse_number first) as [time |]; [| reflexivity].
  destruct rest as [| word rest]; reflexivity.
Qed.

Lemma init_empty (word : string) :
  __init__ (inr word) [] =
  match _spec_lookup !! (inr word : Z + string) with
  | Some spec => Return (default_message spec (inr word))
  | None => Raise (ValueError (Str.repr word
                     ++ " is an invalid type name or status byte"))
  end.
Proof. rewrite init_unfold. reflexivity. Qed.

(** The write of the leading number: it is refused only when the number is
    a [long]. *)
Lemma text_parse_time (message message' : Message) (time : option pyval) :
  match time with
  | Some time =>
      if py_bool time then setattr message "time" time else Return message
  | None => Return message
  end = Return message' ->
  _spec message' = _spec message /\
  (valid_message message = true -> valid_message message' = true).
Proof.
  destruct time as [time |]; [| intros [= <-]; auto].
  destruct (py_bool time); [| intros [= <-]; auto].
  intros (Hname & Hrule & ->)%setattr_Return.
  split; [reflexivity |].
  intros Hvalid. apply set_valid; auto using stored_value_ok.
Qed.

Lemma text_parse_time_Raise (message : Message) (first : string)
    (e : exception) :
  match text_parse_number first with
  | Some time =>
      if py_bool time then setattr message "time" time else Return message
  | None => Return message
  end = Raise e ->
  (exists n, Str.int_of_text first = Some n
             /\ (n < - maxint - 1 \/ maxint < n)) /\
  exists message, e = TypeError message.
Proof.
  unfold text_parse_number.
  destruct (Str.int_of_text first) as [n |].
  - destruct (py_int_cases n) as [[-> _] | [-> Hlong]].
    + destruct (py_bool (VInt n)); [| discriminate].
      intros [[Hname _] | [_ Hcheck]]%setattr_Raise; [| discriminate].
      destruct Hname. apply elem_of_valid_attributes. now right.
    + destruct (py_bool (VLong n)); [| discriminate].
      intros [[Hname _] | [_ Hcheck]]%setattr_Raise.
      * destruct Hname. apply elem_of_valid_attributes. now right.
      * split; [eauto |]. injection Hcheck as <-. eauto.
  - destruct (float_of_text first) as [x |]; [| discriminate].
    destruct (py_bool (VFloat x)); [| discriminate].
    intros [[Hname _] | [_ Hcheck]]%setattr_Raise; [| discriminate].
    destruct Hname. apply elem_of_valid_attributes. now right.
Qed.

Lemma text_parse_words_Raise (first word : string)
    (arguments_0 : list string) (e : exception) :
  text_parse_words (text_parse_number first) word arguments_0 = Raise e ->
  (exists message, e = ValueError message) \/
  (("data" ∈ argument_name <$> arguments_0) /\
   exists message, e = AttributeError message) \/
  ((exists n, n ∈ (option_list (Str.int_of_text first)
                   ++ flat_map argument_integers arguments_0)%list
              /\ (n < - maxint - 1 \/ maxint < n)) /\
   exists message, e = TypeError message).
Proof.
  unfold text_parse_words. rewrite init_empty.
  destruct (_spec_lookup !! inr word) as [spec |];
    [| intros [= <-]; eauto].
  change (Return ?x ≫= ?k) with (k x). cbv beta.
  destruct (match text_parse_number first with
            | Some time =>
                if py_bool time
                then setattr (default_message spec (inr word)) "time" time
                else Return (default_message spec (inr word))
            | None => Return (default_message spec (inr word))
            end) as [message | e'] eqn:Htime.
  - change (Return ?x ≫= ?k) with (k x). cbv beta.
    destruct (for_fold text_parse_argument arguments_0 (message, ∅))
      as [state | e'] eqn:Hloop; [discriminate |].
    intros [= <-].
    apply text_parse_arguments_Raise in Hloop
      as [Hvalue | [(Hin & _ & Hmsg) | [(n & Hn & Hlong) Hmsg]]]; auto.
    right. right. split; [| assumption].
    exists n. split; [| assumption]. apply elem_of_app. now right.
  - intros [= <-].
    apply text_parse_time_Raise in Htime as [(n & Hn & Hlong) Hmsg].
    right. right. split; [| assumption].
    exists n. split; [| assumption]. apply elem_of_app. left.
    rewrite Hn. now left.
Qed.

(** X12: [text_parse] raises a [ValueError], with two exceptions: on a line
    that gives a [data] argument to a type of message without data it lets
    the [AttributeError] of the write through, and on a line in which it
    reads an integer past [sys.maxint], a [long], it lets the [TypeError] of
    the check through. *)
Theorem text_parse_raises (text : string) (e : exception) :
  text_parse text = Raise e ->
  (exists message, e = ValueError message) \/
  (("data" ∈ argument_name <$> line_arguments text) /\
   exists message, e = AttributeError message) \/
  ((exists n, n ∈ line_integers text /\ (n < - maxint - 1 \/ maxint < n)) /\
   exists message, e = TypeError message).
Proof.
  rewrite text_parse_unfold. unfold line_integers.
  destruct (Str.split text) as [| first rest] eqn:Hsplit;
    [intros [= <-]; eauto |].
  cbn [hd].
  destruct (text_parse_number first) as [time |] eqn:Hnumber.
  - destruct rest as [| word rest]; [intros [= <-]; eauto |].
    rewrite <- Hnumber. apply text_parse_words_Raise.
  - intros Hraise.
    assert (Str.int_of_text first = None) as Hfirst.
    { revert Hnumber. unfold text_parse_number.
      destruct (Str.int_of_text first); [discriminate | reflexivity]. }
    rewrite Hfirst. cbn [option_list app].
    revert Hraise. rewrite <- Hnumber.
    intros [Hvalue | [Hdata | [(n & Hn & Hlong) Hmsg]]]%text_parse_words_Raise;
      auto.
    right. right. split; [| assumption]. exists n. split; [| assumption].
    rewrite Hfirst in Hn. exact Hn.
Qed.

Lemma text_parse_arguments_valid (arguments_0 : list string)
    (message message' : Message) (names_seen names_seen' : gset string) :
  for_fold text_parse_argument arguments_0 (message, names_seen)
  = Return (message', names_seen') ->
  valid_message message = true ->
  valid_message message' = true /\
  _spec message' = _spec message /\
  NoDup (argument_name <$> arguments_0) /\
  (forall name, name ∈ argument_name <$> arguments_0 ->
                name ∈ valid_attributes (_spec message)
                /\ name ∉ names_seen) /\
  names_seen' = names_seen ∪ list_to_set (argument_name <$> arguments_0).
Proof.
  revert message names_seen.
  induction arguments_0 as [| argument arguments_0 IH];
    intros message names_seen.
  - intros [= <- <-] Hvalid.
    split; [assumption |]. split; [reflexivity |].
    split; [constructor |]. split.
    + intros name Hname. apply elem_of_nil in Hname. destruct Hname.
    + csimpl. rewrite union_empty_r_L. reflexivity.
  - cbn [for_fold].
    destruct (text_parse_argument (message, names_seen) argument)
      as [[m seen] |] eqn:Hstep; [| discriminate].
    change (Return ?x ≫= ?k) with (k x). cbv beta.
    intros Hrest Hvalid.
    apply text_parse_argument_Return in Hstep
      as (value & Hset & Hfresh & ->).
    apply setattr_Return in Hset as (Hname & Hrule & ->).
    destruct (IH _ _ Hrest) as (Hvalid' & Hspec & Hdup & Hnames & ->).
    { auto using set_valid, stored_value_ok. }
    rewrite set_spec in Hspec, Hnames. csimpl.
    split; [assumption |]. split; [assumption |]. split; [| split].
    + constructor; [| assumption].
      intros Hin. destruct (Hnames _ Hin) as [_ Hnot].
      apply Hnot. apply elem_of_union. right. now apply elem_of_singleton.
    + intros name [-> | Hin]%elem_of_cons; [auto |].
      destruct (Hnames _ Hin) as [Hvalid_name Hnot].
      split; [assumption |].
      intros Hseen. apply Hnot. apply elem_of_union. now left.
    + rewrite <- (assoc_L union). reflexivity.
Qed.

Lemma text_parse_words_valid (time : option pyval) (word : string)
    (arguments_0 : list string) (message : Message) :
  text_parse_words time word arguments_0 = Return message ->
  valid_message message = true /\
  type message = word /\
  NoDup (argument_name <$> arguments_0) /\
  (forall name, name ∈ argument_name <$> arguments_0 ->
                name ∈ valid_attributes (_spec message)).
Proof.
  unfold text_parse_words. rewrite init_empty.
  destruct (_spec_lookup !! inr word) as [spec |] eqn:Hlookup;
    [| discriminate].
  change (Return ?x ≫= ?k) with (k x). cbv beta.
  destruct (match time with
            | Some time =>
                if py_bool time
                then setattr (default_message spec (inr word)) "time" time
                else Return (default_message spec (inr word))
            | None => Return (default_message spec (inr word))
            end) as [m1 |] eqn:Htime; [| discriminate].
  apply text_parse_time in Htime as [Hspec1 Hvalid1].
  change (Return ?x ≫= ?k) with (k x). cbv beta.
  destruct (for_fold text_parse_argument arguments_0 (m1, ∅))
    as [[m seen] |] eqn:Hloop; [| discriminate].
  intros [= <-]. cbn [fst].
  destruct (text_parse_arguments_valid _ _ _ _ _ Hloop)
    as (Hvalid & Hspec & Hdup & Hnames & _).
  { eauto using default_message_valid. }
  repeat split; try assumption.
  - apply valid_spec in Hvalid as [_ ->].
    rewrite Hspec, Hspec1.
    destruct (default_message_spec spec (inr word)) as [-> _].
    apply registry_lookup_name in Hlookup as [_ ->]. reflexivity.
  - intros name Hname. rewrite Hspec. apply (Hnames name Hname).
Qed.

(** X13: a message that [text_parse] returns is valid, and the line it was
    read from names each argument once, each being an attribute of the type
    of the message or [time]. *)
Theorem text_parse_valid (text : string) (message : Message) :
  text_parse text = Return message ->
  valid_message message = true /\
  NoDup (argument_name <$> line_arguments text) /\
  (forall name, name ∈ argument_name <$> line_arguments text ->
                name ∈ valid_attributes (_spec message)).
Proof.
  rewrite text_parse_unfold.
  destruct (Str.split text) as [| first rest]; [discriminate |].
  destruct (text_parse_number first) as [time |] eqn:Hnumber.
  - destruct rest as [| word rest]; [discriminate |].
    intros Hwords. apply text_parse_words_valid in Hwords. tauto.
  - intros Hwords. apply text_parse_words_valid in Hwords. tauto.
Qed.

(** ** Strings: splitting what was joined, reading what was printed *)

Lemma split_word (w s : string) :
  w <> "" -> Str.all_chars not_space w = true ->
  Str.startswith " " s = true \/ s = "" ->
  Str.split (w ++ s) = w :: Str.split s.
Proof.
  intros Hne Hw Hs. induction w as [| a w IH]; [contradiction |].
  cbn [Str.all_chars] in Hw. apply andb_true_iff in Hw as [Ha Hw].
  unfold not_space in Ha. apply negb_true_iff in Ha.
  change (String a w ++ s) with (String a (w ++ s)).
  cbn [Str.split]. rewrite Ha.
  destruct w as [| b w].
  - change ("" ++ s) with s. destruct s as [| c s]; [reflexivity |].
    destruct Hs as [Hs | Hs]; [| discriminate].
    cbn [Str.startswith] in Hs. apply Ascii.eqb_eq in Hs as ->. reflexivity.
  - change (String b w ++ s) with (String b (w ++ s)) in *.
    cbn [Str.all_chars] in Hw. pose proof Hw as Hw'.
    apply andb_true_iff in Hw' as [Hb _].
    unfold not_space in Hb. apply negb_true_iff in Hb. rewrite Hb.
    rewrite IH by (discriminate || assumption). reflexivity.
Qed.

Lemma append_empty_r (s : string) : s ++ "" = s.
Proof.
  induction s as [| a s IH]; [reflexivity |].
  change (String a s ++ "") with (String a (s ++ "")). rewrite IH.
  reflexivity.
Qed.

Lemma split_join (words : list string) :
  Forall (fun w => w <> "" /\ Str.all_chars not_space w = true) words ->
  Str.split (Str.join " " words) = words.
Proof.
  induction 1 as [| w words [Hne Hw] Hwords IH]; [reflexivity |].
  destruct words as [| w' words].
  - cbn [Str.join]. rewrite <- (append_empty_r w) at 1.
    rewrite split_word by auto. reflexivity.
  - change (Str.join " " (w :: w' :: words))
      with (w ++ String " " (Str.join " " (w' :: words))).
    rewrite split_word by auto.
    change (Str.split (String " " ?s)) with (Str.split s).
    rewrite IH. reflexivity.
Qed.

Lemma split_on_none (sep : ascii) (s : string) :
  Str.contains sep s = false -> Str.split_on sep s = [s].
Proof.
  induction s as [| a s IH]; [reflexivity |].
  cbn [Str.contains Str.split_on]. intros [Ha Hs]%orb_false_iff.
  rewrite Ha, IH by assumption. reflexivity.
Qed.

Lemma split_on_app (sep : ascii) (a b : string) :
  Str.contains sep a = false ->
  Str.split_on sep (a ++ String sep b) = a :: Str.split_on sep b.
Proof.
  induction a as [| c a IH].
  - intros _. change ("" ++ String sep b) with (String sep b).
    cbn [Str.split_on]. rewrite Ascii.eqb_refl. reflexivity.
  - cbn [Str.contains]. intros [Hc Ha]%orb_false_iff.
    change (String c a ++ String sep b) with (String c (a ++ String sep b)).
    cbn [Str.split_on]. rewrite Hc, IH by assumption. reflexivity.
Qed.

Lemma split_on_join (sep : ascii) (parts : list string) :
  parts <> [] ->
  Forall (fun part => Str.contains sep part = false) parts ->
  Str.split_on sep (Str.join (String sep "") parts) = parts.
Proof.
  intros Hne Hparts. induction Hparts as [| part parts Hpart Hparts IH];
    [contradiction |].
  destruct parts as [| part' parts].
  - apply split_on_none, Hpart.
  - change (Str.join (String sep "") (part :: part' :: parts))
      with (part ++ String sep (Str.join (String sep "") (part' :: parts))).
    rewrite split_on_app by assumption. rewrite IH by discriminate.
    reflexivity.
Qed.

Lemma drop_last_app (s : string) (c : ascii) :
  Str.drop_last (s ++ String c "") = s.
Proof.
  induction s as [| a s IH]; [reflexivity |].
  change (String a s ++ String c "") with (String a (s ++ String c "")).
  cbn [Str.drop_last]. rewrite IH.
  destruct s; reflexivity.
Qed.

Lemma strip_word (w : string) :
  Str.all_chars not_space w = true -> Str.strip w = w.
Proof.
  intros Hw. unfold Str.strip.
  assert (Str.lstrip w = w) as ->.
  { destruct w as [| a w]; [reflexivity |].
    cbn [Str.all_chars] in Hw. apply andb_true_iff in Hw as [Ha _].
    unfold not_space in Ha. apply negb_true_iff in Ha.
    cbn [Str.lstrip]. rewrite Ha. reflexivity. }
  induction w as [| a w IH]; [reflexivity |].
  cbn [Str.all_chars] in Hw. apply andb_true_iff in Hw as [Ha Hw].
  unfold not_space in Ha. apply negb_true_iff in Ha.
  cbn [Str.rstrip]. rewrite IH by assumption.
  destruct w; [rewrite Ha |]; reflexivity.
Qed.

Lemma all_chars_app (P : ascii -> bool) (a b : string) :
  Str.all_chars P (a ++ b) = Str.all_chars P a && Str.all_chars P b.
Proof.
  induction a as [| c a IH]; [reflexivity |].
  change (String c a ++ b) with (String c (a ++ b)).
  cbn [Str.all_chars]. rewrite IH, andb_assoc. reflexivity.
Qed.

Lemma all_chars_impl (P Q : ascii -> bool) (s : string) :
  (forall c, P c = true -> Q c = true) ->
  Str.all_chars P s = true -> Str.all_chars Q s = true.
Proof.
  intros HPQ. induction s as [| c s IH]; [reflexivity |].
  cbn [Str.all_chars]. intros [Hc Hs]%andb_true_iff.
  rewrite (HPQ c Hc), IH by assumption. reflexivity.
Qed.

Lemma all_chars_contains (c : ascii) (s : string) :
  Str.all_chars (fun a => negb (Ascii.eqb a c)) s = true ->
  Str.contains c s = false.
Proof.
  induction s as [| a s IH]; [reflexivity |].
  cbn [Str.all_chars Str.contains]. intros [Ha Hs]%andb_true_iff.
  apply negb_true_iff in Ha. rewrite Ha, IH by assumption. reflexivity.
Qed.

Lemma digit_char_digit (d : Z) :
  0 <= d <= 9 ->
  Str.is_digit (Str.digit_char d) = true
  /\ Str.digit_value (Str.digit_char d) = d.
Proof.
  intros Hd.
  assert (d = 0 \/ d = 1 \/ d = 2 \/ d = 3 \/ d = 4 \/ d = 5 \/ d = 6
          \/ d = 7 \/ d = 8 \/ d = 9) as Hcases by lia.
  repeat (destruct Hcases as [-> | Hcases]; [split; reflexivity |]).
  subst d. split; reflexivity.
Qed.

Lemma pos_digits_value (fuel : nat) (n : Z) (acc : string) :
  0 <= n < 10 ^ Z.of_nat fuel ->
  Str.digits_value 0 (Str.pos_digits fuel n acc) = Str.digits_value n acc.
Proof.
  revert n acc. induction fuel as [| fuel IH]; intros n acc Hn.
  - simpl in Hn. assert (n = 0) as -> by lia. reflexivity.
  - cbn [Str.pos_digits]. cbv zeta.
    destruct (digit_char_digit (n mod 10)) as [Hdigit Hvalue].
    { pose proof (Z.mod_pos_bound n 10). lia. }
    destruct (n <? 10) eqn:Hsmall.
    + apply Z.ltb_lt in Hsmall. cbn [Str.digits_value].
      rewrite Hdigit, Hvalue, Z.mod_small by lia. f_equal.
    + apply Z.ltb_ge in Hsmall. rewrite IH.
      * cbn [Str.digits_value]. rewrite Hdigit, Hvalue. f_equal.
        pose proof (Z.div_mod n 10). lia.
      * rewrite Nat2Z.inj_succ, Z.pow_succ_r in Hn by lia.
        split; [apply Z.div_pos; lia |].
        apply Z.div_lt_upper_bound; lia.
Qed.

Lemma pos_digits_chars (P : ascii -> bool) (fuel : nat) (n : Z)
    (acc : string) :
  (forall c, Str.is_digit c = true -> P c = true) ->
  Str.all_chars P acc = true ->
  Str.all_chars P (Str.pos_digits fuel n acc) = true.
Proof.
  intros HP. revert n acc. induction fuel as [| fuel IH]; intros n acc Hacc;
    [assumption |].
  cbn [Str.pos_digits]. cbv zeta.
  destruct (digit_char_digit (n mod 10)) as [Hdigit _].
  { pose proof (Z.mod_pos_bound n 10). lia. }
  assert (Str.all_chars P (String (Str.digit_char (n mod 10)) acc) = true)
    as Hacc' by (cbn [Str.all_chars]; rewrite (HP _ Hdigit), Hacc; reflexivity).
  destruct (n <? 10); auto.
Qed.

Lemma pos_digits_head (fuel : nat) (n : Z) :
  exists c s, Str.pos_digits (S fuel) n "" = String c s
              /\ Str.is_digit c = true.
Proof.
  pose proof (pos_digits_chars Str.is_digit (S fuel) n "" (fun _ H => H)
                eq_refl) as Hchars.
  assert (Str.pos_digits (S fuel) n "" <> "") as Hne.
  { assert (forall f m acc, acc <> "" -> Str.pos_digits f m acc <> "")
      as Hgen.
    { induction f as [| f IHf]; intros m acc Hacc; [assumption |].
      cbn [Str.pos_digits]. cbv zeta.
      destruct (m <? 10); [discriminate | apply IHf; discriminate]. }
    cbn [Str.pos_digits]. cbv zeta.
    destruct (n <? 10); [discriminate | apply Hgen; discriminate]. }
  destruct (Str.pos_digits (S fuel) n "") as [| c s]; [contradiction |].
  cbn [Str.all_chars] in Hchars. apply andb_true_iff in Hchars as [Hc _].
  eauto.
Qed.

Lemma log2_fuel (n : Z) :
  0 <= n -> n < 10 ^ Z.of_nat (Z.to_nat (Z.log2 n) + 1).
Proof.
  intros Hn. pose proof (Z.log2_nonneg n) as Hlog.
  rewrite Nat2Z.inj_add, Z2Nat.id by assumption. simpl Z.of_nat.
  destruct (Z.eq_dec n 0) as [-> | Hpos]; [reflexivity |].
  destruct (Z.log2_spec n) as [_ Hupper]; [lia |].
  rewrite <- Z.add_1_r in Hupper.
  eapply Z.lt_le_trans; [exact Hupper |].
  apply Z.pow_le_mono_l. lia.
Qed.

(** [int(str(n)) == n] *)
Lemma int_of_text_of_int (n : Z) : Str.int_of_text (Str.of_int n) = Some n.
Proof.
  unfold Str.int_of_text, Str.of_int.
  destruct (n <? 0) eqn:Hsign.
  - apply Z.ltb_lt in Hsign.
    rewrite strip_word.
    + unfold Str.unsigned_of_text.
      rewrite Nat.add_1_r.
      destruct (pos_digits_head (Z.to_nat (Z.log2 (- n))) (- n))
        as (c & s & Heq & _).
      pose proof (pos_digits_value (S (Z.to_nat (Z.log2 (- n)))) (- n) "")
        as Hvalue.
      rewrite Heq in Hvalue |- *. rewrite Hvalue.
      * simpl. f_equal. lia.
      * rewrite <- Nat.add_1_r. split; [lia | apply log2_fuel; lia].
    + cbn [Str.all_chars]. apply andb_true_iff. split; [reflexivity |].
      apply pos_digits_chars; [| reflexivity].
      intros c Hc. unfold not_space, Str.is_space, Str.is_digit in *.
      apply andb_true_iff in Hc as [Hlo Hhi].
      apply Nat.leb_le in Hlo, Hhi. apply negb_true_iff, orb_false_iff.
      split; [apply Nat.eqb_neq | apply andb_false_iff; right;
                                   apply Nat.leb_gt]; lia.
  - apply Z.ltb_ge in Hsign.
    rewrite strip_word.
    + rewrite Nat.add_1_r.
      destruct (pos_digits_head (Z.to_nat (Z.log2 n)) n)
        as (c & s & Heq & Hdigit).
      pose proof (pos_digits_value (S (Z.to_nat (Z.log2 n))) n "")
        as Hvalue.
      rewrite Heq in Hvalue |- *.
      assert (0 <= n < 10 ^ Z.of_nat (S (Z.to_nat (Z.log2 n)))) as Hfuel
        by (rewrite <- Nat.add_1_r; split; [lia | apply log2_fuel; lia]).
      specialize (Hvalue Hfuel). clear Heq Hfuel.
      destruct c as [[] [] [] [] [] [] [] []]; try discriminate Hdigit;
        exact Hvalue.
    + apply pos_digits_chars; [| reflexivity].
      intros c Hc. unfold not_space, Str.is_space, Str.is_digit in *.
      apply andb_true_iff in Hc as [Hlo Hhi].
      apply Nat.leb_le in Hlo, Hhi. apply negb_true_iff, orb_false_iff.
      split; [apply Nat.eqb_neq | apply andb_false_iff; right;
                                   apply Nat.leb_gt]; lia.
Qed.

Lemma of_int_chars (n : Z) : Str.all_chars int_char (Str.of_int n) = true.
Proof.
  unfold Str.of_int.
  assert (forall c, Str.is_digit c = true -> int_char c = true) as Hdigit
    by (intros c Hc; unfold int_char; rewrite Hc; reflexivity).
  destruct (n <? 0).
  - cbn [Str.all_chars]. rewrite pos_digits_chars by auto. reflexivity.
  - apply pos_digits_chars; auto.
Qed.

Lemma of_int_nonempty (n : Z) : Str.of_int n <> "".
Proof.
  unfold Str.of_int. destruct (n <? 0); [discriminate |].
  rewrite Nat.add_1_r.
  destruct (pos_digits_head (Z.to_nat (Z.log2 n)) n) as (c & s & -> & _).
  discriminate.
Qed.

(** ** Formatting a message and parsing it back *)

Lemma message_ext (a b : Message) :
  _spec a = _spec b -> type a = type b ->
  (forall name, __dict__ a !! name = __dict__ b !! name) ->
  a = b.
Proof.
  destruct a as [sa ta da], b as [sb tb db]. cbn [_spec type __dict__].
  intros -> -> Hdict. f_equal. apply map_eq, Hdict.
Qed.

Lemma text_format_rounds (m : Message) (names : list string)
    (words : list string) :
  valid_message m = true ->
  (forall name, name ∈ names -> name ∈ arguments (_spec m)) ->
  for_fold (fun (words : list string) name =>
    value ← getattr m name;
    value ← (if String.eqb name "data" then
               items ← py_iter value;
               Return (VStr ("(" ++ Str.join "," (py_str <$> items) ++ ")"))
             else Return value);
    Return (words ++ [(name ++ "=" ++ py_str value)%string])%list)
    names words
  = Return (words ++ (render_argument m <$> names))%list.
Proof.
  intros Hvalid. revert words.
  induction names as [| name names IH]; intros words Hnames.
  - simpl. rewrite app_nil_r. reflexivity.
  - assert (name ∈ arguments (_spec m)) as Hname by (apply Hnames; now left).
    destruct (valid_attribute m name Hvalid Hname) as [Hget Hok].
    cbn [for_fold]. rewrite Hget.
    change (Return ?x ≫= ?k) with (k x). cbv beta.
    assert ((if String.eqb name "data" then
               items ← py_iter (attribute m name);
               Return (VStr ("(" ++ Str.join "," (py_str <$> items) ++ ")"))
             else Return (attribute m name))
            = Return (VStr (render_value name (attribute m name)))
            \/ (name <> "data" /\
                py_str (attribute m name)
                = render_value name (attribute m name))) as Hvalue.
    { unfold render_value.
      destruct (String.eqb_spec name "data") as [-> | Hdata]; [| auto].
      left. apply stored_ok_data in Hok as (items & -> & _). reflexivity. }
    destruct Hvalue as [-> | [Hdata Hstr]].
    + change (Return ?x ≫= ?k) with (k x). cbv beta.
      change (Return ?x ≫= ?k) with (k x). cbv beta.
      rewrite IH by (intros; apply Hnames; now right).
      csimpl. rewrite <- app_assoc. reflexivity.
    + apply String.eqb_neq in Hdata. rewrite Hdata.
      change (Return ?x ≫= ?k) with (k x). cbv beta.
      change (Return ?x ≫= ?k) with (k x). cbv beta.
      rewrite IH by (intros; apply Hnames; now right).
      csimpl. unfold render_argument at 2. rewrite Hstr, <- app_assoc.
      reflexivity.
Qed.

(** The line of text of a valid message: its time when asked for, its
    type, and [name=value] for each attribute of the type. *)
Lemma text_format_valid (m : Message) (include_time : bool) :
  valid_message m = true ->
  text_format m include_time =
  Return (Str.join " "
            ((if include_time then [py_str (attribute m "time")] else [])
             ++ type m :: (render_argument m <$> arguments (_spec m)))).
Proof.
  intros Hvalid. unfold text_format.
  assert ((if include_time then
             time ← getattr m "time"; Return [py_str time]
           else Return [])
          = Return (if include_time then [py_str (attribute m "time")]
                    else [])) as ->.
  { destruct include_time; [| reflexivity].
    destruct (valid_getattr m "time" Hvalid) as (value & Hdict & -> & _).
    { apply elem_of_valid_attributes. now right. }
    unfold attribute. rewrite Hdict. reflexivity. }
  change (Return ?x ≫= ?k) with (k x). cbv beta zeta.
  rewrite text_format_rounds by auto.
  change (Return ?x ≫= ?k) with (k x). cbv beta.
  rewrite <- app_assoc. reflexivity.
Qed.

Lemma int_char_ok (c : ascii) :
  int_char c = true ->
  value_char_ok c = true /\ Ascii.eqb c "," = false.
Proof.
  unfold int_char, value_char_ok, not_space, Str.is_digit, Str.is_space.
  destruct c as [[] [] [] [] [] [] [] []]; simpl; try discriminate; auto.
Qed.

Lemma join_chars (P : ascii -> bool) (sep : string) (parts : list string) :
  Str.all_chars P sep = true ->
  Forall (fun part => Str.all_chars P part = true) parts ->
  Str.all_chars P (Str.join sep parts) = true.
Proof.
  intros Hsep. induction 1 as [| part parts Hpart Hparts IH];
    [reflexivity |].
  destruct parts as [| part' parts]; [exact Hpart |].
  change (Str.join sep (part :: part' :: parts))
    with (part ++ sep ++ Str.join sep (part' :: parts)).
  rewrite !all_chars_app, Hpart, Hsep, IH. reflexivity.
Qed.

Lemma spec_names_ok (spec : MessageSpec) :
  spec ∈ get_message_specs ->
  type_ spec <> "" /\
  Str.all_chars not_space (type_ spec) = true /\
  Str.int_of_text (type_ spec) = None /\
  Forall (fun name => name <> "" /\ Str.all_chars value_char_ok name = true)
         (arguments spec).
Proof.
  intros Hin.
  set (P := fun spec =>
       negb (String.eqb (type_ spec) "")
       && Str.all_chars not_space (type_ spec)
       && match Str.int_of_text (type_ spec) with
          | None => true
          | Some _ => false
          end
       && forallb (fun name => negb (String.eqb name "")
                               && Str.all_chars value_char_ok name)
                  (arguments spec)).
  assert (forallb P get_message_specs = true) as HP by by_computation.
  pose proof (forallb_elem_of P _ _ HP Hin) as Hp. subst P. cbv beta in Hp.
  apply andb_true_iff in Hp as [Hp Hargs].
  apply andb_true_iff in Hp as [Hp Hint].
  apply andb_true_iff in Hp as [Hne Hspace].
  apply negb_true_iff, String.eqb_neq in Hne.
  repeat split; try assumption.
  - destruct (Str.int_of_text (type_ spec)); [discriminate | reflexivity].
  - apply Forall_forall. intros name Hname.
    apply list_elem_of_In in Hname.
    pose proof (proj1 (forallb_forall _ _) Hargs name Hname) as Hn.
    apply andb_true_iff in Hn as [Hn Hc].
    apply negb_true_iff, String.eqb_neq in Hn. auto.
Qed.

(** What is written for an attribute of a valid message: an integer, or
    for [data] the integers between parentheses. *)
Lemma render_value_valid (m : Message) (name : string) :
  valid_message m = true -> name ∈ arguments (_spec m) ->
  (name <> "data" /\ exists n,
     attribute m name = VInt n /\
     render_value name (attribute m name) = Str.of_int n) \/
  (name = "data" /\ exists data_bytes,
     attribute m name = VTuple (VInt <$> data_bytes) /\
     render_value name (attribute m name)
     = "(" ++ Str.join "," (Str.of_int <$> data_bytes) ++ ")").
Proof.
  intros Hvalid Hname.
  destruct (valid_spec m Hvalid) as [Hin _].
  destruct (valid_attribute m name Hvalid Hname) as [_ Hok].
  unfold render_value.
  destruct (String.eqb_spec name "data") as [-> | Hdata].
  - right. split; [reflexivity |].
    apply stored_ok_ints in Hok as [data_bytes ->].
    exists data_bytes. split; [reflexivity |].
    rewrite <- list_fmap_compose. reflexivity.
  - left. split; [assumption |].
    destruct (stored_ok_int name _ Hok Hdata) as [n ->].
    { intros ->. exact (time_not_argument _ Hin Hname). }
    eauto.
Qed.

Lemma of_int_value_chars (n : Z) :
  Str.all_chars value_char_ok (Str.of_int n) = true
  /\ Str.contains "," (Str.of_int n) = false.
Proof.
  split.
  - apply (all_chars_impl int_char); [apply int_char_ok | apply of_int_chars].
  - apply all_chars_contains.
    apply (all_chars_impl int_char); [| apply of_int_chars].
    intros c Hc. apply negb_true_iff, int_char_ok, Hc.
Qed.

Lemma data_value_chars (data_bytes : list Z) :
  Str.all_chars value_char_ok
    ("(" ++ Str.join "," (Str.of_int <$> data_bytes) ++ ")") = true.
Proof.
  rewrite !all_chars_app. rewrite join_chars; [reflexivity.. |].
  apply Forall_forall. intros part Hpart.
  apply list_elem_of_fmap in Hpart as (n & -> & _).
  apply of_int_value_chars.
Qed.

Lemma mapM_int_of_text (data_bytes : list Z) :
  mapM Str.int_of_text (Str.of_int <$> data_bytes) = Some data_bytes.
Proof.
  apply mapM_fmap_Some. exact int_of_text_of_int.
Qed.

Lemma value_chars_no_equals (s : string) :
  Str.all_chars value_char_ok s = true -> Str.contains "=" s = false.
Proof.
  intros Hs. apply all_chars_contains.
  apply (all_chars_impl value_char_ok); [| exact Hs].
  unfold value_char_ok. intros c [_ Hc]%andb_true_iff. exact Hc.
Qed.

Lemma value_chars_no_space (s : string) :
  Str.all_chars value_char_ok s = true -> Str.all_chars not_space s = true.
Proof.
  apply all_chars_impl. unfold value_char_ok.
  intros c [Hc _]%andb_true_iff. exact Hc.
Qed.

Lemma render_argument_split (m : Message) (name : string) :
  valid_message m = true -> name ∈ arguments (_spec m) ->
  Str.split_on "=" (render_argument m name)
  = [name; render_value name (attribute m name)]
  /\ render_argument m name <> ""
  /\ Str.all_chars not_space (render_argument m name) = true.
Proof.
  intros Hvalid Hname. destruct (valid_spec m Hvalid) as [Hin _].
  destruct (spec_names_ok _ Hin) as (_ & _ & _ & Hargs).
  rewrite Forall_forall in Hargs.
  destruct (Hargs name Hname) as [Hne Hchars].
  assert (Str.all_chars value_char_ok (render_value name (attribute m name))
          = true) as Hvalue.
  { destruct (render_value_valid m name Hvalid Hname)
      as [(_ & n & _ & ->) | (_ & data_bytes & _ & ->)].
    - apply of_int_value_chars.
    - apply data_value_chars. }
  unfold render_argument.
  change (name ++ "=" ++ ?value) with (name ++ String "=" value).
  split; [| split].
  - rewrite split_on_app by auto using value_chars_no_equals.
    rewrite split_on_none by auto using value_chars_no_equals.
    reflexivity.
  - destruct name; [contradiction | discriminate].
  - rewrite all_chars_app. cbn [Str.all_chars].
    rewrite !value_chars_no_space by assumption. reflexivity.
Qed.

(** The values that the checks of the attributes accept are far from
    [sys.maxint]: read back with [int], they are [int]s. *)
Lemma field_rule_small (name : string) (n : Z) :
  field_rule name (VInt n) = true -> name <> "time" ->
  py_int n = VInt n.
Proof.
  intros Hrule Htime. apply py_int_small. revert Hrule.
  unfold field_rule, int_between. apply String.eqb_neq in Htime.
  rewrite Htime. cbn [py_iter].
  repeat match goal with
         | |- context [String.eqb ?a ?b] => destruct (String.eqb a b)
         end;
    try discriminate; intros [Hlow Hhigh]%andb_true_iff; lia.
Qed.

Lemma data_bytes_small (data_bytes : list Z) :
  forallb (int_between 0 127) (VInt <$> data_bytes) = true ->
  py_int <$> data_bytes = VInt <$> data_bytes.
Proof.
  induction data_bytes as [| byte data_bytes IH]; [reflexivity |].
  rewrite !fmap_cons. cbn [forallb int_between].
  intros [[Hlow Hhigh]%andb_true_iff Hrest]%andb_true_iff.
  rewrite IH by assumption. f_equal. apply py_int_small. lia.
Qed.

(** [text_parse] reads the argument written for an attribute of a valid
    message as a write of the value of the attribute. *)
Lemma text_parse_rendered (m message : Message) (names_seen : gset string)
    (name : string) :
  valid_message m = true -> name ∈ arguments (_spec m) ->
  attribute m "data" <> VTuple [] ->
  _spec message = _spec m -> name ∉ names_seen ->
  text_parse_argument (message, names_seen) (render_argument m name)
  = Return (_set message name (stored_value name (attribute m name)),
            names_seen ∪ {[name]}).
Proof.
  intros Hvalid Hname Hdata Hspec Hseen.
  destruct (render_argument_split m name Hvalid Hname) as (Hsplit & _).
  destruct (valid_attribute m name Hvalid Hname) as [_ Hok].
  destruct (stored_ok_rule name _ Hok) as [Hrule Hstored].
  assert (name ∈ valid_attributes (_spec message)) as Hvalid_name
    by (rewrite Hspec; apply elem_of_valid_attributes; now left).
  unfold text_parse_argument. rewrite Hsplit.
  rewrite bool_decide_eq_false_2 by assumption.
  destruct (render_value_valid m name Hvalid Hname)
    as [(Hne & n & Hattr & ->) | (-> & data_bytes & Hattr & ->)].
  - apply String.eqb_neq in Hne. rewrite Hne, int_of_text_of_int.
    rewrite Hattr in *.
    rewrite (field_rule_small name n Hrule)
      by (intros ->; destruct (valid_spec m Hvalid) as [Hin _];
          exact (time_not_argument _ Hin Hname)).
    assert (setattr message name (VInt n)
            = Return (_set message name (stored_value name (VInt n)))) as ->
      by (apply setattr_Return; auto).
    reflexivity.
  - rewrite String.eqb_refl.
    change (Str.startswith "(" ("(" ++ ?s)) with true. cbn [negb andb].
    change (Str.slice_1_m1 ("(" ++ ?s ++ ")"))
      with (Str.drop_last (s ++ ")")).
    rewrite drop_last_app.
    assert (data_bytes <> []) as Hnonempty
      by (intros ->; apply Hdata; rewrite Hattr; reflexivity).
    rewrite split_on_join.
    + rewrite mapM_int_of_text.
      rewrite Hattr in *.
      rewrite (data_bytes_small data_bytes) by exact Hrule.
      assert (setattr message "data" (VList (VInt <$> data_bytes))
              = Return (_set message "data"
                          (stored_value "data" (VTuple (VInt <$> data_bytes)))))
        as ->; [| reflexivity].
      apply setattr_Return. split; [assumption |]. split; [| reflexivity].
      exact Hrule.
    + destruct data_bytes; [contradiction | discriminate].
    + apply Forall_forall. intros part Hpart.
      apply list_elem_of_fmap in Hpart as (n & -> & _).
      apply of_int_value_chars.
Qed.

Lemma text_parse_rendered_all (m : Message) (names : list string)
    (message : Message) (names_seen : gset string) :
  valid_message m = true ->
  attribute m "data" <> VTuple [] ->
  (forall name, name ∈ names ->
                name ∈ arguments (_spec m) /\ name ∉ names_seen) ->
  NoDup names ->
  _spec message = _spec m ->
  for_fold text_parse_argument (render_argument m <$> names)
           (message, names_seen)
  = Return (set_all ((fun name => (name, attribute m name)) <$> names)
                    message,
            names_seen ∪ list_to_set names).
Proof.
  intros Hvalid Hdata. revert message names_seen.
  induction names as [| name names IH];
    intros message names_seen Hnames Hdup Hspec.
  - cbn [fmap list_fmap for_fold set_all]. rewrite list_to_set_nil.
    rewrite union_empty_r_L. reflexivity.
  - apply NoDup_cons in Hdup as [Hfresh Hdup].
    destruct (Hnames name) as [Hname Hseen]; [now left |].
    rewrite fmap_cons. cbn [for_fold].
    rewrite text_parse_rendered by assumption.
    change (Return ?x ≫= ?k) with (k x). cbv beta.
    rewrite fmap_cons, list_to_set_cons. cbn [set_all].
    rewrite IH.
    + rewrite <- (assoc_L union). reflexivity.
    + intros name' Hin. destruct (Hnames name') as [Hname' Hseen'];
        [now right |].
      split; [assumption |].
      intros [Hold | ->%elem_of_singleton]%elem_of_union; auto.
    + assumption.
    + rewrite set_spec. assumption.
Qed.

(** Writing the attributes of a valid message onto a message of the same
    specification gives the message, up to the time. *)
Lemma set_all_attributes (m message : Message) (time : pyval) :
  valid_message m = true ->
  _spec message = _spec m -> type message = type m ->
  dom (__dict__ message) = valid_attributes (_spec m) ->
  __dict__ message !! "time" = Some time ->
  set_all ((fun name => (name, attribute m name)) <$> arguments (_spec m))
          message
  = _set m "time" time.
Proof.
  intros Hvalid Hspec Htype Hdom Htime.
  destruct (valid_spec m Hvalid) as [Hin _].
  pose proof (proj1 (valid_message_iff m) Hvalid) as (_ & Hdom_m & _).
  set (entries := (fun name => (name, attribute m name))
                    <$> arguments (_spec m)).
  destruct (set_all_spec entries message) as [Hs Ht].
  apply message_ext.
  - rewrite Hs. exact Hspec.
  - rewrite Ht. exact Htype.
  - intros name. rewrite set_all_lookup. unfold entries.
    rewrite kw_lookup_defaults. unfold _set. cbn [__dict__].
    destruct (decide (name ∈ arguments (_spec m))) as [Hname | Hname].
    + rewrite (bool_decide_eq_true_2 _ Hname).
      assert (name <> "time") as Hne
        by (intros ->; exact (time_not_argument _ Hin Hname)).
      rewrite lookup_insert_ne by congruence.
      destruct (valid_getattr m name Hvalid) as (value & Hdict & _ & Hok).
      { apply elem_of_valid_attributes. now left. }
      unfold attribute. rewrite Hdict. simpl. f_equal.
      apply stored_ok_rule, Hok.
    + rewrite (bool_decide_eq_false_2 _ Hname).
      destruct (String.eqb_spec name "time") as [-> | Hne].
      * rewrite lookup_insert_eq. exact Htime.
      * rewrite lookup_insert_ne by congruence.
        assert (name ∉ valid_attributes (_spec m)) as Hout
          by (rewrite elem_of_valid_attributes; tauto).
        transitivity (@None pyval).
        -- apply not_elem_of_dom. rewrite Hdom. exact Hout.
        -- symmetry. apply not_elem_of_dom. rewrite Hdom_m. exact Hout.
Qed.

Lemma default_message_dom (key : Z + string) (spec : MessageSpec) :
  _spec_lookup !! key = Some spec ->
  dom (__dict__ (default_message spec key)) = valid_attributes spec.
Proof.
  intros Hlookup.
  pose proof (default_message_valid key spec Hlookup) as Hvalid.
  apply valid_message_iff in Hvalid as (_ & Hdom & _).
  destruct (default_message_spec spec key) as [Hs _].
  rewrite Hdom, Hs. reflexivity.
Qed.

(** The words of the line of a valid message, and how [text_parse] reads
    the type and the arguments among them. *)
Lemma text_parse_words_rendered (m : Message) (time : option pyval) :
  valid_message m = true ->
  attribute m "data" <> VTuple [] ->
  (forall number, time = Some number -> field_rule "time" number = true) ->
  text_parse_words time (type m) (render_argument m <$> arguments (_spec m))
  = Return (_set m "time"
              match time with
              | Some number => if py_bool number then number else VInt 0
              | None => VInt 0
              end).
Proof.
  intros Hvalid Hdata Htime. unfold text_parse_words.
  pose proof (proj1 (valid_message_iff m) Hvalid) as (Hlookup & _).
  destruct (valid_spec m Hvalid) as [Hin Htype].
  rewrite init_empty, Hlookup.
  change (Return ?x ≫= ?k) with (k x). cbv beta.
  set (m0 := default_message (_spec m) (inr (type m))).
  assert (_spec m0 = _spec m /\ type m0 = type_ (_spec m)) as [Hs0 Ht0]
    by apply default_message_spec.
  assert (dom (__dict__ m0) = valid_attributes (_spec m)) as Hdom0
    by apply default_message_dom, Hlookup.
  assert (__dict__ m0 !! "time" = Some (VInt 0)) as Htime0
    by (unfold m0; rewrite default_message_lookup; reflexivity).
  set (stored := match time with
                 | Some number => if py_bool number then number else VInt 0
                 | None => VInt 0
                 end).
  assert (exists m1,
            match time with
            | Some time =>
                if py_bool time then setattr m0 "time" time else Return m0
            | None => Return m0
            end = Return m1 /\
            _spec m1 = _spec m /\ type m1 = type m /\
            dom (__dict__ m1) = valid_attributes (_spec m) /\
            __dict__ m1 !! "time" = Some stored)
    as (m1 & -> & Hs1 & Ht1 & Hdom1 & Htime1).
  { assert (exists m1, Return m0 = Return m1 /\
              _spec m1 = _spec m /\ type m1 = type m /\
              dom (__dict__ m1) = valid_attributes (_spec m) /\
              __dict__ m1 !! "time" = Some (VInt 0)) as Hsame
      by (exists m0; rewrite Htype; auto).
    subst stored. destruct time as [number |]; [| exact Hsame].
    destruct (py_bool number); [| exact Hsame].
    exists (_set m0 "time" number). split; [| split; [| split; [| split]]].
    - apply setattr_Return. split; [| split].
      + apply elem_of_valid_attributes. now right.
      + auto.
      + reflexivity.
    - exact Hs0.
    - rewrite Htype. exact Ht0.
    - unfold _set. cbn [__dict__]. rewrite dom_insert_L, Hdom0.
      apply subseteq_union_1_L, singleton_subseteq_l.
      apply elem_of_valid_attributes. now right.
    - unfold _set. cbn [__dict__]. apply lookup_insert_eq. }
  change (Return ?x ≫= ?k) with (k x). cbv beta.
  rewrite (text_parse_rendered_all m) ; try assumption.
  - change (Return ?x ≫= ?k) with (k x). cbv beta. cbn [fst].
    f_equal. apply set_all_attributes; assumption.
  - intros name Hname. split; [assumption | apply not_elem_of_empty].
  - pose proof (spec_names_NoDup _ Hin) as Hdup.
    apply NoDup_app in Hdup as (Hdup & _). exact Hdup.
Qed.

Lemma rendered_words (m : Message) :
  valid_message m = true ->
  Forall (fun w => w <> "" /\ Str.all_chars not_space w = true)
         (type m :: (render_argument m <$> arguments (_spec m))).
Proof.
  intros Hvalid. destruct (valid_spec m Hvalid) as [Hin Htype].
  destruct (spec_names_ok _ Hin) as (Hne & Hspace & _).
  constructor; [rewrite Htype; auto |].
  apply Forall_forall. intros word Hword.
  apply list_elem_of_fmap in Hword as (name & -> & Hname).
  apply (render_argument_split m name Hvalid Hname).
Qed.

(** X15: the line that [text_format] writes for a valid message, without
    its time, is parsed back by [text_parse] to the message with the default
    time 0, which [==] finds equal to the message.  This holds of every
    valid message whose attributes hold integers ([int]s other than [True]
    and [False], which the model leaves out), a sysex message without data
    excepted, when the name of the type is not read as a float. *)
Theorem text_round_trip (m : Message) :
  valid_message m = true ->
  attribute m "data" <> VTuple [] ->
  float_of_text (type m) = None ->
  exists text,
    text_format m false = Return text /\
    text_parse text = Return (_set m "time" (VInt 0)) /\
    __eq__ m (_set m "time" (VInt 0)) = Return true.
Proof.
  intros Hvalid Hdata Hfloat.
  destruct (valid_spec m Hvalid) as [Hin Htype].
  destruct (spec_names_ok _ Hin) as (_ & _ & Hint & _).
  eexists. split; [apply text_format_valid, Hvalid |].
  rewrite app_nil_l. split.
  - rewrite text_parse_unfold. unfold line_arguments.
    rewrite split_join by (apply rendered_words, Hvalid).
    assert (text_parse_number (type m) = None) as ->.
    { unfold text_parse_number. rewrite Htype at 1. rewrite Hint, Hfloat.
      reflexivity. }
    apply (text_parse_words_rendered m None); auto. discriminate.
  - assert (valid_message (_set m "time" (VInt 0)) = true) as Hvalid'.
    { apply set_valid; [assumption | | reflexivity].
      apply elem_of_valid_attributes. now right. }
    apply (messages_eq m _ Hvalid Hvalid'). split; [reflexivity |].
    intros name Hname. unfold _set. cbn [__dict__].
    symmetry. apply lookup_insert_ne.
    intros <-. exact (time_not_argument _ Hin Hname).
Qed.

(** X16: with the time included, and the time an [int] (other than [True]
    and [False]), the line that [text_format] writes for a valid message
    whose attributes hold integers, a sysex message without data excepted,
    is parsed back to the message itself. *)
Theorem text_round_trip_with_time (m : Message) (time : Z) :
  valid_message m = true ->
  attribute m "data" <> VTuple [] ->
  __dict__ m !! "time" = Some (VInt time) ->
  - maxint - 1 <= time <= maxint ->
  exists text,
    text_format m true = Return text /\ text_parse text = Return m.
Proof.
  intros Hvalid Hdata Htime Hint.
  eexists. split; [apply text_format_valid, Hvalid |].
  assert (attribute m "time" = VInt time) as ->
    by (unfold attribute; rewrite Htime; reflexivity).
  cbn [py_str py_repr app].
  rewrite text_parse_unfold. unfold line_arguments.
  rewrite split_join.
  - assert (text_parse_number (Str.of_int time) = Some (VInt time)) as ->.
    { unfold text_parse_number. rewrite int_of_text_of_int.
      destruct (py_int_cases time) as [[-> _] | [_ Hlong]];
        [reflexivity | lia]. }
    cbn [tail].
    rewrite (text_parse_words_rendered m (Some (VInt time)));
      [| assumption.. | intros number [= <-]; reflexivity].
    f_equal. cbn [py_bool].
    assert ((if negb (time =? 0) then VInt time else VInt 0) = VInt time)
      as ->.
    { destruct (Z.eqb_spec time 0) as [-> | _]; reflexivity. }
    destruct m as [spec ty dict]. unfold _set. cbn [_spec type __dict__] in *.
    f_equal. apply insert_id. exact Htime.
  - constructor; [| apply rendered_words, Hvalid].
    split; [apply of_int_nonempty |].
    apply value_chars_no_space, of_int_value_chars.
Qed.

(** ** The encoding tells messages apart *)

Lemma data_alone (spec : MessageSpec) :
  spec ∈ get_message_specs ->
  arguments spec = ["data"] \/ "data" ∉ arguments spec.
Proof.
  intros Hin.
  set (P := fun spec => bool_decide (arguments spec = ["data"])
                        || bool_decide ("data" ∉ arguments spec)).
  assert (forallb P get_message_specs = true) as HP by by_computation.
  pose proof (forallb_elem_of P _ _ HP Hin) as Hp. subst P. cbv beta in Hp.
  apply orb_true_iff in Hp as [Hp | Hp];
    apply bool_decide_eq_true_1 in Hp; auto.
Qed.

Lemma wire_status_lookup (m : Message) :
  valid_message m = true ->
  _spec_lookup !! (inl (wire_status m) : Z + string) = Some (_spec m).
Proof.
  intros Hvalid. destruct (valid_spec m Hvalid) as [Hin _].
  destruct (valid_status_range m Hvalid) as [_ Hchannel].
  apply registry_lookup_byte. split; [assumption |].
  unfold wire_status.
  destruct (status_byte (_spec m) <? 0xf0); [| reflexivity].
  destruct Hchannel as (channel & -> & Hrange & _); [reflexivity |].
  eauto.
Qed.

Lemma two_bytes_injective (a b : Z) :
  Z.land a 0x7f = Z.land b 0x7f -> Z.shiftr a 7 = Z.shiftr b 7 -> a = b.
Proof.
  change 0x7f with (Z.ones 7). rewrite !Z.land_ones, !Z.shiftr_div_pow2 by lia.
  intros Hmod Hdiv.
  rewrite (Z.div_mod a (2 ^ 7)), (Z.div_mod b (2 ^ 7)) by lia.
  congruence.
Qed.

Lemma field_bytes_injective (m1 m2 : Message) (names : list string) :
  (forall name, name ∈ names ->
     name <> "data" /\ name <> "time" /\
     stored_ok name (attribute m1 name) = true /\
     stored_ok name (attribute m2 name) = true) ->
  flat_map (fun name => field_bytes name (attribute m1 name)) names
  = flat_map (fun name => field_bytes name (attribute m2 name)) names ->
  forall name, name ∈ names -> name <> "channel" ->
               attribute m1 name = attribute m2 name.
Proof.
  induction names as [| name names IH]; intros Hnames Hbytes other Hother Hne.
  - inversion Hother.
  - destruct (Hnames name) as (Hdata & Htime & Hok1 & Hok2); [now left |].
    destruct (stored_ok_int _ _ Hok1 Hdata Htime) as [n1 Hn1].
    destruct (stored_ok_int _ _ Hok2 Hdata Htime) as [n2 Hn2].
    assert ((name <> "channel" -> n1 = n2) /\
            flat_map (fun name => field_bytes name (attribute m1 name)) names
            = flat_map (fun name => field_bytes name (attribute m2 name))
                       names) as [Hhead Htail].
    { cbn [flat_map] in Hbytes. rewrite Hn1, Hn2 in Hbytes.
      unfold field_bytes in Hbytes.
      apply String.eqb_neq in Hdata. rewrite Hdata in Hbytes.
      destruct (String.eqb_spec name "channel") as [-> | _].
      - cbn [app] in Hbytes. split; [congruence | assumption].
      - destruct (String.eqb name "pitch"); [| destruct (String.eqb name "pos")];
          cbn [app] in Hbytes.
        + injection Hbytes as Hlow Hhigh Hrest. split; [| assumption].
          intros _. pose proof (two_bytes_injective _ _ Hlow Hhigh). lia.
        + injection Hbytes as Hlow Hhigh Hrest. split; [| assumption].
          intros _. exact (two_bytes_injective _ _ Hlow Hhigh).
        + injection Hbytes as Hvalue Hrest. split; [| assumption].
          intros _. exact Hvalue. }
    apply elem_of_cons in Hother as [-> | Hother].
    + rewrite Hn1, Hn2, (Hhead Hne). reflexivity.
    + apply IH; auto. intros name' Hin. apply Hnames. now right.
Qed.

(** Two valid messages with the same status byte are of the same
    specification and, if they are channel messages, of the same channel. *)
Lemma wire_status_injective (m1 m2 : Message) :
  valid_message m1 = true -> valid_message m2 = true ->
  wire_status m1 = wire_status m2 ->
  _spec m1 = _spec m2 /\
  ("channel" ∈ arguments (_spec m1) ->
   attribute m1 "channel" = attribute m2 "channel").
Proof.
  intros Hv1 Hv2 Hstatus.
  pose proof (wire_status_lookup m1 Hv1) as H1.
  pose proof (wire_status_lookup m2 Hv2) as H2.
  rewrite Hstatus, H2 in H1. injection H1 as Hspec.
  split; [congruence |].
  intros Hchannel.
  destruct (valid_spec m1 Hv1) as [Hin _].
  assert ((status_byte (_spec m1) <? 0xf0) = true) as Hlow.
  { set (P := fun spec => implb (bool_decide ("channel" ∈ arguments spec))
                                   (status_byte spec <? 0xf0)).
    assert (forallb P get_message_specs = true) as HP by by_computation.
    pose proof (forallb_elem_of P _ _ HP Hin) as Hp. subst P. cbv beta in Hp.
    rewrite (bool_decide_eq_true_2 _ Hchannel) in Hp. exact Hp. }
  destruct (valid_status_range m1 Hv1) as [_ Hc1].
  destruct (valid_status_range m2 Hv2) as [_ Hc2].
  destruct Hc1 as (c1 & -> & _ & Hw1); [assumption |].
  destruct Hc2 as (c2 & -> & _ & Hw2); [rewrite Hspec; assumption |].
  f_equal. rewrite Hspec in *. lia.
Qed.

(** X17: the encoding tells valid messages apart as [==] does: two valid
    messages have the same bytes exactly when they are equal, that is, of
    the same type and with the same value in every attribute; the time,
    which is not encoded, plays no part. *)
Theorem bytes_injective (m1 m2 : Message) :
  valid_message m1 = true -> valid_message m2 = true ->
  (bytes m1 = bytes m2 <-> __eq__ m1 m2 = Return true).
Proof.
  intros Hv1 Hv2.
  rewrite (bytes_valid m1 Hv1), (bytes_valid m2 Hv2).
  rewrite (proj2 (messages_eq m1 m2 Hv1 Hv2)).
  destruct (valid_spec m1 Hv1) as [Hin1 Ht1].
  destruct (valid_spec m2 Hv2) as [Hin2 Ht2].
  assert (forall m name, valid_message m = true ->
            name ∈ arguments (_spec m) ->
            __dict__ m !! name = Some (attribute m name)) as Hdict.
  { intros m name Hv Hname.
    destruct (valid_getattr m name Hv) as (value & Hd & _);
      [apply elem_of_valid_attributes; now left |].
    unfold attribute. rewrite Hd. reflexivity. }
  split.
  - intros [= Hstatus Hfields].
    destruct (wire_status_injective m1 m2 Hv1 Hv2 Hstatus) as [Hspec Hchannel].
    split; [congruence |].
    intros name Hname.
    rewrite (Hdict m1 name Hv1 Hname).
    rewrite (Hdict m2 name Hv2) by (rewrite <- Hspec; exact Hname).
    f_equal. rewrite <- Hspec in Hfields.
    destruct (String.eqb_spec name "channel") as [-> | Hne]; [auto |].
    destruct (data_alone _ Hin1) as [Hargs | Hnodata].
    + rewrite Hargs in Hfields, Hname.
      apply list_elem_of_singleton in Hname as ->.
      destruct (valid_attribute m1 "data" Hv1) as [_ Hok1];
        [rewrite Hargs; now left |].
      destruct (valid_attribute m2 "data" Hv2) as [_ Hok2];
        [rewrite <- Hspec, Hargs; now left |].
      apply stored_ok_data in Hok1 as (items1 & Hd1 & _).
      apply stored_ok_data in Hok2 as (items2 & Hd2 & _).
      cbn [flat_map] in Hfields. rewrite Hd1, Hd2 in Hfields |- *.
      unfold field_bytes in Hfields. cbn in Hfields.
      rewrite !app_nil_r in Hfields.
      apply app_inj_tail in Hfields as [-> _]. reflexivity.
    + apply (field_bytes_injective m1 m2 (arguments (_spec m1)));
        try assumption.
      intros name' Hname'.
      split; [intros ->; contradiction |].
      split; [intros ->; exact (time_not_argument _ Hin1 Hname') |].
      split; [apply valid_attribute; assumption |].
      apply valid_attribute; [assumption | rewrite <- Hspec; assumption].
  - intros [Htype Hall].
    assert (_spec m1 = _spec m2) as Hspec.
    { apply valid_message_iff in Hv1 as (Hs1 & _).
      apply valid_message_iff in Hv2 as (Hs2 & _). congruence. }
    assert (forall name, name ∈ arguments (_spec m1) ->
              attribute m1 name = attribute m2 name) as Hattr.
    { intros name Hname. unfold attribute. rewrite (Hall name Hname).
      reflexivity. }
    unfold wire_bytes.
    assert (wire_status m1 = wire_status m2) as ->; [| do 2 f_equal].
    + unfold wire_status. rewrite <- Hspec.
      destruct (status_byte (_spec m1) <? 0xf0) eqn:Hlow; [| reflexivity].
      destruct (valid_status_range m1 Hv1) as [_ Hc1].
      destruct Hc1 as (c1 & Hc1 & _); [assumption |].
      assert ("channel" ∈ arguments (_spec m1)) as Hchannel.
      { set (P := fun spec => implb (status_byte spec <? 0xf0)
                                       (bool_decide
                                          ("channel" ∈ arguments spec))).
        assert (forallb P get_message_specs = true) as HP by by_computation.
        pose proof (forallb_elem_of P _ _ HP Hin1) as Hp.
        subst P. cbv beta in Hp. rewrite Hlow in Hp.
        exact (bool_decide_eq_true_1 _ Hp). }
      rewrite <- (Hattr "channel" Hchannel). reflexivity.
    + rewrite <- Hspec. clear -Hattr.
      induction (arguments (_spec m1)) as [| name names IH]; [reflexivity |].
      cbn [flat_map]. rewrite Hattr by (now left).
      rewrite IH; [reflexivity |]. intros name' Hname'. apply Hattr. now right.
Qed.

(** ** The signature of a type *)

(** X18: the signature of a registered type shows the constructor as it
    is called with the defaults: after the name of the type, quoted, it reads
    as [__repr__] prints the message that the constructor builds from the
    name alone: every attribute at its default and then [time=0]. *)
Theorem signature_shows_defaults (spec : MessageSpec) :
  spec ∈ get_message_specs ->
  exists rest,
    signature spec = "(" ++ Str.repr (type_ spec) ++ rest /\
    __init__ (inr (type_ spec)) [] ≫= __repr__
    = Return ("mido.Message(" ++ type_ spec ++ rest).
Proof.
  intros Hin.
  set (rest_of := fun spec =>
         let skipped := S (String.length (Str.repr (type_ spec))) in
         String.substring skipped
           (String.length (signature spec) - skipped) (signature spec)).
  set (P := fun spec =>
         String.eqb (signature spec)
                    ("(" ++ Str.repr (type_ spec) ++ rest_of spec)
         && match __init__ (inr (type_ spec)) [] ≫= __repr__ with
            | Return text =>
                String.eqb text ("mido.Message(" ++ type_ spec ++ rest_of spec)
            | Raise _ => false
            end).
  assert (forallb P get_message_specs = true) as HP by by_computation.
  pose proof (forallb_elem_of P _ _ HP Hin) as Hp. subst P. cbv beta in Hp.
  apply andb_true_iff in Hp as [Hsignature Hrepr].
  exists (rest_of spec). split; [apply String.eqb_eq, Hsignature |].
  destruct (__init__ (inr (type_ spec)) [] ≫= __repr__) as [text | e];
    [| discriminate].
  apply String.eqb_eq in Hrepr. congruence.
Qed.

End MessageProperties.

(** * The definitions at work *)

#[global] Existing Instance DecimalFloat.decimal_float.
#[global] Existing Instance int64.

(** Both sides of an equation between closed terms are evaluated and
    compared. *)
Ltac by_evaluation :=
  match goal with
  | |- ?l = ?r =>
      let v := eval vm_compute in l in
      let w := eval vm_compute in r in
      unify v w; vm_cast_no_check (@eq_refl _ v)
  end.

(** C1: the message [program_change] is encoded in two bytes, while its
    specification declares a size of three. *)
Theorem program_change_size_mismatch :
  (__init__ (inr "program_change") [] ≫= bytes)
  = Return [VInt 0xc0; VInt 0] /\
  (__init__ (inr "program_change") [] ≫= fun m => Return (size_ (_spec m)))
  = Return (Bytes 3).
Proof. split; by_evaluation. Qed.

(** C2: the text of a sysex message without data is [sysex data=()], and
    parsing that text raises. *)
Theorem empty_sysex_not_parsed_back :
  (__init__ (inr "sysex") [] ≫= fun m => text_format m false)
  = Return "sysex data=()" /\
  text_parse "sysex data=()"
  = Raise (ValueError "unable to parse data bytes").
Proof. split; by_evaluation. Qed.

(** C3: a data value that opens with a parenthesis and does not close with
    one is parsed: its first and last bytes are dropped and the rest is read
    as the data. *)
Theorem unclosed_data_parsed :
  Str.endswith ")" "(1,23" = false /\
  (text_parse "sysex data=(1,23" ≫= fun m => getattr m "data")
  = Return (VTuple [VInt 1; VInt 2]).
Proof. split; by_evaluation. Qed.

(** C4: a line that gives [data] to a message without data ends the stream
    with an [AttributeError]: nothing is yielded for it, and the line after
    it, which parses, is never reached. *)
Theorem stream_ended_by_attribute_error :
  text_parse_stream text_parse ["note_on data=(1)"; "note_on"]
  = mkGenerated []
      (Some (AttributeError "note_on message has no attribute data")) /\
  is_Return (text_parse "note_on") = true.
Proof. split; by_evaluation. Qed.

(** C9 (as stated): on the line [0 note_on time=5] the leading number is
    zero and the message does not keep the default time, so the time of the
    parsed message is not decided by the leading number alone. *)
Lemma leading_time_overwritten :
  (text_parse "0 note_on time=5" ≫= fun m => getattr m "time")
  = Return (VInt 5) /\
  ~ (forall (line first : string) (rest : list string) (time : pyval)
            (message : Message),
       Str.split line = first :: rest ->
       text_parse_number first = Some time ->
       text_parse line = Return message ->
       getattr message "time"
       = Return (if py_bool time then time else VInt 0)).
Proof.
  assert ((text_parse "0 note_on time=5" ≫= fun m => getattr m "time")
          = Return (VInt 5)) as Hparse by by_evaluation.
  split; [exact Hparse |].
  intros Hclaim.
  destruct (text_parse "0 note_on time=5") as [m |] eqn:Hm;
    [| discriminate].
  specialize (Hclaim "0 note_on time=5" "0" ["note_on"; "time=5"] (VInt 0) m
                eq_refl eq_refl Hm).
  change (getattr m "time" = Return (VInt 5)) in Hparse.
  rewrite Hparse in Hclaim. discriminate.
Qed.

(** A witness of [validated_writes]: writes to a [note_on] message. *)
Lemma validated_writes_witness :
  let m := default_message
             (mkMessageSpec 0x90 "note_on" ["channel"; "note"; "velocity"]
                            (Bytes 3)) (inr "note_on") in
  __setattr__ m "note" (VInt 60) = (_set m "note" (VInt 60), None) /\
  (exists message,
     __setattr__ m "note" (VInt 300) = (m, Some (ValueError message)) \/
     __setattr__ m "note" (VInt 300) = (m, Some (TypeError message))) /\
  (exists message,
     __setattr__ m "bogus" (VInt 1) = (m, Some (AttributeError message))) /\
  (exists message,
     __init__ (inr "note_on") [("note", VInt 300)]
     = Raise (ValueError message) \/
     __init__ (inr "note_on") [("note", VInt 300)]
     = Raise (TypeError message)).
Proof.
  intros m.
  assert ("note" ∈ valid_attributes (_spec m)) as Hnote
    by (apply (bool_decide_eq_true_1 _); by_evaluation).
  assert ("bogus" ∉ valid_attributes (_spec m)) as Hbogus
    by (apply (bool_decide_eq_false_1 _); by_evaluation).
  destruct (validated_writes m "note" (VInt 60)) as (Haccept & _).
  destruct (validated_writes m "note" (VInt 300))
    as (_ & Hreject & _ & Hinit).
  destruct (validated_writes m "bogus" (VInt 1)) as (_ & _ & Hname & _).
  split; [exact (Haccept Hnote eq_refl) |].
  split; [exact (Hreject Hnote eq_refl) |].
  split; [exact (Hname Hbogus) |].
  apply Hinit; [apply list_elem_of_here |].
  intros spec Hlookup.
  assert (_spec_lookup !! (inr "note_on" : Z + string) = Some (_spec m))
    as Hspec by by_evaluation.
  rewrite Hspec in Hlookup. injection Hlookup as <-. by_evaluation.
Defined.

(** A witness of [pitchwheel_bytes]: pitch 0 on channel 0 is encoded as
    [0xE0, 0x00, 0x40]. *)
Lemma pitchwheel_bytes_witness :
  (__init__ (inr "pitchwheel") [("channel", VInt 0); ("pitch", VInt 0)]
     ≫= bytes)
  = Return [VInt 0xe0; VInt 0x00; VInt 0x40].
Proof.
  destruct (pitchwheel_bytes 0 ltac:(lia)) as [_ Hinit].
  destruct (Hinit 0 ltac:(lia)) as (m & -> & Hbytes).
  exact Hbytes.
Defined.

(** A witness of [init_channel_of_status_byte]: the status byte 0x93 gives
    channel 3 and is the status byte of the message. *)
Lemma init_channel_of_status_byte_witness :
  (__init__ (inl 0x93) [] ≫= fun m => getattr m "channel")
  = Return (VInt 3) /\
  (__init__ (inl 0x93) [] ≫= _get_status_byte) = Return (VInt 0x93).
Proof.
  destruct (init_channel_of_status_byte 0x93 ltac:(lia))
    as ((m & Hm) & Hdefault & _).
  destruct (Hdefault [] m Hm (not_elem_of_nil _)) as [Hchannel Hstatus].
  rewrite Hm. split; [exact Hchannel | exact Hstatus].
Defined.

(** A witness of [leading_time_applied]: a leading 1.5 is the time of the
    message, after a leading 0.0 the time is the default 0, and an argument
    [time=5] is the time whatever the leading number is. *)
Lemma leading_time_applied_witness :
  (text_parse "1.5 note_on note=60" ≫= fun m => getattr m "time")
  = Return (VFloat (DecimalFloat.Finite false 15 (-1))) /\
  (text_parse "0.0 note_on note=60" ≫= fun m => getattr m "time")
  = Return (VInt 0) /\
  (text_parse "7 note_on note=60 time=5" ≫= fun m => getattr m "time")
  = Return (VInt 5).
Proof.
  split; [| split].
  - destruct (text_parse "1.5 note_on note=60") as [m |] eqn:Hm.
    + exact (proj1 (leading_time_applied "1.5 note_on note=60" "1.5"
                      "note_on" ["note=60"]
                      (VFloat (DecimalFloat.Finite false 15 (-1))) m
                      eq_refl eq_refl Hm) eq_refl).
    + assert (is_Return (text_parse "1.5 note_on note=60") = true) as Hr
        by by_evaluation.
      rewrite Hm in Hr. discriminate.
  - destruct (text_parse "0.0 note_on note=60") as [m |] eqn:Hm.
    + exact (proj1 (leading_time_applied "0.0 note_on note=60" "0.0"
                      "note_on" ["note=60"]
                      (VFloat (DecimalFloat.Finite false 0 (-1))) m
                      eq_refl eq_refl Hm) eq_refl).
    + assert (is_Return (text_parse "0.0 note_on note=60") = true) as Hr
        by by_evaluation.
      rewrite Hm in Hr. discriminate.
  - assert (text_parse_number "7" = Some (VInt 7)) as Hnumber
      by by_evaluation.
    destruct (text_parse "7 note_on note=60 time=5") as [m |] eqn:Hm.
    + destruct (proj1 (proj2 (leading_time_applied
                                "7 note_on note=60 time=5" "7" "note_on"
                                ["note=60"; "time=5"] (VInt 7) m
                                eq_refl Hnumber Hm)) "time=5")
        as (value & n & Hparts & Hvalue & Htime);
        [apply list_elem_of_further, list_elem_of_here | reflexivity |].
      injection Hparts as <-. injection Hvalue as <-. exact Htime.
    + assert (is_Return (text_parse "7 note_on note=60 time=5") = true)
        as Hr by by_evaluation.
      rewrite Hm in Hr. discriminate.
Defined.

(** A witness of [copy_ignores_unknown_overrides]: overrides of the type
    and of an unknown name are dropped by [copy] and refused by the
    constructor; beside them a velocity reaches the copy, and a velocity that
    the check refuses makes [copy] raise. *)
Lemma copy_ignores_unknown_overrides_witness :
  let m := default_message
             (mkMessageSpec 0x90 "note_on" ["channel"; "note"; "velocity"]
                            (Bytes 3)) (inr "note_on") in
  let unknown := [("type", VStr "note_off"); ("bogus", VInt 1)] in
  copy m unknown = Return m /\
  (exists message,
     __init__ (inr "note_on") unknown = Raise (ValueError message) \/
     __init__ (inr "note_on") unknown = Raise (TypeError message)) /\
  (exists m',
     copy m (unknown ++ [("velocity", VInt 64)])%list = Return m' /\
     getattr m' "velocity" = Return (VInt 64) /\
     getattr m' "note" = Return (VInt 0)) /\
  (exists message,
     copy m (unknown ++ [("velocity", VInt 300)])%list
     = Raise (ValueError message) \/
     copy m (unknown ++ [("velocity", VInt 300)])%list
     = Raise (TypeError message)).
Proof.
  intros m unknown.
  assert (valid_message m = true) as Hvalid by by_evaluation.
  assert (forall entry, entry ∈ unknown ->
                        entry.1 ∉ valid_attributes (_spec m)) as Hunknown.
  { intros entry Hin. apply (bool_decide_eq_false_1 _).
    apply elem_of_cons in Hin as [-> | Hin]; [by_evaluation |].
    apply elem_of_cons in Hin as [-> | Hin]; [by_evaluation |].
    apply elem_of_nil in Hin. destruct Hin. }
  destruct (copy_ignores_unknown_overrides m unknown)
    as (_ & Hcopy & Hinit & _).
  destruct (copy_ignores_unknown_overrides m
              (unknown ++ [("velocity", VInt 64)])%list)
    as (_ & _ & _ & Haccepted & _).
  destruct (copy_ignores_unknown_overrides m
              (unknown ++ [("velocity", VInt 300)])%list)
    as (_ & _ & _ & _ & Hrefused).
  assert (forall name, name ∈ valid_attributes (_spec m) ->
            name = "channel" \/ name = "note" \/ name = "velocity"
            \/ name = "time") as Hnames.
  { intros name [Hname | ->]%elem_of_valid_attributes; [| tauto].
    cbn in Hname. rewrite !elem_of_cons in Hname.
    destruct Hname as [-> | [-> | [-> | Hname]]]; [tauto.. |].
    apply elem_of_nil in Hname. destruct Hname. }
  assert ("velocity" ∈ valid_attributes (_spec m)) as Hvelocity
    by (apply elem_of_valid_attributes; left; cbn; set_solver).
  assert ("note" ∈ valid_attributes (_spec m)) as Hnote
    by (apply elem_of_valid_attributes; left; cbn; set_solver).
  split; [exact (Hcopy Hvalid Hunknown) |].
  split.
  { apply (Hinit Hvalid ("type", VStr "note_off"));
      [apply list_elem_of_here |].
    apply Hunknown, list_elem_of_here. }
  split.
  - destruct (Haccepted Hvalid) as (m' & Hm' & _ & _ & Hattributes).
    { intros name value Hname.
      destruct (Hnames name Hname) as [-> | [-> | [-> | ->]]];
        intros [= <-]; reflexivity. }
    exists m'. split; [exact Hm' |].
    split; [exact (Hattributes "velocity" Hvelocity) |].
    exact (Hattributes "note" Hnote).
  - apply (Hrefused Hvalid "velocity" (VInt 300) Hvelocity); reflexivity.
Defined.

(** A witness of [bytes_wire_encoding]: a [note_on] message with note 60
    on channel 3. *)
Lemma bytes_wire_encoding_witness :
  let m := set_all [("channel", VInt 3); ("note", VInt 60)]
             (default_message
                (mkMessageSpec 0x90 "note_on" ["channel"; "note"; "velocity"]
                               (Bytes 3)) (inr "note_on")) in
  _get_status_byte m = Return (VInt 0x93) /\
  bytes m = Return [VInt 0x93; VInt 60; VInt 0].
Proof.
  intros m.
  assert (valid_message m = true) as Hvalid by by_evaluation.
  destruct (bytes_wire_encoding m Hvalid) as [Hstatus Hbytes].
  split.
  - rewrite Hstatus. by_evaluation.
  - rewrite Hbytes. by_evaluation.
Defined.

(** A witness of [encoded_length]: a [program_change] message is encoded
    in two bytes. *)
Lemma encoded_length_witness :
  let m := default_message
             (mkMessageSpec 0xc0 "program_change" ["channel"; "program"]
                            (Bytes 3)) (inr "program_change") in
  exists message_bytes,
    bytes m = Return message_bytes /\ length message_bytes = 2%nat.
Proof.
  intros m.
  assert (valid_message m = true) as Hvalid by by_evaluation.
  destruct (encoded_length m Hvalid) as (message_bytes & Hbytes & Hlength).
  exists message_bytes. split; [exact Hbytes |].
  rewrite Hlength. by_evaluation.
Defined.

(** A witness of [bytearray_valid]: a sysex message with three data
    bytes. *)
Lemma bytearray_valid_witness :
  let m := set_all [("data", VList [VInt 1; VInt 2; VInt 3])]
             (default_message (mkMessageSpec 0xf0 "sysex" ["data"] Inf)
                              (inr "sysex")) in
  exists status data_bytes,
    bytes m = Return (VInt <$> status :: data_bytes) /\
    bytearray m = Return (status :: data_bytes) /\
    0x80 <= status <= 0xff /\
    Forall (fun byte => 0 <= byte <= 127 \/ byte = 0xf7) data_bytes.
Proof.
  intros m. apply (bytearray_valid m). by_evaluation.
Defined.

(** A witness of [fourteen_bit_round_trip]: the pitch 0 and the song
    position 300. *)
Lemma fourteen_bit_round_trip_witness :
  (exists low high,
     encode_pitch (VInt 0) = Return (VList [VInt low; VInt high]) /\
     0 <= low <= 127 /\ 0 <= high <= 127 /\ low + 128 * high - 8192 = 0) /\
  (exists low high,
     encode_pos (VInt 300) = Return (VList [VInt low; VInt high]) /\
     0 <= low <= 127 /\ 0 <= high <= 127 /\ low + 128 * high = 300).
Proof.
  split.
  - apply (fourteen_bit_round_trip 0). lia.
  - apply (fourteen_bit_round_trip 300). lia.
Defined.

(** A witness of [hex_valid]: a [note_on] message, with a space between
    the bytes. *)
Lemma hex_valid_witness :
  let m := set_all [("note", VInt 60); ("velocity", VInt 64)]
             (default_message
                (mkMessageSpec 0x90 "note_on" ["channel"; "note"; "velocity"]
                               (Bytes 3)) (inr "note_on")) in
  hex m " " = Return "90 3C 40".
Proof.
  intros m.
  assert (valid_message m = true) as Hvalid by by_evaluation.
  destruct (hex_valid m " " Hvalid) as (message_bytes & Hbytes & -> & _).
  assert (bytearray m = Return [0x90; 60; 64]) as Hm by by_evaluation.
  rewrite Hm in Hbytes. injection Hbytes as <-. reflexivity.
Defined.

(** A witness of [init_attributes]: the status byte 0x93 with a note. *)
Lemma init_attributes_witness :
  (__init__ (inl 0x93) [("note", VInt 60)] ≫= fun m =>
     Return (__dict__ m !! "channel", __dict__ m !! "note",
             __dict__ m !! "velocity"))
  = Return (Some (VInt 3), Some (VInt 60), Some (VInt 0)).
Proof.
  destruct (__init__ (inl 0x93) [("note", VInt 60)]) as [m | e] eqn:Hm.
  - apply (init_attributes (inl 0x93) [("note", VInt 60)] m) in Hm
      as (Hlookup & _ & _ & _ & _ & Hattributes).
    assert (_spec_lookup !! (inl 0x93 : Z + string)
            = Some (mkMessageSpec 0x90 "note_on"
                      ["channel"; "note"; "velocity"] (Bytes 3))) as Hspec
      by by_evaluation.
    rewrite Hspec in Hlookup. injection Hlookup as Hlookup.
    change (Return ?x ≫= ?k) with (k x). cbv beta.
    rewrite !Hattributes
      by (rewrite <- Hlookup; apply (bool_decide_eq_true_1 _); by_evaluation).
    reflexivity.
  - assert (is_Return (__init__ (inl 0x93) [("note", VInt 60)]) = true) as Hr
      by by_evaluation.
    rewrite Hm in Hr. discriminate.
Defined.

(** A witness of [setattr_frame]: a write that is refused. *)
Lemma setattr_frame_witness :
  let m := default_message
             (mkMessageSpec 0x90 "note_on" ["channel"; "note"; "velocity"]
                            (Bytes 3)) (inr "note_on") in
  (__setattr__ m "note" (VInt 300)).1 = m /\
  valid_message (__setattr__ m "note" (VInt 60)).1 = true.
Proof.
  intros m.
  assert (valid_message m = true) as Hvalid by by_evaluation.
  split.
  - apply (setattr_frame m "note" (VInt 300) Hvalid).
    assert (is_Some (__setattr__ m "note" (VInt 300)).2) as [e ->]
      by (apply (bool_decide_eq_true_1 _); by_evaluation).
    discriminate.
  - apply (setattr_frame m "note" (VInt 60) Hvalid).
Defined.

(** A witness of [copy_attributes]: a copy with another note. *)
Lemma copy_attributes_witness :
  let m := default_message
             (mkMessageSpec 0x90 "note_on" ["channel"; "note"; "velocity"]
                            (Bytes 3)) (inr "note_on") in
  (copy m [("note", VInt 60)] ≫= fun m' =>
     Return (__dict__ m' !! "note", __dict__ m' !! "velocity"))
  = Return (Some (VInt 60), __dict__ m !! "velocity").
Proof.
  intros m.
  assert (valid_message m = true) as Hvalid by by_evaluation.
  destruct (copy m [("note", VInt 60)]) as [m' | e] eqn:Hm'.
  - destruct (copy_attributes m m' [("note", VInt 60)] Hvalid Hm')
      as (_ & _ & _ & Hattributes).
    change (Return ?x ≫= ?k) with (k x). cbv beta.
    rewrite !Hattributes by (apply (bool_decide_eq_true_1 _); by_evaluation).
    reflexivity.
  - assert (is_Return (copy m [("note", VInt 60)]) = true) as Hr
      by by_evaluation.
    rewrite Hm' in Hr. discriminate.
Defined.

(** A witness of [eq_valid]: two [note_on] messages that differ in their
    time only are equal. *)
Lemma eq_valid_witness :
  let m := default_message
             (mkMessageSpec 0x90 "note_on" ["channel"; "note"; "velocity"]
                            (Bytes 3)) (inr "note_on") in
  __eq__ m (_set m "time" (VInt 5)) = Return true.
Proof.
  intros m.
  assert (valid_message m = true) as Hvalid by by_evaluation.
  assert (valid_message (_set m "time" (VInt 5)) = true) as Hvalid'
    by by_evaluation.
  apply (eq_valid m (_set m "time" (VInt 5)) Hvalid Hvalid').
  split; [reflexivity |].
  intros name Hname. symmetry. apply lookup_insert_ne.
  intros <-. revert Hname. apply (bool_decide_eq_false_1 _). by_evaluation.
Defined.

(** A witness of [stream_ends_at_other_exception]: the module as it is,
    on a stream whose third line is the first that is not empty. *)
Lemma stream_ends_at_other_exception_witness :
  text_parse_stream (unbound "parse")
    (["# notes"; ""] ++ "note_on note=60" :: ["note_off"])
  = mkGenerated []
      (Some (NameError "global name 'parse' is not defined")).
Proof.
  apply (stream_ends_at_other_exception (unbound "parse") ["# notes"; ""]
           ["note_off"] "note_on note=60").
  - intros line e Hline Hclean. destruct Hclean. apply String.eqb_eq.
    assert (forallb (fun line => String.eqb (clean_line line) "")
                    ["# notes"; ""] = true) as Hall by by_evaluation.
    exact (forallb_elem_of _ _ _ Hall Hline).
  - apply String.eqb_neq. by_evaluation.
  - reflexivity.
  - discriminate.
Defined.

(** A witness of [text_parse_raises]: a line with an integer past
    [sys.maxint]. *)
Lemma text_parse_raises_witness :
  text_parse "note_on note=99999999999999999999"
  = Raise (TypeError "data byte must be an integer") /\
  exists n,
    n ∈ line_integers "note_on note=99999999999999999999"
    /\ (n < - maxint - 1 \/ maxint < n).
Proof.
  assert (text_parse "note_on note=99999999999999999999"
          = Raise (TypeError "data byte must be an integer")) as Hraise
    by by_evaluation.
  split; [exact Hraise |].
  destruct (text_parse_raises _ _ Hraise)
    as [[message Hvalue] | [[_ [message Hattribute]] | [Hlong _]]];
    [discriminate | discriminate | exact Hlong].
Defined.

(** A witness of [text_parse_valid]: a line with two arguments. *)
Lemma text_parse_valid_witness :
  (text_parse "note_on note=60 velocity=64" ≫= fun m =>
     Return (valid_message m)) = Return true.
Proof.
  destruct (text_parse "note_on note=60 velocity=64") as [m | e] eqn:Hm.
  - destruct (text_parse_valid "note_on note=60 velocity=64" m Hm)
      as [Hvalid _].
    change (Return ?x ≫= ?k) with (k x). cbv beta.
    rewrite Hvalid. reflexivity.
  - assert (is_Return (text_parse "note_on note=60 velocity=64") = true)
      as Hr by by_evaluation.
    rewrite Hm in Hr. discriminate.
Defined.

(** A witness of [text_round_trip]: a [pitchwheel] message. *)
Lemma text_round_trip_witness :
  let m := set_all [("channel", VInt 2); ("pitch", VInt (-100));
                    ("time", VInt 7)]
             (default_message
                (mkMessageSpec 0xe0 "pitchwheel" ["channel"; "pitch"]
                               (Bytes 3)) (inr "pitchwheel")) in
  text_format m false = Return "pitchwheel channel=2 pitch=-100" /\
  text_parse "pitchwheel channel=2 pitch=-100"
  = Return (_set m "time" (VInt 0)).
Proof.
  intros m.
  assert (valid_message m = true) as Hvalid by by_evaluation.
  assert (attribute m "data" <> VTuple []) as Hdata.
  { assert (match attribute m "data" with VTuple [] => false | _ => true end
            = true) as Hnot by by_evaluation.
    intros Hempty. rewrite Hempty in Hnot. discriminate. }
  assert (float_of_text (type m) = None) as Hfloat by by_evaluation.
  destruct (text_round_trip m Hvalid Hdata Hfloat)
    as (text & Hformat & Hparse & _).
  assert (text_format m false = Return "pitchwheel channel=2 pitch=-100")
    as Htext by by_evaluation.
  rewrite Htext in Hformat. injection Hformat as <-.
  split; [reflexivity | exact Hparse].
Defined.

(** A witness of [text_round_trip_with_time]: a sysex message with data
    and a time. *)
Lemma text_round_trip_with_time_witness :
  let m := set_all [("data", VList [VInt 1; VInt 2; VInt 3]);
                    ("time", VInt 7)]
             (default_message (mkMessageSpec 0xf0 "sysex" ["data"] Inf)
                              (inr "sysex")) in
  text_format m true = Return "7 sysex data=(1,2,3)" /\
  text_parse "7 sysex data=(1,2,3)" = Return m.
Proof.
  intros m.
  assert (valid_message m = true) as Hvalid by by_evaluation.
  assert (attribute m "data" <> VTuple []) as Hdata.
  { assert (match attribute m "data" with VTuple [] => false | _ => true end
            = true) as Hnot by by_evaluation.
    intros Hempty. rewrite Hempty in Hnot. discriminate. }
  assert (__dict__ m !! "time" = Some (VInt 7)) as Htime by by_evaluation.
  assert (- maxint - 1 <= 7 <= maxint) as Hint
    by (pose proof maxint_min; lia).
  destruct (text_round_trip_with_time m 7 Hvalid Hdata Htime Hint)
    as (text & Hformat & Hparse).
  assert (text_format m true = Return "7 sysex data=(1,2,3)")
    as Htext by by_evaluation.
  rewrite Htext in Hformat. injection Hformat as <-.
  split; [reflexivity | exact Hparse].
Defined.

(** A witness of [bytes_injective]: two [note_on] messages that differ in
    their time only have the same bytes. *)
Lemma bytes_injective_witness :
  let m := default_message
             (mkMessageSpec 0x90 "note_on" ["channel"; "note"; "velocity"]
                            (Bytes 3)) (inr "note_on") in
  __eq__ m (_set m "time" (VInt 5)) = Return true.
Proof.
  intros m.
  assert (valid_message m = true) as Hvalid by by_evaluation.
  assert (valid_message (_set m "time" (VInt 5)) = true) as Hvalid'
    by by_evaluation.
  apply (bytes_injective m (_set m "time" (VInt 5)) Hvalid Hvalid').
  by_evaluation.
Defined.

(** A witness of [signature_shows_defaults]: the signature of
    [note_on]. *)
Lemma signature_shows_defaults_witness :
  exists rest,
    signature (mkMessageSpec 0x90 "note_on" ["channel"; "note"; "velocity"]
                             (Bytes 3))
    = "(" ++ Str.repr "note_on" ++ rest /\
    __init__ (inr "note_on") [] ≫= __repr__
    = Return ("mido.Message(" ++ "note_on" ++ rest).
Proof.
  apply (signature_shows_defaults
           (mkMessageSpec 0x90 "note_on" ["channel"; "note"; "velocity"]
                          (Bytes 3))).
  apply (bool_decide_eq_true_1 _). by_evaluation.
Defined.
